(** * HermesBuiltin: the native built-in operations of the Hermes VM

    A shallow embedding of [lib/VM/JSLib/HermesBuiltin.cpp].  Every
    function of that file, the [hermesBuiltin*] functions,
    [silentObjectSetPrototypeOf] and [createHermesBuiltins], is a Rocq
    function of the same name, the native functions over an explicit
    [Runtime] state; the object model, the call stack and the iterator
    protocol, which live in other files of the VM, are represented by the
    small executable model of the first modules. *)

From Stdlib Require Import ZArith QArith Lia.
From stdpp Require Import base option list gmap strings pretty.

Local Open Scope Z_scope.

(** ** Values *)

(** Modelled from the spec: the numbers of the Value of section 3.  The
    C++ type is an IEEE-754 [double]; the model keeps its mathematical
    value: not-a-number, the two infinities, or a finite rational.  Every
    finite double is such a rational, so a statement over every [JSNumber]
    covers every double. *)
Inductive JSNumber :=
| NaN
| Inf (negative : bool)
| Fin (q : Q).

Definition ofZ (z : Z) : JSNumber := Fin (inject_Z z).

(** The integer part of a finite number, rounded toward zero. *)
Definition truncQ (q : Q) : Z := Z.quot (Qnum q) (Zpos (Qden q)).

(** The rational is an integer. *)
Definition isIntegral (q : Q) : bool :=
  Z.eqb (Z.rem (Qnum q) (Zpos (Qden q))) 0.

(** Modelled from the spec: [truncateToUInt32] of
    [hermes/Support/Conversions.h], which is outside this file.  Its
    destination is a [uint32_t]; it is the ECMAScript ToUint32 conversion:
    NaN and the infinities give 0, a finite number is truncated toward
    zero and reduced modulo 2^32. *)
Definition truncateToUInt32 (d : JSNumber) : Z :=
  match d with
  | Fin q => truncQ q mod 2 ^ 32
  | _ => 0
  end.

(** Modelled from the spec: [HermesValue::getNumberAs<uint32_t>].  The
    header asserts that the number is representable in the destination
    type; [None] is the failed assertion. *)
Definition getNumberAs_uint32 (d : JSNumber) : option Z :=
  match d with
  | Fin q =>
      if isIntegral q && (0 <=? truncQ q) && (truncQ q <? 2 ^ 32)
      then Some (truncQ q) else None
  | _ => None
  end.

(** The rational [a / d] multiplied by [2 ^ k], as a fraction. *)
Definition scale2 (a d k : Z) : Z * Z :=
  if 0 <=? k then (a * 2 ^ k, d) else (a, d * 2 ^ (- k)).

(** The rounding of the arithmetic of the C++ [double], IEEE-754
    binary64: the double nearest to a rational, a tie going to the even
    significand; a magnitude that rounds to 2^1024 or more is an
    infinity.  [e] is the binary exponent of the rational, [2 ^ u] the
    distance between the doubles around it, which the subnormal numbers
    share with the smallest normal ones. *)
Definition roundToDouble (q : Q) : JSNumber :=
  let a := Z.abs (Qnum q) in
  let d := Zpos (Qden q) in
  if a =? 0 then Fin 0
  else
    let e0 := Z.log2 a - Z.log2 d in
    let '(n0, d0) := scale2 a d (- e0) in
    let e := if n0 <? d0 then e0 - 1 else e0 in
    let u := Z.max e (-1022) - 52 in
    let '(n1, d1) := scale2 a d (- u) in
    let m := n1 / d1 in
    let r := n1 mod d1 in
    let m' := if 2 * r <? d1 then m
              else if d1 <? 2 * r then m + 1
              else if Z.even m then m else m + 1 in
    if (971 <? u) || ((u =? 971) && (m' =? 2 ^ 53)) then Inf (Qnum q <? 0)
    else
      let '(n2, d2) := scale2 m' 1 u in
      Fin (Qred (Qmake (Z.sgn (Qnum q) * n2) (Z.to_pos d2))).

(** [d + 1] as in [nextIndex->getNumber() + 1]: the sum, rounded as the
    addition of two doubles is.  Not-a-number and the infinities stay as
    they are. *)
Definition addOne (d : JSNumber) : JSNumber :=
  match d with
  | Fin q => roundToDouble (q + 1)
  | other => other
  end.

(** Modelled from the spec: the predefined strings this file refers to
    through [Predefined::getSymbolID]; their spelling plays no role. *)
Module Predefined.
Inductive Str := length | raw | value | done | defaultExport.

#[global] Instance Str_eq_dec : EqDecision Str.
Proof. solve_decision. Defined.
End Predefined.

(** Modelled from the spec: a [SymbolID] names a property: a predefined
    string, any other identifier, an internal property of the VM, or a
    JavaScript Symbol. *)
Inductive SymbolID :=
| Predef (p : Predefined.Str)
| Ident (s : string)
| InternalName (n : nat)
| JSSymbol (n : nat).

#[global] Instance SymbolID_eq_dec : EqDecision SymbolID.
Proof. solve_decision. Defined.

Definition getSymbolID (p : Predefined.Str) : SymbolID := Predef p.

(** A reference to a cell of the garbage-collected heap. *)
Abbreviation ObjRef := nat (only parsing).

(** Modelled from the spec: [HermesValue]: the tagged union of the VM. *)
Inductive HermesValue :=
| HVUndefined
| HVNull
| HVEmpty
| HVBool (b : bool)
| HVNumber (d : JSNumber)
| HVString (s : string)
| HVSymbol (id : SymbolID)
| HVObject (r : ObjRef).

Definition encodeUndefinedValue : HermesValue := HVUndefined.
Definition encodeNumberValue (z : Z) : HermesValue := HVNumber (ofZ z).
Definition encodeObjectValue (r : ObjRef) : HermesValue := HVObject r.

Definition isNumber (v : HermesValue) : bool :=
  match v with HVNumber _ => true | _ => false end.
Definition isBool (v : HermesValue) : bool :=
  match v with HVBool _ => true | _ => false end.
Definition isNull (v : HermesValue) : bool :=
  match v with HVNull => true | _ => false end.
Definition isUndefined (v : HermesValue) : bool :=
  match v with HVUndefined => true | _ => false end.
Definition isObject (v : HermesValue) : bool :=
  match v with HVObject _ => true | _ => false end.

(** ** Properties *)

Record PropertyFlags := mkPF {
  enumerable : bool;
  writable : bool;
  configurable : bool;
  accessor : bool
}.

(** Modelled from the spec: [DefinePropertyFlags], the flags argument of
    the define operations.  The [set*] bits say
    which attributes the caller specifies.  [setGetter] and [setSetter]
    are never set by this file and are left out. *)
Record DefinePropertyFlags := mkDPF {
  setEnumerable : bool;
  dEnumerable : bool;
  setWritable : bool;
  dWritable : bool;
  setConfigurable : bool;
  dConfigurable : bool;
  setValue : bool
}.

(** Modelled from the spec: [DefinePropertyFlags::getDefaultNewPropertyFlags]:
    the default new-property flags, writable, enumerable and configurable
    all true, with a value. *)
Definition getDefaultNewPropertyFlags : DefinePropertyFlags :=
  mkDPF true true true true true true true.

(** The flags a property of an array's indexed storage or a property
    created by plain assignment has. *)
Definition defaultPropertyFlags : PropertyFlags := mkPF true true true false.

(** Modelled from the spec: one entry of an object's hidden class together
    with the contents of its slot.  For an accessor the slot refers to a
    [PropertyAccessor] cell. *)
Record NamedProp := mkNamed {
  propId : SymbolID;
  propFlags : PropertyFlags;
  propValue : HermesValue
}.

Record IndexedProp := mkIndexed {
  idxFlags : PropertyFlags;
  idxValue : HermesValue
}.

(** Modelled from the spec: [NamedPropertyDescriptor]: flags and slot
    number. *)
Record NamedPropertyDescriptor := mkNPD {
  npdFlags : PropertyFlags;
  npdSlot : nat
}.

Record ComputedPropertyDescriptor := mkCPD {
  cpdFlags : PropertyFlags
}.

(** ** Script code *)

(** The interpreter is outside this layer.  A function written in script
    is represented by what a call to it does: it returns a value or throws
    one, depending on [this], the arguments and [new.target]. *)
Inductive Outcome :=
| Returns (v : HermesValue)
| Throws (v : HermesValue).

Definition Behaviour := HermesValue -> list HermesValue -> HermesValue -> Outcome.

(** One step of a script iterator: [next()] yields a value or throws.
    After the last step the iterator is done. *)
Inductive IterStep :=
| StepValue (v : HermesValue)
| StepThrow (e : HermesValue).

(** ** Heap cells *)

Inductive CellKind :=
| ObjectKind
| ArrayKind
| FunctionKind (body : Behaviour)
| GeneratorInnerFunctionKind (body : Behaviour) (isDelegated : bool)
| PropertyAccessorKind (getter : option ObjRef)
| IterableKind (steps : list IterStep)
| IteratorKind (steps : list IterStep).

(** Modelled from the spec: a heap cell.  [named] lists the named
    properties in definition order, the position of an entry being its
    slot; [indexed] is the indexed storage, position [i] holding the
    property with key [i] or a hole. *)
Record JSObject := mkObj {
  kind : CellKind;
  noExtend : bool;
  named : list NamedProp;
  indexed : list (option IndexedProp)
}.

Definition isJSObject (k : CellKind) : bool :=
  match k with PropertyAccessorKind _ => false | _ => true end.
Definition isCallable (k : CellKind) : bool :=
  match k with
  | FunctionKind _ | GeneratorInnerFunctionKind _ _ => true
  | _ => false
  end.
Definition isJSArray (k : CellKind) : bool :=
  match k with ArrayKind => true | _ => false end.
Definition isGeneratorInnerFunction (k : CellKind) : bool :=
  match k with GeneratorInnerFunctionKind _ _ => true | _ => false end.

(** ** The runtime *)

Record CodeBlock := mkCodeBlock { getRuntimeModule : nat }.

(** Modelled from the spec: a call frame.  [savedCodeBlock] is the code
    block of the caller, absent when the caller is native code. *)
Record StackFrame := mkFrame {
  calleeClosure : option ObjRef;
  thisArg : HermesValue;
  newTarget : HermesValue;
  frameArgs : list HermesValue;
  savedCodeBlock : option CodeBlock
}.

(** Modelled from the spec: a loaded module, with its template object
    cache keyed by call-site id (section 3). *)
Record RuntimeModule := mkModule { templateMap : gmap Z ObjRef }.

(** Modelled from the spec: what [runtime->raise...] installs as the
    current exception (section 4.2). *)
Inductive Thrown :=
| TypeError (msg : string)
| TypeErrorForValue (v : HermesValue) (msg : string)
| ThrownValue (v : HermesValue).

Record Runtime := mkRuntime {
  heap : list JSObject;
  stackFrames : list StackFrame;
  modules : list RuntimeModule;
  thrownValue : option Thrown
}.

(** Modelled from the spec: [CallResult<T>]: a value, or the marker that
    an exception is pending. *)
Inductive CallResult (A : Type) :=
| Returned (a : A)
| EXCEPTION.
Arguments Returned {A} a.
Arguments EXCEPTION {A}.

(** A computation over the runtime.  [None] is a failed C++ assertion, a
    dereference the code does not guard, or a step that leaves the part of
    the object model represented here. *)
Definition M (A : Type) : Type := Runtime -> option (A * Runtime).

Definition ret {A} (a : A) : M A := fun rt => Some (a, rt).
Definition bind {A B} (m : M A) (k : A -> M B) : M B :=
  fun rt => match m rt with
            | Some (a, rt') => k a rt'
            | None => None
            end.
Definition stuck {A} : M A := fun _ => None.
Definition getRuntime : M Runtime := fun rt => Some (rt, rt).
Definition liftOpt {A} (o : option A) : M A :=
  match o with Some a => ret a | None => stuck end.

Notation "'let*' x ':=' m 'in' k" := (bind m (fun x => k))
  (at level 10, x pattern, m at level 100, k at level 200).
Notation "m ';;' k" := (bind m (fun _ => k))
  (at level 100, k at level 200, right associativity).

(** ** Runtime primitives *)

Definition setHeap (h : list JSObject) (rt : Runtime) : Runtime :=
  mkRuntime h (stackFrames rt) (modules rt) (thrownValue rt).
Definition setStackFrames (fs : list StackFrame) (rt : Runtime) : Runtime :=
  mkRuntime (heap rt) fs (modules rt) (thrownValue rt).
Definition setModules (ms : list RuntimeModule) (rt : Runtime) : Runtime :=
  mkRuntime (heap rt) (stackFrames rt) ms (thrownValue rt).
Definition setThrownValue (t : option Thrown) (rt : Runtime) : Runtime :=
  mkRuntime (heap rt) (stackFrames rt) (modules rt) t.

Definition getCell (r : ObjRef) : M JSObject :=
  fun rt => match heap rt !! r with
            | Some o => Some (o, rt)
            | None => None
            end.
Definition setCell (r : ObjRef) (o : JSObject) : M unit :=
  fun rt => Some (tt, setHeap (<[r := o]> (heap rt)) rt).
(** Modelled from the spec: allocation of a cell.  It never fails and
    never reuses a reference: the new cell is
    placed after every existing one. *)
Definition allocCell (o : JSObject) : M ObjRef :=
  fun rt => Some (length (heap rt), setHeap (heap rt ++ [o]) rt).

Definition raise {A} (t : Thrown) : M (CallResult A) :=
  fun rt => Some (EXCEPTION, setThrownValue (Some t) rt).
Definition raiseTypeError {A} (msg : string) : M (CallResult A) :=
  raise (TypeError msg).
Definition raiseTypeErrorForValue {A} (v : HermesValue) (msg : string)
  : M (CallResult A) :=
  raise (TypeErrorForValue v msg).

(** ** NativeArgs *)

Abbreviation NativeArgs := (list HermesValue) (only parsing).

Definition getArgCount (args : NativeArgs) : Z := Z.of_nat (length args).
(** Modelled from the spec: [getArg] past the end is [undefined]. *)
Definition getArg (args : NativeArgs) (i : Z) : HermesValue :=
  if i <? 0 then HVUndefined else default HVUndefined (args !! Z.to_nat i).

Definition cellKindOf (rt : Runtime) (v : HermesValue) : option CellKind :=
  match v with
  | HVObject r => kind <$> heap rt !! r
  | _ => None
  end.

(** Modelled from the spec: [args.dyncastArg<T>(i)]: the reference when
    the argument is a cell of the requested kind, a null handle otherwise. *)
Definition dyncastArg (test : CellKind -> bool) (args : NativeArgs) (i : Z)
  : M (option ObjRef) :=
  fun rt => match getArg args i with
            | HVObject r =>
                match heap rt !! r with
                | Some o => Some (if test (kind o) then Some r else None, rt)
                | None => None
                end
            | _ => Some (None, rt)
            end.

(** ** Object model

    Modelled from the spec: the object-model operations of section 6
    ([createArray], [defineOwnProperty], [getOwnPropertyDescriptor],
    [forEachOwnPropertyInOrder], [preventExtensions]), whose C++ is in
    [JSObject.cpp], [JSArray.cpp] and [HiddenClass.cpp].  Defining a
    property follows ECMAScript's ValidateAndApplyPropertyDescriptor. *)
Module ObjectModel.

(** ECMAScript SameValue, without the distinction of the two zeros. *)
Definition sameValue (a b : HermesValue) : bool :=
  match a, b with
  | HVUndefined, HVUndefined | HVNull, HVNull | HVEmpty, HVEmpty => true
  | HVBool x, HVBool y => Bool.eqb x y
  | HVNumber NaN, HVNumber NaN => true
  | HVNumber (Inf x), HVNumber (Inf y) => Bool.eqb x y
  | HVNumber (Fin x), HVNumber (Fin y) => Qeq_bool x y
  | HVString x, HVString y => bool_decide (x = y)
  | HVSymbol x, HVSymbol y => bool_decide (x = y)
  | HVObject x, HVObject y => bool_decide (x = y)
  | _, _ => false
  end.

(** The array index a computed property key denotes, if it denotes one:
    an integer from 0 to 2^32 - 2. *)
Definition toArrayIndex (name : HermesValue) : option nat :=
  match name with
  | HVNumber (Fin q) =>
      if isIntegral q && (0 <=? truncQ q) && (truncQ q <? 2 ^ 32 - 1)
      then Some (Z.to_nat (truncQ q)) else None
  | _ => None
  end.

Definition findNamed (id : SymbolID) (o : JSObject)
  : option (nat * NamedProp) :=
  list_find (fun p => propId p = id) (named o).

Definition lookupIndexed (o : JSObject) (i : nat) : option IndexedProp :=
  mjoin (indexed o !! i).

(** May a property with flags [cur] and value [curV] be redefined as
    [dpf] and [v] ask?  Only a non-configurable property refuses. *)
Definition validateUpdate (cur : PropertyFlags) (curV : HermesValue)
    (dpf : DefinePropertyFlags) (v : HermesValue) : bool :=
  if configurable cur then true
  else
    negb (setConfigurable dpf && dConfigurable dpf)
    && negb (setEnumerable dpf && negb (Bool.eqb (dEnumerable dpf) (enumerable cur)))
    && (if accessor cur then negb (setValue dpf || setWritable dpf)
        else if writable cur then true
        else negb (setWritable dpf && dWritable dpf)
             && negb (setValue dpf && negb (sameValue v curV))).

(** The flags after an accepted redefinition.  Turning an accessor into
    a data property gives the attributes that [dpf] leaves out their
    default, false. *)
Definition applyFlags (cur : PropertyFlags) (dpf : DefinePropertyFlags)
  : PropertyFlags :=
  let toData := accessor cur && (setValue dpf || setWritable dpf) in
  {| enumerable := if setEnumerable dpf then dEnumerable dpf else enumerable cur;
     writable := if setWritable dpf then dWritable dpf
                 else if toData then false else writable cur;
     configurable := if setConfigurable dpf then dConfigurable dpf
                     else configurable cur;
     accessor := if toData then false else accessor cur |}.

Definition applyValue (cur : PropertyFlags) (curV : HermesValue)
    (dpf : DefinePropertyFlags) (v : HermesValue) : HermesValue :=
  if setValue dpf then v
  else if accessor cur && setWritable dpf then HVUndefined else curV.

(** The flags of a property that did not exist. *)
Definition newFlags (dpf : DefinePropertyFlags) : PropertyFlags :=
  {| enumerable := setEnumerable dpf && dEnumerable dpf;
     writable := setWritable dpf && dWritable dpf;
     configurable := setConfigurable dpf && dConfigurable dpf;
     accessor := false |}.
Definition newValue (dpf : DefinePropertyFlags) (v : HermesValue)
  : HermesValue :=
  if setValue dpf then v else HVUndefined.

Definition withNamed (o : JSObject) (l : list NamedProp) : JSObject :=
  mkObj (kind o) (noExtend o) l (indexed o).
Definition withIndexed (o : JSObject) (l : list (option IndexedProp))
  : JSObject :=
  mkObj (kind o) (noExtend o) (named o) l.
Definition withNoExtend (o : JSObject) : JSObject :=
  mkObj (kind o) true (named o) (indexed o).
Definition withKind (o : JSObject) (k : CellKind) : JSObject :=
  mkObj k (noExtend o) (named o) (indexed o).

(** A rejected definition: an exception when the caller passed
    [PropOpFlags().plusThrowOnError()], [false] otherwise. *)
Definition reject (throwOnError : bool) : M (CallResult bool) :=
  if throwOnError then raiseTypeError "Cannot define property"
  else ret (Returned false).

(** The object after the definition of the named property [id], or
    [None] when the definition is refused: the existing property does
    not allow the change, or the property is new and the object is not
    extensible. *)
Definition defineNamedIn (o : JSObject) (id : SymbolID)
    (dpf : DefinePropertyFlags) (v : HermesValue) : option JSObject :=
  match findNamed id o with
  | Some (slot, p) =>
      if validateUpdate (propFlags p) (propValue p) dpf v then
        Some (withNamed o
                (<[slot := mkNamed id (applyFlags (propFlags p) dpf)
                             (applyValue (propFlags p) (propValue p) dpf v)]>
                   (named o)))
      else None
  | None =>
      if noExtend o then None
      else Some (withNamed o
                   (named o ++ [mkNamed id (newFlags dpf) (newValue dpf v)]))
  end.

(** Modelled from the spec: [JSObject::defineOwnProperty] for a named key.
    Giving an array's [length] a value would resize the array and is not
    represented. *)
Definition defineOwnProperty (r : ObjRef) (id : SymbolID)
    (dpf : DefinePropertyFlags) (v : HermesValue) (throwOnError : bool)
  : M (CallResult bool) :=
  let* o := getCell r in
  if isJSArray (kind o) && bool_decide (id = getSymbolID Predefined.length)
     && setValue dpf
  then stuck
  else
    match defineNamedIn o id dpf v with
    | Some o' => setCell r o';; ret (Returned true)
    | None => reject throwOnError
    end.

(** Modelled from the spec: [JSObject::defineNewOwnProperty]: the property
    must not exist. *)
Definition defineNewOwnProperty (r : ObjRef) (id : SymbolID)
    (pf : PropertyFlags) (v : HermesValue) : M (CallResult unit) :=
  let* o := getCell r in
  match findNamed id o with
  | Some _ => stuck
  | None =>
      setCell r (withNamed o (named o ++ [mkNamed id pf v]));;
      ret (Returned tt)
  end.

Definition preventExtensions (r : ObjRef) : M unit :=
  let* o := getCell r in
  setCell r (withNoExtend o).

(** *** Arrays *)

(** The slot of an array's [length] property. *)
Definition lengthPropIndex : nat := 0%nat.

Definition lengthFlags : PropertyFlags := mkPF false true false false.

(** Modelled from the spec: [JSArray::create (runtime, capacity, length)]:
    a new array with the given [length] and empty storage. *)
Definition JSArray_create (capacity len : Z) : M (CallResult ObjRef) :=
  let* r := allocCell
    (mkObj ArrayKind false
       [mkNamed (getSymbolID Predefined.length) lengthFlags
          (encodeNumberValue len)] []) in
  ret (Returned r).

Definition lengthOf (o : JSObject) : option Z :=
  match named o !! lengthPropIndex with
  | Some (mkNamed _ _ (HVNumber d)) => getNumberAs_uint32 d
  | _ => None
  end.

(** Modelled from the spec: [JSArray::getLength]: reads the length slot
    directly. *)
Definition JSArray_getLength (r : ObjRef) : M Z :=
  let* o := getCell r in
  liftOpt (lengthOf o).

Definition putLength (o : JSObject) (len : Z) : JSObject :=
  match named o !! lengthPropIndex with
  | Some p =>
      withNamed o
        (<[lengthPropIndex := mkNamed (propId p) (propFlags p)
                               (encodeNumberValue len)]> (named o))
  | None => o
  end.

(** Modelled from the spec: [JSArray::setStorageEndIndex]: the storage
    holds exactly [n] elements, new ones being holes. *)
Definition JSArray_setStorageEndIndex (r : ObjRef) (n : Z) : M unit :=
  let* o := getCell r in
  setCell r (withIndexed o
    (take (Z.to_nat n) (indexed o ++ replicate (Z.to_nat n) None))).

(** Modelled from the spec: [unsafeSetExistingElementAt]: the element must
    be inside the storage. *)
Definition unsafeSetExistingElementAt (r : ObjRef) (i : Z) (v : HermesValue)
  : M unit :=
  let* o := getCell r in
  if (0 <=? i) && (i <? Z.of_nat (length (indexed o))) then
    setCell r (withIndexed o
      (<[Z.to_nat i := Some (mkIndexed defaultPropertyFlags v)]> (indexed o)))
  else stuck.

(** Modelled from the spec: [JSArray::at]: the element, or the empty value
    for a hole. *)
Definition JSArray_at (r : ObjRef) (i : Z) : M HermesValue :=
  let* o := getCell r in
  ret (match lookupIndexed o (Z.to_nat i) with
       | Some p => idxValue p
       | None => HVEmpty
       end).

(** Store [p] at index [i], growing the storage with holes. *)
Definition storeIndexed (l : list (option IndexedProp)) (i : nat)
    (p : IndexedProp) : list (option IndexedProp) :=
  if decide (i < length l)%nat then <[i := Some p]> l
  else l ++ replicate (i - length l) None ++ [Some p].

(** Add a property with index [i] that does not exist yet.  On an array
    an index at or beyond [length] moves [length], which must be
    writable. *)
Definition addIndexed (o : JSObject) (i : nat) (p : IndexedProp)
  : option JSObject :=
  if noExtend o then None
  else if isJSArray (kind o) then
    match named o !! lengthPropIndex, lengthOf o with
    | Some lp, Some len =>
        if len <=? Z.of_nat i then
          if writable (propFlags lp)
          then Some (withIndexed (putLength o (Z.of_nat i + 1))
                       (storeIndexed (indexed o) i p))
          else None
        else Some (withIndexed o (storeIndexed (indexed o) i p))
    | _, _ => None
    end
  else Some (withIndexed o (storeIndexed (indexed o) i p)).

(** The object after the definition of the property with index [i], or
    [None] when the definition is refused. *)
Definition defineIndexedIn (o : JSObject) (i : nat)
    (dpf : DefinePropertyFlags) (v : HermesValue) : option JSObject :=
  match lookupIndexed o i with
  | Some p =>
      if validateUpdate (idxFlags p) (idxValue p) dpf v then
        Some (withIndexed o
                (<[i := Some (mkIndexed (applyFlags (idxFlags p) dpf)
                                (applyValue (idxFlags p) (idxValue p) dpf v))]>
                   (indexed o)))
      else None
  | None => addIndexed o i (mkIndexed (newFlags dpf) (newValue dpf v))
  end.

(** Modelled from the spec: [JSObject::defineOwnComputedPrimitive], for a
    key that is an array index.  Other computed keys need the conversion
    of the key to a string, which is not represented. *)
Definition defineOwnComputedPrimitive (r : ObjRef) (name : HermesValue)
    (dpf : DefinePropertyFlags) (v : HermesValue) : M (CallResult bool) :=
  match toArrayIndex name with
  | None => stuck
  | Some i =>
      let* o := getCell r in
      match defineIndexedIn o i dpf v with
      | Some o' => setCell r o';; ret (Returned true)
      | None => ret (Returned false)
      end
  end.

(** Modelled from the spec: [JSObject::getOwnComputedPrimitiveDescriptor]:
    is there an own property with this computed key? *)
Definition getOwnComputedPrimitiveDescriptor (r : ObjRef)
    (name : HermesValue) : M (CallResult bool) :=
  match toArrayIndex name with
  | None => stuck
  | Some i =>
      let* o := getCell r in
      ret (Returned (bool_decide (is_Some (lookupIndexed o i))))
  end.

(** Modelled from the spec: [JSObject::hasNamedOrIndexed]: is there an own
    property named [id]? An identifier that spells an array index is kept
    in the indexed storage in this model and is never a [SymbolID]. *)
Definition hasNamedOrIndexed (r : ObjRef) (id : SymbolID)
  : M (CallResult bool) :=
  let* o := getCell r in
  ret (Returned (bool_decide (is_Some (findNamed id o)))).

(** Modelled from the spec: [JSObject::getOwnIndexed]. *)
Definition getOwnIndexed (r : ObjRef) (i : nat) : M HermesValue :=
  let* o := getCell r in
  ret (match lookupIndexed o i with
       | Some p => idxValue p
       | None => HVEmpty
       end).

(** Modelled from the spec: [JSObject::getNamedSlotValue]: the raw
    contents of a slot. *)
Definition getNamedSlotValue (r : ObjRef) (desc : NamedPropertyDescriptor)
  : M HermesValue :=
  let* o := getCell r in
  liftOpt (propValue <$> named o !! npdSlot desc).

Definition isInternal (id : SymbolID) : bool :=
  match id with InternalName _ => true | _ => false end.

End ObjectModel.

Import ObjectModel.

(** ** Stack frames *)

(** Modelled from the spec: [frame.getArgRef(i)]: the slot of argument
    [i], which must exist. *)
Definition getArgRef (fr : StackFrame) (i : Z) : M HermesValue :=
  if i <? 0 then stuck else liftOpt (frameArgs fr !! Z.to_nat i).

(** Modelled from the spec: [dyn_vmcast_or_null<GeneratorInnerFunction>]. *)
Definition dyn_vmcast_or_null_GeneratorInnerFunction (c : option ObjRef)
  : M (option ObjRef) :=
  match c with
  | None => ret None
  | Some r =>
      let* o := getCell r in
      ret (if isGeneratorInnerFunction (kind o) then Some r else None)
  end.

(** Modelled from the spec: [gen->setIsDelegated(b)]. *)
Definition setIsDelegated (r : ObjRef) (b : bool) : M unit :=
  let* o := getCell r in
  match kind o with
  | GeneratorInnerFunctionKind body _ =>
      setCell r (withKind o (GeneratorInnerFunctionKind body b))
  | _ => stuck
  end.

(** ** generatorSetDelegated *)

(** [runtime->getCurrentFrame().getPreviousFrame()] is dereferenced
    without a test: a stack without a caller frame is outside the
    function's precondition. *)
Definition hermesBuiltinGeneratorSetDelegated (args : NativeArgs)
  : M (CallResult HermesValue) :=
  let* rt := getRuntime in
  match stackFrames rt with
  | _ :: previousFrame :: _ =>
      let* gen := dyn_vmcast_or_null_GeneratorInnerFunction
                    (calleeClosure previousFrame) in
      match gen with
      | None =>
          raiseTypeError
            "generatorSetDelegated can only be called as part of yield*"
      | Some g =>
          setIsDelegated g true;;
          ret (Returned encodeUndefinedValue)
      end
  | _ => stuck
  end.

(** ** copyRestArgs *)

(** The body of [for (uint32_t i = 0; i != length; ++i)], [n] iterations
    remaining; [++from] wraps as a [uint32_t] does. *)
Fixpoint copyRestArgs_loop (n : nat) (i from : Z) (array : ObjRef)
    (it : StackFrame) : M unit :=
  match n with
  | O => ret tt
  | S n' =>
      let* v := getArgRef it from in
      unsafeSetExistingElementAt array i v;;
      copyRestArgs_loop n' (i + 1) ((from + 1) mod 2 ^ 32) array it
  end.

Definition hermesBuiltinCopyRestArgs (args : NativeArgs)
  : M (CallResult HermesValue) :=
  let* rt := getRuntime in
  match stackFrames rt with
  | [] => stuck
  | _ :: frames' =>
      match frames' with
      | [] => ret (Returned encodeUndefinedValue)
      | it :: _ =>
          match getArg args 0 with
          | HVNumber d =>
              let from := truncateToUInt32 d in
              let argCount := getArgCount (frameArgs it) in
              let length := if from <=? argCount then argCount - from else 0 in
              let* cr := JSArray_create length length in
              match cr with
              | EXCEPTION => ret EXCEPTION
              | Returned array =>
                  JSArray_setStorageEndIndex array length;;
                  copyRestArgs_loop (Z.to_nat length) 0 from array it;;
                  ret (Returned (encodeObjectValue array))
              end
          | _ => ret (Returned encodeUndefinedValue)
          end
      end
  end.

(** [uint32_t] arithmetic. *)
Definition u32 (z : Z) : Z := z mod 2 ^ 32.

(** Modelled from the spec: [HermesValue::getNumber] and [getBool], which
    assert that the value has the tag they read. *)
Definition getNumber (v : HermesValue) : M JSNumber :=
  match v with HVNumber d => ret d | _ => stuck end.
Definition getBool (v : HermesValue) : M bool :=
  match v with HVBool b => ret b | _ => stuck end.
Definition assertM (b : bool) : M unit :=
  if b then ret tt else stuck.

(** ** The template object cache *)

(** Modelled from the spec: [RuntimeModule::findCachedTemplateObject] and
    [RuntimeModule::cacheTemplateObject], the per-module map from
    call-site id to template object (sections 3 and 4.3). *)
Definition findCachedTemplateObject (m : nat) (id : Z) : M (option ObjRef) :=
  fun rt => match modules rt !! m with
            | Some md => Some (templateMap md !! id, rt)
            | None => None
            end.

Definition cacheTemplateObject (m : nat) (id : Z) (obj : ObjRef) : M unit :=
  fun rt => match modules rt !! m with
            | Some md =>
                Some (tt, setModules
                            (<[m := mkModule (<[id := obj]> (templateMap md))]>
                               (modules rt)) rt)
            | None => None
            end.

(** ** getTemplateObject *)

(** The flags of the elements: [dpf] of the source. *)
Definition templateElementDPF : DefinePropertyFlags :=
  {| setEnumerable := true; dEnumerable := true;
     setWritable := true; dWritable := false;
     setConfigurable := true; dConfigurable := false;
     setValue := true |}.

(** [readOnlyDPF] of the source. *)
Definition readOnlyDPF : DefinePropertyFlags :=
  {| setEnumerable := false; dEnumerable := false;
     setWritable := true; dWritable := false;
     setConfigurable := true; dConfigurable := false;
     setValue := false |}.

(** [constantPF] of the source. *)
Definition constantPF : PropertyFlags :=
  {| enumerable := false; writable := false; configurable := false;
     accessor := false |}.

Definition isReturnedTrue (r : CallResult bool) : bool :=
  match r with Returned true => true | _ => false end.

(** The body of [for (uint32_t i = 0; i < count; ++i)], [n] iterations
    remaining.  The two [assert]s of the source stop the computation. *)
Fixpoint getTemplateObject_loop (n : nat) (i cookedBegin : Z)
    (args : NativeArgs) (templateObj rawObj : ObjRef) : M unit :=
  match n with
  | O => ret tt
  | S n' =>
      let idx := encodeNumberValue i in
      let cookedValue := getArg args (u32 (cookedBegin + i)) in
      let* putRes := defineOwnComputedPrimitive templateObj idx
                       templateElementDPF cookedValue in
      assertM (isReturnedTrue putRes);;
      let rawValue := getArg args (u32 (2 + i)) in
      let* putRes := defineOwnComputedPrimitive rawObj idx
                       templateElementDPF rawValue in
      assertM (isReturnedTrue putRes);;
      getTemplateObject_loop n' (u32 (i + 1)) cookedBegin args templateObj rawObj
  end.

Definition hermesBuiltinGetTemplateObject (args : NativeArgs)
  : M (CallResult HermesValue) :=
  if getArgCount args <? 3 then
    raiseTypeError "At least three arguments expected"
  else if negb (isNumber (getArg args 0)) then
    raiseTypeError "First argument should be a number"
  else if negb (isBool (getArg args 1)) then
    raiseTypeError "Second argument should be a bool"
  else
    (* Try finding the template object in the template object cache. *)
    let* d := getNumber (getArg args 0) in
    let* templateObjID := liftOpt (getNumberAs_uint32 d) in
    let* rt := getRuntime in
    let* frame := liftOpt (head (stackFrames rt)) in
    match savedCodeBlock frame with
    | None => raiseTypeError "Cannot be called from native code"
    | Some savedCB =>
        let runtimeModule := getRuntimeModule savedCB in
        let* cachedTemplateObj :=
          findCachedTemplateObject runtimeModule templateObjID in
        match cachedTemplateObj with
        | Some cached => ret (Returned (encodeObjectValue cached))
        | None =>
            let* dup := getBool (getArg args 1) in
            if negb dup && (getArgCount args mod 2 =? 1) then
              raiseTypeError
                "There must be the same number of raw and cooked strings."
            else
              let count :=
                u32 (if dup then getArgCount args - 2
                     else getArgCount args / 2 - 1) in
              (* Create template object and raw object. *)
              let* arrRes := JSArray_create count 0 in
              match arrRes with
              | EXCEPTION => ret EXCEPTION
              | Returned rawObj =>
              let* arrRes2 := JSArray_create count 0 in
              match arrRes2 with
              | EXCEPTION => ret EXCEPTION
              | Returned templateObj =>
              let cookedBegin := u32 (if dup then 2 else 2 + count) in
              getTemplateObject_loop (Z.to_nat count) 0 cookedBegin args
                templateObj rawObj;;
              (* Make 'length' property on the raw object read-only. *)
              let* readOnlyRes :=
                defineOwnProperty rawObj (getSymbolID Predefined.length)
                  readOnlyDPF HVUndefined true in
              match readOnlyRes with
              | EXCEPTION => ret EXCEPTION
              | Returned false =>
                  raiseTypeError
                    "Failed to set 'length' property on the raw object read-only."
              | Returned true =>
              preventExtensions rawObj;;
              (* Set raw object as a read-only non-enumerable property of
                 the template object. *)
              let* putNewRes :=
                defineNewOwnProperty templateObj (getSymbolID Predefined.raw)
                  constantPF (HVObject rawObj) in
              match putNewRes with
              | EXCEPTION => ret EXCEPTION
              | Returned _ =>
              (* Make 'length' property on the template object read-only. *)
              let* readOnlyRes :=
                defineOwnProperty templateObj (getSymbolID Predefined.length)
                  readOnlyDPF HVUndefined true in
              match readOnlyRes with
              | EXCEPTION => ret EXCEPTION
              | Returned false =>
                  raiseTypeError
                    "Failed to set 'length' property on the raw object read-only."
              | Returned true =>
              preventExtensions templateObj;;
              (* Cache the template object. *)
              cacheTemplateObject runtimeModule templateObjID templateObj;;
              ret (Returned (HVObject templateObj))
              end end end end end
        end
    end.

(** ** Enumeration of properties *)

(** Visit the entries of a hidden class in definition order, the entry at
    position [slot + k] being the [k]-th of [cls], until the callback
    answers [false]. *)
Fixpoint forEachEntryWhile (visit : SymbolID -> bool) (slot : nat)
    (cls : list NamedProp)
    (cb : SymbolID -> NamedPropertyDescriptor -> M bool) : M bool :=
  match cls with
  | [] => ret true
  | p :: rest =>
      let* continue :=
        (if visit (propId p) then cb (propId p) (mkNPD (propFlags p) slot)
         else ret true) in
      if continue then forEachEntryWhile visit (S slot) rest cb
      else ret false
  end.

Definition isJSSymbol (id : SymbolID) : bool :=
  match id with JSSymbol _ => true | _ => false end.

(** Modelled from the spec: [source->getClass(runtime)]: the hidden class
    as it is now. *)
Definition getClass (r : ObjRef) : M (list NamedProp) :=
  let* o := getCell r in ret (named o).

(** Modelled from the spec: [HiddenClass::forEachPropertyWhile] as
    [exportAll] uses it (section 4.8 and the comment at the call): the
    named properties in definition order, those keyed by a Symbol
    excluded. *)
Definition HiddenClass_forEachPropertyWhile (cls : list NamedProp)
    (cb : SymbolID -> NamedPropertyDescriptor -> M bool) : M bool :=
  forEachEntryWhile (fun id => negb (isJSSymbol id)) 0 cls cb.

(** The indexed pass: indices [i], [i+1], ... in ascending order, [n] of
    them; a hole is passed over. *)
Fixpoint forEachIndexedWhile (n : nat) (i : nat) (r : ObjRef)
    (cb : nat -> ComputedPropertyDescriptor -> M bool) : M bool :=
  match n with
  | O => ret true
  | S n' =>
      let* o := getCell r in
      let* continue :=
        match lookupIndexed o i with
        | Some p => cb i (mkCPD (idxFlags p))
        | None => ret true
        end in
      if continue then forEachIndexedWhile n' (S i) r cb else ret false
  end.

(** Modelled from the spec: [JSObject::forEachOwnPropertyWhile]
    (section 4.4, [forEachOwnPropertyInOrder] of section 6): the indexed
    properties in ascending order, then the named properties and symbols
    in definition order; [false] when a callback asked to stop. *)
Definition JSObject_forEachOwnPropertyWhile (r : ObjRef)
    (indexedCB : nat -> ComputedPropertyDescriptor -> M bool)
    (namedCB : SymbolID -> NamedPropertyDescriptor -> M bool) : M bool :=
  let* o := getCell r in
  let* continue := forEachIndexedWhile (length (indexed o)) 0 r indexedCB in
  if continue then
    let* cls := getClass r in
    forEachEntryWhile (fun _ => true) 0 cls namedCB
  else ret false.

(** ** Calls into script *)

Definition pushFrame (fr : StackFrame) : M unit :=
  fun rt => Some (tt, setStackFrames (fr :: stackFrames rt) rt).
Definition popFrame : M unit :=
  fun rt => match stackFrames rt with
            | _ :: rest => Some (tt, setStackFrames rest rt)
            | [] => None
            end.

(** Modelled from the spec: [Callable::call (fn, runtime)]: run [fn] in
    the frame on top of the stack. *)
Definition Callable_call (fn : ObjRef) : M (CallResult HermesValue) :=
  let* rt := getRuntime in
  let* frame := liftOpt (head (stackFrames rt)) in
  let* o := getCell fn in
  match kind o with
  | FunctionKind body | GeneratorInnerFunctionKind body _ =>
      match body (thisArg frame) (frameArgs frame) (newTarget frame) with
      | Returns v => ret (Returned v)
      | Throws e => raise (ThrownValue e)
      end
  | _ => stuck
  end.

(** Modelled from the spec: [Callable::construct]: a call whose result is
    the returned object, or [thisVal] when the function returned no
    object. *)
Definition Callable_construct (fn : ObjRef) (thisVal : HermesValue)
  : M (CallResult HermesValue) :=
  let* result := Callable_call fn in
  match result with
  | EXCEPTION => ret EXCEPTION
  | Returned v => ret (Returned (if isObject v then v else thisVal))
  end.

(** Modelled from the spec: [Callable::createThisForConstruct]: a fresh
    object to be [this] of the construct call. *)
Definition createThisForConstruct (fn : ObjRef) : M (CallResult HermesValue) :=
  let* r := allocCell (mkObj ObjectKind false [] []) in
  ret (Returned (HVObject r)).

(** Modelled from the spec: [ScopedNativeCallFrame newFrame{runtime,
    argCount, callee, construct, thisArg}]: the frame exists while [body]
    runs and is popped on every exit. *)
Definition ScopedNativeCallFrame {A} (argCount : Z) (callee : ObjRef)
    (construct : bool) (thisArg : HermesValue) (body : M A) : M A :=
  pushFrame
    {| calleeClosure := Some callee;
       thisArg := thisArg;
       newTarget := if construct then HVObject callee else HVUndefined;
       frameArgs := replicate (Z.to_nat argCount) HVUndefined;
       savedCodeBlock := None |};;
  let* a := body in
  popFrame;;
  ret a.

(** Modelled from the spec: [newFrame->getArgRef(i) = v]. *)
Definition setArgRef (i : Z) (v : HermesValue) : M unit :=
  fun rt => match stackFrames rt with
            | fr :: rest =>
                if (0 <=? i) && (i <? Z.of_nat (length (frameArgs fr))) then
                  Some (tt, setStackFrames
                    (mkFrame (calleeClosure fr) (thisArg fr) (newTarget fr)
                       (<[Z.to_nat i := v]> (frameArgs fr))
                       (savedCodeBlock fr) :: rest) rt)
                else None
            | [] => None
            end.

(** A getter is called with no arguments and [this] the receiver. *)
Definition executeCall0 (fn : ObjRef) (this : HermesValue)
  : M (CallResult HermesValue) :=
  ScopedNativeCallFrame 0 fn false this (Callable_call fn).

(** Modelled from the spec: [JSObject::getNamedPropertyValue_RJS]: the
    value of a data property, the result of the getter of an accessor. *)
Definition getNamedPropertyValue_RJS (r : ObjRef) (receiver : HermesValue)
    (desc : NamedPropertyDescriptor) : M (CallResult HermesValue) :=
  let* slotValue := getNamedSlotValue r desc in
  if accessor (npdFlags desc) then
    match slotValue with
    | HVObject a =>
        let* acc := getCell a in
        match kind acc with
        | PropertyAccessorKind (Some g) => executeCall0 g receiver
        | PropertyAccessorKind None => ret (Returned HVUndefined)
        | _ => stuck
        end
    | _ => stuck
    end
  else ret (Returned slotValue).

(** Modelled from the spec: [JSObject::getNamed_RJS]: an own property by
    name; the prototype chain is not represented and an absent property
    reads [undefined]. *)
Definition getNamed_RJS (r : ObjRef) (id : SymbolID)
  : M (CallResult HermesValue) :=
  let* o := getCell r in
  match findNamed id o with
  | Some (slot, p) =>
      getNamedPropertyValue_RJS r (HVObject r) (mkNPD (propFlags p) slot)
  | None => ret (Returned HVUndefined)
  end.

(** Modelled from the spec: [toObject] for a primitive that is neither
    [null] nor [undefined]: a wrapper object.  The wrapper of a string has
    its characters as read-only indexed properties; the other wrappers
    have no own enumerable property. *)
Fixpoint stringChars (s : string) : list (option IndexedProp) :=
  match s with
  | EmptyString => []
  | String c rest =>
      Some (mkIndexed (mkPF true false false false)
              (HVString (String c EmptyString))) :: stringChars rest
  end.

Definition toObject (v : HermesValue) : M (CallResult ObjRef) :=
  match v with
  | HVObject r => ret (Returned r)
  | HVString s =>
      let* r := allocCell (mkObj ObjectKind false
                  [mkNamed (getSymbolID Predefined.length) constantPF
                     (encodeNumberValue (Z.of_nat (String.length s)))]
                  (stringChars s)) in
      ret (Returned r)
  | HVBool _ | HVNumber _ | HVSymbol _ =>
      let* r := allocCell (mkObj ObjectKind false [] []) in
      ret (Returned r)
  | HVUndefined | HVNull => raiseTypeError "Cannot convert to object"
  | HVEmpty => stuck
  end.

(** Modelled from the spec: [Handle<JSObject>::vmcast]: the cell must be a
    [JSObject]. *)
Definition vmcast_JSObject (v : HermesValue) : M ObjRef :=
  match v with
  | HVObject r =>
      let* o := getCell r in
      if isJSObject (kind o) then ret r else stuck
  | _ => stuck
  end.

(** ** copyDataProperties *)

Definition copyDataProperties_indexedCB (source target : ObjRef)
    (excludedItems : option ObjRef)
    (index : nat) (desc : ComputedPropertyDescriptor) : M bool :=
  if negb (enumerable (cpdFlags desc)) then ret true
  else
    let nameHandle := encodeNumberValue (Z.of_nat index) in
    let* excluded :=
      match excludedItems with
      | Some x => getOwnComputedPrimitiveDescriptor x nameHandle
      | None => ret (Returned false)
      end in
    match excluded with
    | EXCEPTION => ret false
    | Returned true => ret true
    | Returned false =>
        let* valueHandle := getOwnIndexed source index in
        let* res := defineOwnComputedPrimitive target nameHandle
                      getDefaultNewPropertyFlags valueHandle in
        match res with
        | EXCEPTION => ret false
        | Returned _ => ret true
        end
    end.

Definition copyDataProperties_namedCB (source target : ObjRef)
    (excludedItems : option ObjRef)
    (sym : SymbolID) (desc : NamedPropertyDescriptor) : M bool :=
  if negb (enumerable (npdFlags desc)) then ret true
  else if isInternal sym then ret true
  else
    (* Skip excluded items. *)
    let* excluded :=
      match excludedItems with
      | Some x =>
          let* cr := hasNamedOrIndexed x sym in
          match cr with
          | EXCEPTION => stuck
          | Returned b => ret b
          end
      | None => ret false
      end in
    if excluded then ret true
    else
      let* cr := getNamedPropertyValue_RJS source (HVObject source) desc in
      match cr with
      | EXCEPTION => ret false
      | Returned valueHandle =>
          let* res := defineOwnProperty target sym
                        getDefaultNewPropertyFlags valueHandle false in
          match res with
          | EXCEPTION => ret false
          | Returned _ => ret true
          end
      end.

Definition hermesBuiltinCopyDataProperties (args : NativeArgs)
  : M (CallResult HermesValue) :=
  let* target := dyncastArg isJSObject args 0 in
  match target with
  | None => ret (Returned encodeUndefinedValue)   (* ignore non-objects *)
  | Some target =>
      let untypedSource := getArg args 1 in
      if isNull untypedSource || isUndefined untypedSource then
        ret (Returned (HVObject target))
      else
        let* source :=
          (if isObject untypedSource then vmcast_JSObject untypedSource
           else
             let* o := toObject untypedSource in
             match o with
             | Returned r => ret r
             | EXCEPTION => stuck
             end) in
        let* excludedItems := dyncastArg isJSObject args 2 in
        let* success :=
          JSObject_forEachOwnPropertyWhile source
            (copyDataProperties_indexedCB source target excludedItems)
            (copyDataProperties_namedCB source target excludedItems) in
        if negb success then ret EXCEPTION
        else ret (Returned (HVObject target))
  end.

(** ** arraySpread *)

Record IteratorRecord := mkIteratorRecord { iterator : ObjRef }.

(** Modelled from the spec: [getIterator] (section 6).  An iterable is
    represented by the steps its iterator will take; opening it creates
    the iterator.  Any other value is not iterable. *)
Definition getIterator (v : HermesValue) : M (CallResult IteratorRecord) :=
  match v with
  | HVObject r =>
      let* o := getCell r in
      match kind o with
      | IterableKind steps =>
          let* it := allocCell (mkObj (IteratorKind steps) false [] []) in
          ret (Returned (mkIteratorRecord it))
      | _ => raiseTypeError "iterator method is not callable"
      end
  | _ => raiseTypeError "iterator method is not callable"
  end.

(** Modelled from the spec: [iteratorStep] (section 6): advance the
    iterator by one step.  A step that yields gives a new result object
    with the properties [value] and [done]; an exhausted iterator gives
    the null handle; a step that throws raises. *)
Definition iteratorStep (rec : IteratorRecord)
  : M (CallResult (option ObjRef)) :=
  let* o := getCell (iterator rec) in
  match kind o with
  | IteratorKind [] => ret (Returned None)
  | IteratorKind (StepValue v :: rest) =>
      setCell (iterator rec) (withKind o (IteratorKind rest));;
      let* res := allocCell (mkObj ObjectKind false
                    [mkNamed (getSymbolID Predefined.value)
                       defaultPropertyFlags v;
                     mkNamed (getSymbolID Predefined.done)
                       defaultPropertyFlags (HVBool false)] []) in
      ret (Returned (Some res))
  | IteratorKind (StepThrow e :: rest) =>
      setCell (iterator rec) (withKind o (IteratorKind rest));;
      raise (ThrownValue e)
  | _ => stuck
  end.

Section ArraySpread.

(** [numberToString] of [Conversions.cpp], which gives a number that is
    no array index its property name, is outside this file, and the
    specification does not describe it: it is taken as a parameter. *)
Variable numberToString : JSNumber -> string.

(** Modelled from the spec: [JSArray::putComputed_RJS], the generic
    indexed put of section 4.5, for a key that is a number.  A number
    that is an array index names an element: an existing writable element
    is overwritten, a missing one is added with the default flags, the
    [length] of the array following.  Any other number names the property
    called by its string, and the put is that of a named property: an
    existing writable property takes the value, a missing one is added
    with the default flags.  A refused put answers [false] without
    raising.  A setter on the target is not represented, nor is the
    conversion of a key that is no number: the key of [arraySpread] is
    its [nextIndex], which it reads with [getNumber] right after the
    put. *)
Definition putComputed_RJS (r : ObjRef) (name : HermesValue) (v : HermesValue)
  : M (CallResult bool) :=
  match toArrayIndex name with
  | Some i =>
      let* o := getCell r in
      match lookupIndexed o i with
      | Some p =>
          if accessor (idxFlags p) then stuck
          else if writable (idxFlags p) then
            setCell r (withIndexed o
              (<[i := Some (mkIndexed (idxFlags p) v)]> (indexed o)));;
            ret (Returned true)
          else ret (Returned false)
      | None =>
          match addIndexed o i (mkIndexed defaultPropertyFlags v) with
          | Some o' => setCell r o';; ret (Returned true)
          | None => ret (Returned false)
          end
      end
  | None =>
      match name with
      | HVNumber d =>
          let id := Ident (numberToString d) in
          let* o := getCell r in
          match findNamed id o with
          | Some (slot, p) =>
              if accessor (propFlags p) then stuck
              else if writable (propFlags p) then
                setCell r (withNamed o
                  (<[slot := mkNamed id (propFlags p) v]> (named o)));;
                ret (Returned true)
              else ret (Returned false)
          | None =>
              if noExtend o then ret (Returned false)
              else
                setCell r (withNamed o
                  (named o ++ [mkNamed id defaultPropertyFlags v]));;
                ret (Returned true)
          end
      | _ => stuck
      end
  end.

(** The [for (;;)] of the source.  The loop has no bound of its own;
    [fuel] bounds the number of iterations and running out of it gives
    [None].  [nextIndex->getNumber()] asserts that [nextIndex] is a
    number. *)
Fixpoint arraySpread_loop (fuel : nat) (target : ObjRef)
    (iteratorRecord : IteratorRecord) (nextIndex : HermesValue)
  : M (CallResult HermesValue) :=
  match fuel with
  | O => stuck
  | S fuel' =>
      (* a. Let next be ? IteratorStep(iteratorRecord). *)
      let* nextRes := iteratorStep iteratorRecord in
      match nextRes with
      | EXCEPTION => ret EXCEPTION
      | Returned None =>
          (* b. If next is false, return nextIndex. *)
          ret (Returned nextIndex)
      | Returned (Some next) =>
          (* c. Let nextValue be ? IteratorValue(next). *)
          let* nextItemRes := getNamed_RJS next (getSymbolID Predefined.value) in
          match nextItemRes with
          | EXCEPTION => ret EXCEPTION
          | Returned nextValue =>
              (* d. CreateDataProperty(array, nextIndex, nextValue). *)
              let* putRes := putComputed_RJS target nextIndex nextValue in
              match putRes with
              | EXCEPTION => ret EXCEPTION
              | Returned _ =>
                  (* f. Let nextIndex be nextIndex + 1. *)
                  let* n := getNumber nextIndex in
                  arraySpread_loop fuel' target iteratorRecord
                    (HVNumber (addOne n))
              end
          end
      end
  end.

Definition hermesBuiltinArraySpread (fuel : nat) (args : NativeArgs)
  : M (CallResult HermesValue) :=
  let* target := dyncastArg isJSArray args 0 in
  match target with
  | None =>
      raiseTypeError "HermesBuiltin.arraySpread requires an array target"
  | Some target =>
      (* 3. Let iteratorRecord be ? GetIterator(spreadObj). *)
      let* iteratorRecordRes := getIterator (getArg args 1) in
      match iteratorRecordRes with
      | EXCEPTION => ret EXCEPTION
      | Returned iteratorRecord =>
          arraySpread_loop fuel target iteratorRecord (getArg args 2)
      end
  end.

End ArraySpread.

(** ** apply *)

(** The body of [for (uint32_t i = 0; i < len; ++i)], [n] iterations
    remaining. *)
Fixpoint apply_loop (n : nat) (i : Z) (argArray : ObjRef) : M unit :=
  match n with
  | O => ret tt
  | S n' =>
      let* v := JSArray_at argArray i in
      setArgRef i v;;
      apply_loop n' (u32 (i + 1)) argArray
  end.

Definition hermesBuiltinApply (args : NativeArgs)
  : M (CallResult HermesValue) :=
  let* fn := dyncastArg isCallable args 0 in
  match fn with
  | None => raiseTypeErrorForValue (getArg args 0) " is not a function"
  | Some fn =>
      let* argArray := dyncastArg isJSArray args 1 in
      match argArray with
      | None => raiseTypeError "args must be an array"
      | Some argArray =>
          let* len := JSArray_getLength argArray in
          let isConstructor := getArgCount args =? 2 in
          let* thisValRes :=
            (if isConstructor then createThisForConstruct fn
             else ret (Returned (getArg args 2))) in
          match thisValRes with
          | EXCEPTION => ret EXCEPTION
          | Returned thisVal =>
              ScopedNativeCallFrame len fn isConstructor thisVal
                (apply_loop (Z.to_nat len) 0 argArray;;
                 if isConstructor then Callable_construct fn thisVal
                 else Callable_call fn)
          end
      end
  end.

(** ** exportAll *)

Definition exportAllDPF : DefinePropertyFlags :=
  let dpf := getDefaultNewPropertyFlags in
  mkDPF (setEnumerable dpf) (dEnumerable dpf) (setWritable dpf) (dWritable dpf)
        (setConfigurable dpf) false (setValue dpf).

Definition exportAll_CB (source exports : ObjRef)
    (id : SymbolID) (desc : NamedPropertyDescriptor) : M bool :=
  if negb (enumerable (npdFlags desc)) then ret true
  else if bool_decide (id = getSymbolID Predefined.defaultExport) then ret true
  else
    let* propertyHandle := getNamedSlotValue source desc in
    let* defineRes := defineOwnProperty exports id exportAllDPF
                        propertyHandle false in
    match defineRes with
    | EXCEPTION => ret false
    | Returned _ => ret true
    end.

Definition hermesBuiltinExportAll (args : NativeArgs)
  : M (CallResult HermesValue) :=
  let* exports := dyncastArg isJSObject args 0 in
  match exports with
  | None => raiseTypeError "exportAll() exports argument must be object"
  | Some exports =>
      let* source := dyncastArg isJSObject args 1 in
      match source with
      | None => raiseTypeError "exportAll() source argument must be object"
      | Some source =>
          let* cls := getClass source in
          let* result :=
            HiddenClass_forEachPropertyWhile cls (exportAll_CB source exports) in
          if negb result then ret EXCEPTION
          else ret (Returned encodeUndefinedValue)
      end
  end.

(** ** silentSetPrototypeOf *)

Definition clearThrownValue : M unit :=
  fun rt => Some (tt, setThrownValue None rt).

Section SilentSetPrototypeOf.

(** [JSObject::setParent (self, runtime, parent)] is defined in
    [JSObject.cpp], outside this file, and is taken as a parameter: any
    computation on the runtime that answers whether the parent was set or
    raises.  A null [parent] is [None]. *)
Variable JSObject_setParent : ObjRef -> option ObjRef -> M (CallResult bool).

(** The three outcomes of the inspection of the second argument: [null],
    an object, or anything else. *)
Definition silentObjectSetPrototypeOf (args : NativeArgs)
  : M (CallResult HermesValue) :=
  let* obj := dyncastArg isJSObject args 0 in
  match obj with
  | None => ret (Returned encodeUndefinedValue)
  | Some obj =>
      let V := getArg args 1 in
      let* parent :=
        (if isNull V then ret (Some None)
         else if isObject V then
           let* p := vmcast_JSObject V in ret (Some (Some p))
         else ret None) in
      match parent with
      | None => ret (Returned encodeUndefinedValue)
      | Some parent =>
          JSObject_setParent obj parent;;
          (* Ignore exceptions. *)
          clearThrownValue;;
          ret (Returned encodeUndefinedValue)
      end
  end.

End SilentSetPrototypeOf.

(** ** ensureObject and throwTypeError *)

(** Modelled from the spec: [runtime->raiseTypeError (Handle<> message)]:
    a type error that carries the message as it is (section 4.9).  The
    message of a [TypeError] is a string here; the conversion of a message
    that is no string is not represented. *)
Definition raiseTypeError_Handle {A} (message : HermesValue)
  : M (CallResult A) :=
  match message with
  | HVString s => raiseTypeError s
  | _ => stuck
  end.

Definition hermesBuiltinEnsureObject (args : NativeArgs)
  : M (CallResult HermesValue) :=
  if isObject (getArg args 0) then ret (Returned encodeUndefinedValue)
  else raiseTypeError_Handle (getArg args 1).

Definition hermesBuiltinThrowTypeError (args : NativeArgs)
  : M (CallResult HermesValue) :=
  raiseTypeError_Handle (getArg args 0).

(** ** The table of builtins *)

(** Modelled from the spec: the indices of [BuiltinMethod::Enum] that this
    file binds; the enumeration itself is in [BuiltinMethods.def]. *)
Module BuiltinMethod.
Inductive Enum :=
| HermesBuiltin_silentSetPrototypeOf
| HermesBuiltin_getTemplateObject
| HermesBuiltin_ensureObject
| HermesBuiltin_throwTypeError
| HermesBuiltin_generatorSetDelegated
| HermesBuiltin_copyDataProperties
| HermesBuiltin_copyRestArgs
| HermesBuiltin_arraySpread
| HermesBuiltin_apply
| HermesBuiltin_exportAll
| HermesBuiltin_exponentiationOperator
| HermesBuiltin_requireFast.

#[global] Instance Enum_eq_dec : EqDecision Enum.
Proof. solve_decision. Defined.
End BuiltinMethod.

(** Modelled from the spec: the predefined strings that name the
    builtins. *)
Module BuiltinName.
Inductive Str :=
| silentSetPrototypeOf
| getTemplateObject
| ensureObject
| throwTypeError
| generatorSetDelegated
| copyDataProperties
| copyRestArgs
| arraySpread
| apply
| exportAll
| exponentiationOperator
| requireFast.
End BuiltinName.

(** A [NativeFunctionPtr] identifies a native function: the ten of this
    file, and [mathPow] and [requireFast], which are defined elsewhere. *)
Module FunctionPtr.
Inductive NativeFunctionPtr :=
| silentObjectSetPrototypeOf
| hermesBuiltinGetTemplateObject
| hermesBuiltinEnsureObject
| hermesBuiltinThrowTypeError
| hermesBuiltinGeneratorSetDelegated
| hermesBuiltinCopyDataProperties
| hermesBuiltinCopyRestArgs
| hermesBuiltinArraySpread
| hermesBuiltinApply
| hermesBuiltinExportAll
| mathPow
| requireFast.
End FunctionPtr.

(** Modelled from the spec: the function object [NativeFunction::create]
    makes, as the record of the arguments that differ from one builtin to
    the other: the native code, the name and the declared number of
    parameters.  The parent is always the function prototype, the context
    and the prototype property are always null; the cell of the function
    object in the heap is not represented. *)
Record NativeFunction := mkNativeFunction {
  functionPtr : FunctionPtr.NativeFunctionPtr;
  functionName : BuiltinName.Str;
  paramCount : Z
}.

Section CreateHermesBuiltins.

(** The position of a builtin in the table: the value of the enumerator. *)
Variable indexOf : BuiltinMethod.Enum -> nat.

(** [defineInternMethod] of the source.  The table is
    [llvm::MutableArrayRef<NativeFunction *>], a null entry being [None].
    The [assert] that the entry is null stops the computation, and so
    does an index outside the table. *)
Definition defineInternMethod (builtinIndex : BuiltinMethod.Enum)
    (symID : BuiltinName.Str) (func : FunctionPtr.NativeFunctionPtr)
    (count : Z) (builtins : list (option NativeFunction))
  : option (list (option NativeFunction)) :=
  let method := mkNativeFunction func symID count in
  match builtins !! indexOf builtinIndex with
  | Some None => Some (<[indexOf builtinIndex := Some method]> builtins)
  | _ => None
  end.

Definition createHermesBuiltins (builtins : list (option NativeFunction))
  : option (list (option NativeFunction)) :=
  builtins ← defineInternMethod
    BuiltinMethod.HermesBuiltin_silentSetPrototypeOf
    BuiltinName.silentSetPrototypeOf
    FunctionPtr.silentObjectSetPrototypeOf 2 builtins;
  builtins ← defineInternMethod
    BuiltinMethod.HermesBuiltin_getTemplateObject
    BuiltinName.getTemplateObject
    FunctionPtr.hermesBuiltinGetTemplateObject 0 builtins;
  builtins ← defineInternMethod
    BuiltinMethod.HermesBuiltin_ensureObject
    BuiltinName.ensureObject
    FunctionPtr.hermesBuiltinEnsureObject 2 builtins;
  builtins ← defineInternMethod
    BuiltinMethod.HermesBuiltin_throwTypeError
    BuiltinName.throwTypeError
    FunctionPtr.hermesBuiltinThrowTypeError 1 builtins;
  builtins ← defineInternMethod
    BuiltinMethod.HermesBuiltin_generatorSetDelegated
    BuiltinName.generatorSetDelegated
    FunctionPtr.hermesBuiltinGeneratorSetDelegated 1 builtins;
  builtins ← defineInternMethod
    BuiltinMethod.HermesBuiltin_copyDataProperties
    BuiltinName.copyDataProperties
    FunctionPtr.hermesBuiltinCopyDataProperties 3 builtins;
  builtins ← defineInternMethod
    BuiltinMethod.HermesBuiltin_copyRestArgs
    BuiltinName.copyRestArgs
    FunctionPtr.hermesBuiltinCopyRestArgs 1 builtins;
  builtins ← defineInternMethod
    BuiltinMethod.HermesBuiltin_arraySpread
    BuiltinName.arraySpread
    FunctionPtr.hermesBuiltinArraySpread 2 builtins;
  builtins ← defineInternMethod
    BuiltinMethod.HermesBuiltin_apply
    BuiltinName.apply
    FunctionPtr.hermesBuiltinApply 2 builtins;
  builtins ← defineInternMethod
    BuiltinMethod.HermesBuiltin_exportAll
    BuiltinName.exportAll
    FunctionPtr.hermesBuiltinExportAll 0 builtins;
  builtins ← defineInternMethod
    BuiltinMethod.HermesBuiltin_exponentiationOperator
    BuiltinName.exponentiationOperator
    FunctionPtr.mathPow 0 builtins;
  (* Define the 'requireFast' function, which takes a number argument. *)
  defineInternMethod
    BuiltinMethod.HermesBuiltin_requireFast
    BuiltinName.requireFast
    FunctionPtr.requireFast 1 builtins.

End CreateHermesBuiltins.

(** * Statements: auxiliary definitions and example states *)

(** The callee of a frame is a generator activation: a live cell of kind
    [GeneratorInnerFunction]. *)
Definition isGeneratorActivation (rt : Runtime) (c : option ObjRef) : bool :=
  match c with
  | Some r =>
      match heap rt !! r with
      | Some o => isGeneratorInnerFunction (kind o)
      | None => false
      end
  | None => false
  end.

(** The callee register of a frame holds no reference or one to a live
    cell. *)
Definition calleeLive (rt : Runtime) (c : option ObjRef) : Prop :=
  forall r, c = Some r -> is_Some (heap rt !! r).

Definition exampleFrame (callee : option ObjRef) (args : list HermesValue)
  : StackFrame :=
  mkFrame callee HVUndefined HVUndefined args None.

Definition exampleGenerator : JSObject :=
  mkObj (GeneratorInnerFunctionKind (fun _ _ _ => Returns HVUndefined) false)
        false [] [].

Definition exampleFunction : JSObject :=
  mkObj (FunctionKind (fun _ _ _ => Returns HVUndefined)) false [] [].

Definition generatorRuntime (callee : ObjRef) : Runtime :=
  mkRuntime [exampleFunction; exampleGenerator]
    [exampleFrame None []; exampleFrame (Some callee) []] [] None.


(** The array [copyRestArgs] builds: [length] is [len] and the elements
    are [vs], each an ordinary element of the array storage. *)
Definition restElement (v : HermesValue) : option IndexedProp :=
  Some (mkIndexed defaultPropertyFlags v).

Definition restArray (len : Z) (vs : list HermesValue) : JSObject :=
  mkObj ArrayKind false
    [mkNamed (getSymbolID Predefined.length) lengthFlags (encodeNumberValue len)]
    (restElement <$> vs).

(** The length the specification states for the result of [copyRestArgs]
    with first argument [from], taken as the integer it holds. *)
Definition statedRestLength (argCount from : Z) : Z :=
  Z.max (argCount - from) 0.

(** The elements of an array cell, a hole reading as the empty value. *)
Definition elementsOf (o : JSObject) : list HermesValue :=
  (fun slot => match slot with
               | Some p => idxValue p
               | None => HVEmpty
               end) <$> indexed o.

(** A runtime in which a native frame was called from a frame that
    received [callerArgs]. *)
Definition restRuntime (callerArgs : list HermesValue) : Runtime :=
  mkRuntime [] [exampleFrame None []; exampleFrame None callerArgs] [] None.

(** ** Template objects *)

(** The flags of an element of a template object or of its raw array. *)
Definition frozenElementFlags : PropertyFlags := mkPF true false false false.

Definition frozenElement (v : HermesValue) : option IndexedProp :=
  Some (mkIndexed frozenElementFlags v).

(** An array under construction: [length] still writable, extensible. *)
Definition templateCell (vs : list HermesValue) : JSObject :=
  mkObj ArrayKind false
    [mkNamed (getSymbolID Predefined.length) lengthFlags
       (encodeNumberValue (Z.of_nat (length vs)))]
    (frozenElement <$> vs).

(** The finished array: the elements [vs], a read-only [length], the
    named properties [extra], not extensible. *)
Definition frozenArray (vs : list HermesValue) (extra : list NamedProp)
  : JSObject :=
  mkObj ArrayKind true
    (mkNamed (getSymbolID Predefined.length) constantPF
       (encodeNumberValue (Z.of_nat (length vs))) :: extra)
    (frozenElement <$> vs).

(** The arguments [start], [start + 1], ..., [n] of them. *)
Definition argsFrom (args : NativeArgs) (start : nat) (n : nat)
  : list HermesValue :=
  (fun k => getArg args (Z.of_nat (start + k))) <$> seq 0 n.

(** The arguments after the call-site id and the [dup] flag. *)
Definition trailingArgs (args : NativeArgs) : list HermesValue := drop 2 args.

(** The number of elements [getTemplateObject] gives the template object:
    [count] of the source. *)
Definition templateCount (dup : bool) (args : NativeArgs) : nat :=
  if dup then (length args - 2)%nat else (length args / 2 - 1)%nat.

(** The runtime after a call that missed the cache: the raw array and the
    template object are the two new cells, and module [m] caches the
    template object under [id]. *)
Definition templateRuntimeAfter (rt : Runtime) (args : NativeArgs)
    (dup : bool) (m : nat) (md : RuntimeModule) (id : Z) : Runtime :=
  let n := templateCount dup args in
  let r := length (heap rt) in
  mkRuntime
    (heap rt ++
       [frozenArray (argsFrom args 2 n) [];
        frozenArray (argsFrom args (if dup then 2 else 2 + n) n)
          [mkNamed (getSymbolID Predefined.raw) constantPF (HVObject r)]])
    (stackFrames rt)
    (<[m := mkModule (<[id := S r]> (templateMap md))]> (modules rt))
    (thrownValue rt).

(** Every indexed element is a data property that is enumerable, not
    writable and not configurable. *)
Definition elementsFrozen (o : JSObject) : Prop :=
  forall i p, lookupIndexed o i = Some p -> idxFlags p = frozenElementFlags.

(** The [length] property exists and is neither writable nor
    configurable. *)
Definition lengthReadOnly (o : JSObject) : Prop :=
  exists slot p,
    findNamed (getSymbolID Predefined.length) o = Some (slot, p)
    /\ writable (propFlags p) = false /\ configurable (propFlags p) = false.

(** The property [raw] holds the cell [r] and is not writable, not
    configurable and not enumerable. *)
Definition rawProperty (o : JSObject) (r : ObjRef) : Prop :=
  exists slot,
    findNamed (getSymbolID Predefined.raw) o
    = Some (slot, mkNamed (getSymbolID Predefined.raw)
                    (mkPF false false false false) (HVObject r)).

(** The module and call-site id of a call: the module of the calling code
    block and the first argument as a [uint32_t]. *)
Definition callSite (rt : Runtime) (args : NativeArgs) : option (nat * Z) :=
  match head (stackFrames rt), getArg args 0 with
  | Some fr, HVNumber d =>
      match savedCodeBlock fr, getNumberAs_uint32 d with
      | Some cb, Some id => Some (getRuntimeModule cb, id)
      | _, _ => None
      end
  | _, _ => None
  end.

Definition cachedTemplate (rt : Runtime) (m : nat) (id : Z) : option ObjRef :=
  md ← modules rt !! m; templateMap md !! id.

(** The template caches of a runtime are well formed: every cached
    reference is an allocated cell, and no cell is cached under two keys. *)
Definition CachesWellFormed (rt : Runtime) : Prop :=
  (forall m id o, cachedTemplate rt m id = Some o -> (o < length (heap rt))%nat)
  /\ (forall m id m' id' o,
        cachedTemplate rt m id = Some o -> cachedTemplate rt m' id' = Some o ->
        m = m' /\ id = id').

(** What the rest of the VM may do between two calls: anything to the
    stack and to the cells of the heap, but it does not touch the template
    caches of the loaded modules, it may load modules, whose caches start
    empty, and it never frees a cell. *)
Definition OtherStep (rt rt' : Runtime) : Prop :=
  (exists k, modules rt' = modules rt ++ replicate k (mkModule ∅))
  /\ (length (heap rt) <= length (heap rt'))%nat.

(** What a call to [getTemplateObject] lets the program observe: the
    module, the call-site id and the object returned. *)
Definition observation (rt : Runtime) (args : NativeArgs)
    (res : CallResult HermesValue) : list (nat * Z * ObjRef) :=
  match res, callSite rt args with
  | Returned (HVObject o), Some (m, id) => [(m, id, o)]
  | _, _ => []
  end.

(** The life of a runtime: calls to [getTemplateObject], with any
    arguments, from any frame, interleaved with other steps of the VM.
    [obs] collects the observations of the calls that returned. *)
Inductive Lifetime (rt0 : Runtime)
  : list (nat * Z * ObjRef) -> Runtime -> Prop :=
| Lifetime_start : Lifetime rt0 [] rt0
| Lifetime_call obs rt args res rt' :
    Lifetime rt0 obs rt ->
    Z.of_nat (length args) < 2 ^ 32 ->
    hermesBuiltinGetTemplateObject args rt = Some (res, rt') ->
    Lifetime rt0 (obs ++ observation rt args res) rt'
| Lifetime_other obs rt rt' :
    Lifetime rt0 obs rt ->
    OtherStep rt rt' ->
    Lifetime rt0 obs rt'.

(** A runtime with one module, called from its code, no cell allocated. *)
Definition templateFrame : StackFrame :=
  mkFrame None HVUndefined HVUndefined [] (Some (mkCodeBlock 0%nat)).

Definition templateRuntime : Runtime :=
  mkRuntime [] [templateFrame] [mkModule ∅] None.

(** The state a call leaves behind, for building example traces. *)
Definition stateAfter (args : NativeArgs) (rt : Runtime) : Runtime :=
  match hermesBuiltinGetTemplateObject args rt with
  | Some (_, rt') => rt'
  | None => rt
  end.

(** A template literal with one cooked and one raw string at call site 7,
    the same call site with other strings, and call site 8. *)
Definition templateArgsA : NativeArgs :=
  [encodeNumberValue 7; HVBool false; HVString "a\n"; HVString "a"].
Definition templateArgsB : NativeArgs :=
  [encodeNumberValue 7; HVBool true; HVString "b"; HVString "c"].
Definition templateArgsC : NativeArgs :=
  [encodeNumberValue 8; HVBool true; HVString "a"].
Definition templateArgsD : NativeArgs :=
  [encodeNumberValue 7; HVBool false; HVString "x"].

(** The number of arguments after the call-site id and the [dup] flag that
    the specification states for a template object of [n] elements:
    [2n] raw strings, followed by [n] cooked strings unless [dup]. *)
Definition statedTrailingCount (dup : bool) (n : nat) : nat :=
  if dup then (2 * n)%nat else (2 * n + n)%nat.

(** ** Arguments that are objects *)

(** The value refers to a cell that is a [JSObject]. *)
Definition isObjectArg (rt : Runtime) (v : HermesValue) : bool :=
  match v with
  | HVObject r =>
      match heap rt !! r with
      | Some o => isJSObject (kind o)
      | None => false
      end
  | _ => false
  end.

(** A value that is a reference refers to a live cell. *)
Definition valueLive (rt : Runtime) (v : HermesValue) : Prop :=
  forall r, v = HVObject r -> is_Some (heap rt !! r).

(** ** exportAll *)

(** The properties of the source that [exportAll] copies: named by a
    string, enumerable, and not the default export. *)
Definition exportable (p : NamedProp) : bool :=
  negb (isJSSymbol (propId p))
  && enumerable (propFlags p)
  && negb (bool_decide (propId p = getSymbolID Predefined.defaultExport)).

(** Defining one property of the source on the exports object: not
    configurable, writable and enumerable as the default new-property
    flags have them.  A refused definition leaves the object as it is. *)
Definition defineExport (E : JSObject) (p : NamedProp) : JSObject :=
  default E (defineNamedIn E (propId p) exportAllDPF (propValue p)).

Definition exportedFlags : PropertyFlags := mkPF true true false false.


(** [{default: 1, x: 2, y: 3}] with [y] not enumerable, after the empty
    exports object. *)
Definition exportsExample : Runtime :=
  mkRuntime
    [mkObj ObjectKind false [] [];
     mkObj ObjectKind false
       [mkNamed (getSymbolID Predefined.defaultExport) defaultPropertyFlags
          (encodeNumberValue 1);
        mkNamed (Ident "x") defaultPropertyFlags (encodeNumberValue 2);
        mkNamed (Ident "y") (mkPF false true true false) (encodeNumberValue 3)]
       []]
    [exampleFrame None []] [] None.

(** ** copyDataProperties *)

(** The [excludedItems] handle: the third argument when it is an object. *)
Definition objectArg (rt : Runtime) (v : HermesValue) : option ObjRef :=
  match v with
  | HVObject r => if isObjectArg rt v then Some r else None
  | _ => None
  end.

Definition hasOwnIndex (X : option JSObject) (j : nat) : bool :=
  match X with
  | Some X => bool_decide (is_Some (lookupIndexed X j))
  | None => false
  end.

Definition hasOwnName (X : option JSObject) (id : SymbolID) : bool :=
  match X with
  | Some X => bool_decide (is_Some (findNamed id X))
  | None => false
  end.

(** The indexed property [j] of the source when it is copied: it exists,
    is enumerable and is no own key of the excluded object. *)
Definition copiedIndex (S : JSObject) (X : option JSObject) (j : nat)
  : option (nat * HermesValue) :=
  match lookupIndexed S j with
  | Some p =>
      if enumerable (idxFlags p) && negb (hasOwnIndex X j)
      then Some (j, idxValue p) else None
  | None => None
  end.

(** The indexed properties that are copied, in ascending order. *)
Definition copiedIndices (S : JSObject) (X : option JSObject)
  : list (nat * HermesValue) :=
  omap (copiedIndex S X) (seq 0 (length (indexed S))).

(** A named property of the source is copied when it is enumerable, not
    internal and no own key of the excluded object. *)
Definition copiedName (X : option JSObject) (p : NamedProp) : bool :=
  enumerable (propFlags p)
  && negb (isInternal (propId p))
  && negb (hasOwnName X (propId p)).

(** The named properties that are copied, in definition order. *)
Definition copiedNames (S : JSObject) (X : option JSObject) : list NamedProp :=
  List.filter (copiedName X) (named S).

Definition kindAt (rt : Runtime) (r : ObjRef) : option CellKind :=
  kind <$> heap rt !! r.

(** The code of a callable cell. *)
Definition bodyOfKind (k : CellKind) : option Behaviour :=
  match k with
  | FunctionKind body | GeneratorInnerFunctionKind body _ => Some body
  | _ => None
  end.

Definition bodyOf (o : JSObject) : option Behaviour := bodyOfKind (kind o).

(** What reading the named property [p] of the object [s] does: a data
    property gives its value; an accessor runs its getter with [this] the
    object and no argument, and an accessor without getter gives
    [undefined]. *)
Definition readOutcome (rt : Runtime) (s : ObjRef) (p : NamedProp)
  : option Outcome :=
  if accessor (propFlags p) then
    match propValue p with
    | HVObject a =>
        match kindAt rt a with
        | Some (PropertyAccessorKind (Some g)) =>
            k ← kindAt rt g;
            body ← bodyOfKind k;
            Some (body (HVObject s) [] HVUndefined)
        | Some (PropertyAccessorKind None) => Some (Returns HVUndefined)
        | _ => None
        end
    | _ => None
    end
  else Some (Returns (propValue p)).

(** The value read from a property whose read returns. *)
Definition readValue (rt : Runtime) (s : ObjRef) (p : NamedProp) : HermesValue :=
  match readOutcome rt s p with
  | Some (Returns v) => v
  | _ => HVUndefined
  end.

(** Reading the property returns a value. *)
Definition readReturns (rt : Runtime) (s : ObjRef) (p : NamedProp) : Prop :=
  exists v, readOutcome rt s p = Some (Returns v).

(** Defining one copied property on the target with the default
    new-property flags.  A refused definition leaves the target as it
    is. *)
Definition defineCopiedIndex (T : JSObject) (jv : nat * HermesValue)
  : JSObject :=
  default T (defineIndexedIn T jv.1 getDefaultNewPropertyFlags jv.2).

Definition defineCopiedName (T : JSObject) (p : NamedProp) : JSObject :=
  default T (defineNamedIn T (propId p) getDefaultNewPropertyFlags (propValue p)).



Definition copiedElement (jv : nat * HermesValue) : IndexedProp :=
  mkIndexed defaultPropertyFlags jv.2.

Definition dataProp (name : string) (v : Z) : NamedProp :=
  mkNamed (Ident name) defaultPropertyFlags (encodeNumberValue v).

(** Target [{}], source [{a: 1, b: 2, c: 3}], excluded [{b: 1}]. *)
Definition copyExample : Runtime :=
  mkRuntime
    [mkObj ObjectKind false [] [];
     mkObj ObjectKind false [dataProp "a" 1; dataProp "b" 2; dataProp "c" 3] [];
     mkObj ObjectKind false [dataProp "b" 1] []]
    [exampleFrame None []] [] None.

(** The cell of the excluded object, if there is one. *)
Definition excludedCell (rt : Runtime) (xo : option ObjRef) : option JSObject :=
  x ← xo; heap rt !! x.

(** The excluded object, when there is one, is a live cell other than the
    target. *)
Definition excludedApart (rt : Runtime) (xo : option ObjRef) (t : ObjRef)
  : Prop :=
  forall x, xo = Some x -> x <> t /\ is_Some (heap rt !! x).

(** ** arraySpread *)

(** A spread target: an extensible array with a writable [length] whose
    elements all lie below [idx]. *)
Definition SpreadTarget (T : JSObject) (idx : nat) : Prop :=
  kind T = ArrayKind
  /\ noExtend T = false
  /\ (exists lp len, named T !! lengthPropIndex = Some lp
                     /\ writable (propFlags lp) = true
                     /\ lengthOf T = Some len)
  /\ (length (indexed T) <= idx)%nat.

(** The storage [l] after the values [vs] were placed at the indices
    [idx], [idx + 1], ...: the indices between the end of [l] and [idx]
    are holes. *)
Definition placed (l : list (option IndexedProp)) (idx : nat)
    (vs : list HermesValue) : list (option IndexedProp) :=
  match vs with
  | [] => l
  | _ => l ++ replicate (idx - length l) None ++ (restElement <$> vs)
  end.

(** The property names of the numbers in the examples: the decimal
    writing of an integer, which is what [numberToString] gives for the
    integers below 10^21; the examples use no other number. *)
Definition integerToString (d : JSNumber) : string :=
  match d with
  | Fin q => pretty (truncQ q)
  | NaN => "NaN"
  | Inf false => "Infinity"
  | Inf true => "-Infinity"
  end.

(** The result object of an iterator step that yields [v]. *)
Definition stepResult (v : HermesValue) : JSObject :=
  mkObj ObjectKind false
    [mkNamed (getSymbolID Predefined.value) defaultPropertyFlags v;
     mkNamed (getSymbolID Predefined.done) defaultPropertyFlags (HVBool false)]
    [].


(** ** apply *)

(** What [JSArray::at] reads at index [j]. *)
Definition elementAt (A : JSObject) (j : nat) : HermesValue :=
  match lookupIndexed A j with
  | Some p => idxValue p
  | None => HVEmpty
  end.

(** The elements [i], [i + 1], ... of an array, [n] of them. *)
Definition arrayArgsFrom (A : JSObject) (i n : nat) : list HermesValue :=
  elementAt A <$> seq i n.

(** The value refers to a callable cell, to an array. *)
Definition isCallableArg (rt : Runtime) (v : HermesValue) : bool :=
  match cellKindOf rt v with
  | Some k => isCallable k
  | None => false
  end.

Definition isArrayArg (rt : Runtime) (v : HermesValue) : bool :=
  match cellKindOf rt v with
  | Some k => isJSArray k
  | None => false
  end.

(** The runtime after a call into script ended with [out]: a thrown value
    becomes the pending exception. *)
Definition afterOutcome (out : Outcome) (rt : Runtime) : Runtime :=
  match out with
  | Returns _ => rt
  | Throws e => setThrownValue (Some (ThrownValue e)) rt
  end.

(** The result of a plain call, of a construct call with [this]. *)
Definition callResult (out : Outcome) : CallResult HermesValue :=
  match out with
  | Returns v => Returned v
  | Throws _ => EXCEPTION
  end.

Definition constructResult (this : HermesValue) (out : Outcome)
  : CallResult HermesValue :=
  match out with
  | Returns v => Returned (if isObject v then v else this)
  | Throws _ => EXCEPTION
  end.

(** A function that expects three arguments: called plainly it returns
    its [this], constructed it returns a string, which is no object.  The
    array is [[1, 2, 3]]. *)
Definition probe : Behaviour :=
  fun this args newTarget =>
    match newTarget, args with
    | HVUndefined, [_; _; _] => Returns this
    | HVObject _, [_; _; _] => Returns (HVString "constructed")
    | _, _ => Throws (HVString "unexpected")
    end.

Definition applyExample : Runtime :=
  mkRuntime
    [mkObj (FunctionKind probe) false [] [];
     restArray 3 [encodeNumberValue 1; encodeNumberValue 2; encodeNumberValue 3]]
    [exampleFrame None []] [] None.

(** A frame with other contents in its argument slots. *)
Definition withFrameArgs (fr : StackFrame) (l : list HermesValue) : StackFrame :=
  mkFrame (calleeClosure fr) (thisArg fr) (newTarget fr) l (savedCodeBlock fr).

(** ** Targets that refuse a definition or a put *)






(** ** silentSetPrototypeOf, ensureObject, throwTypeError *)

(** The parent the second argument of [silentSetPrototypeOf] asks for:
    [null] asks for none, an object for itself, any other value for
    nothing at all. *)
Definition requestedParent (v : HermesValue) : option (option ObjRef) :=
  match v with
  | HVNull => Some None
  | HVObject p => Some (Some p)
  | _ => None
  end.

(** A [setParent] that refuses every change by raising. *)
Definition refusingSetParent (self : ObjRef) (parent : option ObjRef)
  : M (CallResult bool) :=
  raiseTypeError "Prototype cycle detected".

(** Two plain objects and a pending exception. *)
Definition prototypeExample : Runtime :=
  mkRuntime [mkObj ObjectKind false [] []; mkObj ObjectKind false [] []]
    [exampleFrame None []] [] (Some (ThrownValue (HVString "pending"))).

(** ** copyRestArgs and apply *)

(** A function that returns its second argument, called from a frame that
    received [a], [b] and [c]. *)
Definition secondArgument : Behaviour :=
  fun _ args _ => Returns (default HVUndefined (args !! 1%nat)).

Definition forwardExample : Runtime :=
  mkRuntime [mkObj (FunctionKind secondArgument) false [] []]
    [exampleFrame None [];
     exampleFrame None [HVString "a"; HVString "b"; HVString "c"]] [] None.

(** ** arraySpread *)

(** A spread target after the values [vs] were put at the indices [idx],
    [idx + 1], ...: the storage holds them, and [length] has moved to the
    index after the last one when it was below it. *)
Definition afterSpread (T : JSObject) (idx : nat) (vs : list HermesValue)
  : JSObject :=
  match vs, lengthOf T with
  | _ :: _, Some len =>
      let next := Z.of_nat (idx + length vs) in
      withIndexed (if len <? next then putLength T next else T)
        (placed (indexed T) idx vs)
  | _, _ => T
  end.

(** The iterator of an iterable that has given all its values. *)
Definition exhaustedIterator : JSObject :=
  mkObj (IteratorKind []) false [] [].

(** An empty array and two iterables, of [a] and [b] and of [c]. *)
Definition spreadTwice : Runtime :=
  mkRuntime
    [restArray 0 [];
     mkObj (IterableKind [StepValue (HVString "a"); StepValue (HVString "b")])
       false [] [];
     mkObj (IterableKind [StepValue (HVString "c")]) false [] []]
    [exampleFrame None []] [] None.

(** The numbers [d], [d + 1], ... that are the keys of a spread of [n]
    values started at [d], and the number after them. *)
Fixpoint spreadKeys (d : JSNumber) (n : nat) : list JSNumber :=
  match n with
  | O => []
  | S n' => d :: spreadKeys (addOne d) n'
  end.

Fixpoint keyAfter (d : JSNumber) (n : nat) : JSNumber :=
  match n with
  | O => d
  | S n' => keyAfter (addOne d) n'
  end.

(** The named properties that the values [vs] become when their keys,
    from [d] on, are no array indices. *)
Definition namedPuts (numberToString : JSNumber -> string) (d : JSNumber)
    (vs : list HermesValue) : list NamedProp :=
  zip_with
    (fun k v => mkNamed (Ident (numberToString k)) defaultPropertyFlags v)
    (spreadKeys d (length vs)) vs.

(** An array that takes no new element: it is not extensible and it has
    no element at [idx] or beyond. *)
Definition ClosedTarget (T : JSObject) (idx : nat) : Prop :=
  kind T = ArrayKind
  /\ noExtend T = true
  /\ (length (indexed T) <= idx)%nat.

(** An array [[z]] that is not extensible, and an iterable of [a] and
    [b]. *)
Definition closedExample : Runtime :=
  mkRuntime
    [withNoExtend (restArray 1 [HVString "z"]);
     mkObj (IterableKind [StepValue (HVString "a"); StepValue (HVString "b")])
       false [] []]
    [exampleFrame None []] [] None.

(** ** copyDataProperties *)

(** The wrapper object [toObject] makes of a string: the characters are
    its indexed properties, read-only, and [length] is not enumerable. *)
Definition stringWrapper (s : string) : JSObject :=
  mkObj ObjectKind false
    [mkNamed (getSymbolID Predefined.length) constantPF
       (encodeNumberValue (Z.of_nat (String.length s)))]
    (stringChars s).

(** The character at position [j] of a string, as a string. *)
Fixpoint charAt (s : string) (j : nat) : option HermesValue :=
  match s, j with
  | EmptyString, _ => None
  | String c _, O => Some (HVString (String c EmptyString))
  | String _ rest, S j' => charAt rest j'
  end.

(** The value is a primitive that [toObject] wraps in an object without
    own enumerable properties. *)
Definition isPlainPrimitive (v : HermesValue) : bool :=
  match v with
  | HVBool _ | HVNumber _ | HVSymbol _ => true
  | _ => false
  end.


(** A getter that throws, and a getter that returns 2. *)
Definition throwingGetter : JSObject :=
  mkObj (FunctionKind (fun _ _ _ => Throws (HVString "boom"))) false [] [].

Definition accessorProp (name : string) (a : ObjRef) : NamedProp :=
  mkNamed (Ident name) (mkPF true false true true) (HVObject a).

(** Target [{}] and source [{a: 1, get b() { throw "boom" }, c: 3}]. *)
Definition getterExample : Runtime :=
  mkRuntime
    [mkObj ObjectKind false [] [];
     mkObj ObjectKind false
       [dataProp "a" 1; accessorProp "b" 2%nat; dataProp "c" 3] [];
     mkObj (PropertyAccessorKind (Some 3%nat)) false [] [];
     throwingGetter]
    [exampleFrame None []] [] None.

(** ** The table of builtins *)

(** The builtins of this file, in the order in which
    [createHermesBuiltins] defines them. *)
Definition allBuiltins : list BuiltinMethod.Enum :=
  [BuiltinMethod.HermesBuiltin_silentSetPrototypeOf;
   BuiltinMethod.HermesBuiltin_getTemplateObject;
   BuiltinMethod.HermesBuiltin_ensureObject;
   BuiltinMethod.HermesBuiltin_throwTypeError;
   BuiltinMethod.HermesBuiltin_generatorSetDelegated;
   BuiltinMethod.HermesBuiltin_copyDataProperties;
   BuiltinMethod.HermesBuiltin_copyRestArgs;
   BuiltinMethod.HermesBuiltin_arraySpread;
   BuiltinMethod.HermesBuiltin_apply;
   BuiltinMethod.HermesBuiltin_exportAll;
   BuiltinMethod.HermesBuiltin_exponentiationOperator;
   BuiltinMethod.HermesBuiltin_requireFast].

(** The function object that each builtin is to be bound to: its native
    code, its name and its declared number of parameters. *)
Definition registered (b : BuiltinMethod.Enum) : NativeFunction :=
  match b with
  | BuiltinMethod.HermesBuiltin_silentSetPrototypeOf =>
      mkNativeFunction FunctionPtr.silentObjectSetPrototypeOf
        BuiltinName.silentSetPrototypeOf 2
  | BuiltinMethod.HermesBuiltin_getTemplateObject =>
      mkNativeFunction FunctionPtr.hermesBuiltinGetTemplateObject
        BuiltinName.getTemplateObject 0
  | BuiltinMethod.HermesBuiltin_ensureObject =>
      mkNativeFunction FunctionPtr.hermesBuiltinEnsureObject
        BuiltinName.ensureObject 2
  | BuiltinMethod.HermesBuiltin_throwTypeError =>
      mkNativeFunction FunctionPtr.hermesBuiltinThrowTypeError
        BuiltinName.throwTypeError 1
  | BuiltinMethod.HermesBuiltin_generatorSetDelegated =>
      mkNativeFunction FunctionPtr.hermesBuiltinGeneratorSetDelegated
        BuiltinName.generatorSetDelegated 1
  | BuiltinMethod.HermesBuiltin_copyDataProperties =>
      mkNativeFunction FunctionPtr.hermesBuiltinCopyDataProperties
        BuiltinName.copyDataProperties 3
  | BuiltinMethod.HermesBuiltin_copyRestArgs =>
      mkNativeFunction FunctionPtr.hermesBuiltinCopyRestArgs
        BuiltinName.copyRestArgs 1
  | BuiltinMethod.HermesBuiltin_arraySpread =>
      mkNativeFunction FunctionPtr.hermesBuiltinArraySpread
        BuiltinName.arraySpread 2
  | BuiltinMethod.HermesBuiltin_apply =>
      mkNativeFunction FunctionPtr.hermesBuiltinApply BuiltinName.apply 2
  | BuiltinMethod.HermesBuiltin_exportAll =>
      mkNativeFunction FunctionPtr.hermesBuiltinExportAll
        BuiltinName.exportAll 0
  | BuiltinMethod.HermesBuiltin_exponentiationOperator =>
      mkNativeFunction FunctionPtr.mathPow BuiltinName.exponentiationOperator 0
  | BuiltinMethod.HermesBuiltin_requireFast =>
      mkNativeFunction FunctionPtr.requireFast BuiltinName.requireFast 1
  end.

(** Binding the builtins of a list one after the other, each to its
    function object, in a table where its entry is null. *)
Fixpoint defineAll (indexOf : BuiltinMethod.Enum -> nat)
    (l : list BuiltinMethod.Enum) (builtins : list (option NativeFunction))
  : option (list (option NativeFunction)) :=
  match l with
  | [] => Some builtins
  | b :: l' =>
      match builtins !! indexOf b with
      | Some None =>
          defineAll indexOf l' (<[indexOf b := Some (registered b)]> builtins)
      | _ => None
      end
  end.

(** An assignment of indices: the position in [allBuiltins] after [base]
    other builtins. *)
Definition positionAfter (base : nat) (b : BuiltinMethod.Enum) : nat :=
  base +
  match b with
  | BuiltinMethod.HermesBuiltin_silentSetPrototypeOf => 0
  | BuiltinMethod.HermesBuiltin_getTemplateObject => 1
  | BuiltinMethod.HermesBuiltin_ensureObject => 2
  | BuiltinMethod.HermesBuiltin_throwTypeError => 3
  | BuiltinMethod.HermesBuiltin_generatorSetDelegated => 4
  | BuiltinMethod.HermesBuiltin_copyDataProperties => 5
  | BuiltinMethod.HermesBuiltin_copyRestArgs => 6
  | BuiltinMethod.HermesBuiltin_arraySpread => 7
  | BuiltinMethod.HermesBuiltin_apply => 8
  | BuiltinMethod.HermesBuiltin_exportAll => 9
  | BuiltinMethod.HermesBuiltin_exponentiationOperator => 10
  | BuiltinMethod.HermesBuiltin_requireFast => 11
  end%nat.

(** ** Objects that are not extensible *)

(** An empty object that is not extensible, and the object [{a: 1}]. *)
Definition sealedExample : Runtime :=
  mkRuntime
    [mkObj ObjectKind true [] [];
     mkObj ObjectKind false [dataProp "a" 1] []]
    [exampleFrame None []] [] None.

(** ** Template objects as sources *)

(** The runtime of the template examples with one empty object. *)
Definition templateWithTarget : Runtime :=
  mkRuntime [mkObj ObjectKind false [] []] [templateFrame] [mkModule ∅] None.

(** * Properties *)

(** ** Reasoning about computations *)

Lemma getCell_eq r rt o :
  heap rt !! r = Some o -> getCell r rt = Some (o, rt).
Proof. intros H. unfold getCell. by rewrite H. Qed.

Lemma setHeap_setHeap h1 h2 rt : setHeap h2 (setHeap h1 rt) = setHeap h2 rt.
Proof. reflexivity. Qed.

Lemma heap_setHeap h rt : heap (setHeap h rt) = h.
Proof. reflexivity. Qed.

Lemma setHeap_insert_id rt r o :
  heap rt !! r = Some o -> setHeap (<[r := o]> (heap rt)) rt = rt.
Proof.
  intros H. rewrite list_insert_id by done. by destruct rt.
Qed.

Lemma withIndexed_withIndexed o a b :
  withIndexed (withIndexed o a) b = withIndexed o b.
Proof. reflexivity. Qed.

Lemma insert_two_first {A} (h : list A) a b x :
  <[length h := x]> (h ++ [a; b]) = h ++ [x; b].
Proof.
  replace (length h) with (length h + 0)%nat at 1 by lia.
  by rewrite insert_app_r.
Qed.

Lemma insert_two_second {A} (h : list A) a b y :
  <[S (length h) := y]> (h ++ [a; b]) = h ++ [a; y].
Proof.
  replace (S (length h)) with (length h + 1)%nat by lia.
  by rewrite insert_app_r.
Qed.

Lemma lookup_two_first {A} (h : list A) a b :
  (h ++ [a; b]) !! length h = Some a.
Proof. by rewrite lookup_app_r, Nat.sub_diag. Qed.

Lemma lookup_two_second {A} (h : list A) a b :
  (h ++ [a; b]) !! S (length h) = Some b.
Proof.
  rewrite lookup_app_r by lia.
  by replace (S (length h) - length h)%nat with 1%nat by lia.
Qed.

Lemma u32_small z : 0 <= z < 2 ^ 32 -> u32 z = z.
Proof. intros H. unfold u32. by apply Z.mod_small. Qed.

Lemma getArg_nat (args : NativeArgs) (i : nat) :
  getArg args (Z.of_nat i) = default HVUndefined (args !! i).
Proof.
  unfold getArg. destruct (Z.ltb_spec (Z.of_nat i) 0); [lia|].
  by rewrite Nat2Z.id.
Qed.

Lemma dyncastArg_object rt args i r o test :
  getArg args i = HVObject r ->
  heap rt !! r = Some o ->
  dyncastArg test args i rt = Some (if test (kind o) then Some r else None, rt).
Proof. intros Ha Ho. unfold dyncastArg. by rewrite Ha, Ho. Qed.

Lemma dyncastArg_not_object rt args i :
  valueLive rt (getArg args i) ->
  isObjectArg rt (getArg args i) = false ->
  dyncastArg isJSObject args i rt = Some (None, rt).
Proof.
  intros Hlive Hno. unfold dyncastArg, isObjectArg in *.
  destruct (getArg args i) as [| | | | | | |r]; try done.
  destruct (Hlive r eq_refl) as [o Ho]. rewrite Ho in *. by rewrite Hno.
Qed.

Lemma dyncastArg_none rt args i test :
  valueLive rt (getArg args i) ->
  match cellKindOf rt (getArg args i) with
  | Some k => test k
  | None => false
  end = false ->
  dyncastArg test args i rt = Some (None, rt).
Proof.
  intros Hlive Hno. unfold dyncastArg, cellKindOf in *.
  destruct (getArg args i) as [| | | | | | |r]; try done.
  destruct (Hlive r eq_refl) as [o Ho]. rewrite Ho in *. cbn in Hno.
  by rewrite Hno.
Qed.

Lemma dyncastArg_objectArg rt args i :
  valueLive rt (getArg args i) ->
  dyncastArg isJSObject args i rt = Some (objectArg rt (getArg args i), rt).
Proof.
  intros Hlive. unfold dyncastArg, objectArg, isObjectArg.
  destruct (getArg args i) as [| | | | | | |r]; try done.
  destruct (Hlive r eq_refl) as [o Ho]. by rewrite Ho.
Qed.

(** A call that ended by raising a type error. *)
Ltac raised H :=
  left; unfold raiseTypeError, raise in H; injection H as <- <-;
  eexists; split; reflexivity.

(** ** Numbers *)

Lemma truncQ_inject (z : Z) : truncQ (inject_Z z) = z.
Proof. unfold truncQ, inject_Z; simpl. apply Z.quot_1_r. Qed.

Lemma isIntegral_inject (z : Z) : isIntegral (inject_Z z) = true.
Proof.
  unfold isIntegral, inject_Z; simpl. rewrite Z.rem_1_r. reflexivity.
Qed.

Lemma toArrayIndex_encode (z : Z) :
  0 <= z < 2 ^ 32 - 1 ->
  toArrayIndex (encodeNumberValue z) = Some (Z.to_nat z).
Proof.
  intros H. unfold toArrayIndex, encodeNumberValue, ofZ.
  rewrite isIntegral_inject, truncQ_inject.
  destruct (Z.leb_spec 0 z); [|lia].
  destruct (Z.ltb_spec z (2 ^ 32 - 1)); [|lia]. reflexivity.
Qed.

Lemma getNumberAs_uint32_ofZ (z : Z) :
  0 <= z < 2 ^ 32 -> getNumberAs_uint32 (ofZ z) = Some z.
Proof.
  intros H. unfold getNumberAs_uint32, ofZ.
  rewrite isIntegral_inject, truncQ_inject.
  destruct (Z.leb_spec 0 z); [|lia].
  destruct (Z.ltb_spec z (2 ^ 32)); [|lia]. reflexivity.
Qed.

Lemma Qred_inject_Z (z : Z) : Qred (inject_Z z) = inject_Z z.
Proof. apply Qcanon.Qred_identity. cbn. apply Z.gcd_1_r. Qed.

(** Rounding leaves an integer below 2^53 as it is. *)
Lemma roundToDouble_inject (z : Z) :
  0 <= z < 2 ^ 53 -> roundToDouble (inject_Z z) = ofZ z.
Proof.
  intros Hz. unfold roundToDouble, ofZ.
  change (Qnum (inject_Z z)) with z.
  change (Z.pos (Qden (inject_Z z))) with 1.
  rewrite Z.abs_eq by lia.
  destruct (Z.eqb_spec z 0) as [->|Hnz]; [reflexivity|].
  change (Z.log2 1) with 0. rewrite Z.sub_0_r.
  assert (Hpos : 0 < z) by lia.
  pose proof (Z.log2_nonneg z) as Hl0.
  destruct (Z.log2_spec z Hpos) as [Hlo Hhi].
  assert (Hl53 : Z.log2 z < 53) by (apply Z.log2_lt_pow2; lia).
  set (e := Z.log2 z) in *.
  assert (H0 : (let '(n0, d0) := scale2 z 1 (- e) in n0 <? d0) = false).
  { unfold scale2. destruct (Z.leb_spec 0 (- e)).
    - assert (e = 0) as -> by lia. apply Z.ltb_ge. cbn. lia.
    - apply Z.ltb_ge. rewrite Z.opp_involutive. lia. }
  destruct (scale2 z 1 (- e)) as [n0 d0]. rewrite H0.
  rewrite Z.max_l by lia.
  unfold scale2 at 1.
  destruct (Z.leb_spec 0 (- (e - 52))); [|lia].
  rewrite Z.div_1_r, Z.mod_1_r.
  change (2 * 0 <? 1) with true. cbv iota.
  replace (971 <? e - 52) with false by (symmetry; apply Z.ltb_ge; lia).
  replace (e - 52 =? 971) with false by (symmetry; apply Z.eqb_neq; lia).
  cbn [orb andb].
  rewrite Z.sgn_pos by lia.
  assert (Hpow : 0 < 2 ^ (- (e - 52))) by (apply Z.pow_pos_nonneg; lia).
  rewrite <- (Qred_inject_Z z).
  unfold scale2. destruct (Z.leb_spec 0 (e - 52)).
  - assert (e = 52) as -> by lia. f_equal. apply Qred_complete.
    unfold Qeq, inject_Z; cbn. lia.
  - f_equal. apply Qred_complete. unfold Qeq, inject_Z. cbn [Qnum Qden].
    rewrite Z2Pos.id by lia. lia.
Qed.

Lemma addOne_ofZ (z : Z) :
  0 <= z < 2 ^ 53 - 1 -> addOne (ofZ z) = ofZ (z + 1).
Proof.
  intros Hz. unfold addOne, ofZ.
  assert (Hq : (inject_Z z + 1)%Q = inject_Z (z + 1)).
  { unfold Qplus, inject_Z. cbn [Qnum Qden]. f_equal. lia. }
  rewrite Hq. apply roundToDouble_inject. lia.
Qed.

(** ** The object model *)

Lemma kind_defineNamedIn o id dpf v o' :
  defineNamedIn o id dpf v = Some o' -> kind o' = kind o.
Proof.
  unfold defineNamedIn. intros H.
  destruct (findNamed id o) as [[slot p]|].
  - destruct (validateUpdate _ _ _ _); by inversion H.
  - destruct (noExtend o); by inversion H.
Qed.

Lemma kind_defineIndexedIn o i dpf v o' :
  defineIndexedIn o i dpf v = Some o' -> kind o' = kind o.
Proof.
  unfold defineIndexedIn, addIndexed. intros H.
  destruct (lookupIndexed o i).
  - destruct (validateUpdate _ _ _ _); by inversion H.
  - destruct (noExtend o); [done|].
    destruct (isJSArray (kind o)); [|by inversion H].
    destruct (named o !! lengthPropIndex) eqn:Hl; [|done].
    destruct (lengthOf o); [|done].
    destruct (_ <=? _); [|by inversion H].
    destruct (writable _); [|done]. inversion H.
    unfold putLength. by rewrite Hl.
Qed.

(** Defining a named property on a cell that is not an array, without the
    throw-on-error flag, never raises. *)
Lemma defineOwnProperty_quiet rt r o id dpf v :
  heap rt !! r = Some o ->
  isJSArray (kind o) = false ->
  defineOwnProperty r id dpf v false rt =
    Some (Returned (bool_decide (is_Some (defineNamedIn o id dpf v))),
          setHeap (<[r := default o (defineNamedIn o id dpf v)]> (heap rt)) rt).
Proof.
  intros Ho Hk. unfold defineOwnProperty, bind.
  rewrite (getCell_eq _ _ _ Ho), Hk. cbn [andb].
  destruct (defineNamedIn o id dpf v) as [o'|]; cbn.
  - reflexivity.
  - unfold ret. by rewrite setHeap_insert_id.
Qed.

(** Defining an indexed property never raises. *)
Lemma defineOwnComputedPrimitive_quiet rt r o i dpf v :
  heap rt !! r = Some o ->
  Z.of_nat i < 2 ^ 32 - 1 ->
  defineOwnComputedPrimitive r (encodeNumberValue (Z.of_nat i)) dpf v rt =
    Some (Returned (bool_decide (is_Some (defineIndexedIn o i dpf v))),
          setHeap (<[r := default o (defineIndexedIn o i dpf v)]> (heap rt)) rt).
Proof.
  intros Ho Hi. unfold defineOwnComputedPrimitive.
  rewrite toArrayIndex_encode, Nat2Z.id by lia.
  unfold bind. rewrite (getCell_eq _ _ _ Ho).
  destruct (defineIndexedIn o i dpf v) as [o'|]; cbn.
  - reflexivity.
  - unfold ret. by rewrite setHeap_insert_id.
Qed.

Lemma defineOwnProperty_length_readOnly rt r o v extra :
  heap rt !! r = Some o ->
  kind o = ArrayKind ->
  named o = mkNamed (getSymbolID Predefined.length) lengthFlags v :: extra ->
  defineOwnProperty r (getSymbolID Predefined.length) readOnlyDPF HVUndefined
      true rt =
    Some (Returned true,
          setHeap
            (<[r := withNamed o
                      (mkNamed (getSymbolID Predefined.length) constantPF v
                         :: extra)]> (heap rt)) rt).
Proof.
  intros Ho Hk Hn. unfold defineOwnProperty.
  unfold bind at 1. rewrite (getCell_eq _ _ _ Ho).
  rewrite Hk. cbn [isJSArray readOnlyDPF setValue andb].
  rewrite andb_false_r.
  unfold defineNamedIn, findNamed. rewrite Hn. simpl.
  unfold bind, setCell, ret. reflexivity.
Qed.

Lemma preventExtensions_eq rt r o :
  heap rt !! r = Some o ->
  preventExtensions r rt =
    Some (tt, setHeap (<[r := withNoExtend o]> (heap rt)) rt).
Proof.
  intros Ho. unfold preventExtensions, bind. by rewrite (getCell_eq _ _ _ Ho).
Qed.

Lemma defineNewOwnProperty_fresh rt r o id pf v :
  heap rt !! r = Some o ->
  findNamed id o = None ->
  defineNewOwnProperty r id pf v rt =
    Some (Returned tt,
          setHeap (<[r := withNamed o (named o ++ [mkNamed id pf v])]> (heap rt))
            rt).
Proof.
  intros Ho Hf. unfold defineNewOwnProperty, bind.
  by rewrite (getCell_eq _ _ _ Ho), Hf.
Qed.

Lemma findNamed_None_iff id o :
  findNamed id o = None <-> id ∉ propId <$> named o.
Proof.
  unfold findNamed. rewrite list_find_None, Forall_forall.
  rewrite list_elem_of_fmap. split.
  - intros H (p & -> & Hp). by apply (H p).
  - intros H p Hp Heq. apply H. by exists p.
Qed.


Lemma NoDup_fmap_filter {A B} (f : A -> B) (g : A -> bool) (l : list A) :
  NoDup (f <$> l) -> NoDup (f <$> List.filter g l).
Proof.
  induction l as [|x l IH]; [done|]. cbn. rewrite !NoDup_cons.
  intros [Hx Hl]. destruct (g x); [|by apply IH].
  cbn. rewrite NoDup_cons. split; [|by apply IH].
  intros Hin. apply Hx. apply list_elem_of_fmap in Hin as (y & -> & Hy).
  apply list_elem_of_fmap. exists y. split; [done|].
  apply list_elem_of_In, filter_In in Hy as [Hy _]. by apply list_elem_of_In.
Qed.

Lemma lookup_storeIndexed l i p j :
  mjoin (storeIndexed l i p !! j)
  = if decide (j = i) then Some p else mjoin (l !! j).
Proof.
  unfold storeIndexed. destruct (decide (i < length l)%nat) as [Hlt|Hge].
  - destruct (decide (j = i)) as [->|Hne].
    + by rewrite list_lookup_insert_eq.
    + by rewrite list_lookup_insert_ne.
  - destruct (decide (j < length l)%nat) as [Hj|Hj].
    + rewrite lookup_app_l by done. rewrite decide_False by lia. done.
    + rewrite lookup_app_r by lia.
      rewrite (lookup_ge_None_2 l j) by lia.
      destruct (decide (j - length l < i - length l)%nat) as [Hpad|Hpad].
      * rewrite lookup_app_l by (by rewrite length_replicate).
        rewrite lookup_replicate_2 by done. rewrite decide_False by lia. done.
      * rewrite lookup_app_r by (rewrite length_replicate; lia).
        rewrite length_replicate.
        destruct (decide (j = i)) as [->|Hne].
        -- by rewrite Nat.sub_diag.
        -- rewrite lookup_ge_None_2; [done|]. cbn. lia.
Qed.

Lemma lengthOf_bound A len : lengthOf A = Some len -> 0 <= len < 2 ^ 32.
Proof.
  unfold lengthOf. destruct (named A !! lengthPropIndex) as [[id pf v]|]; [|done].
  destruct v as [| | | | d | | |]; try done.
  unfold getNumberAs_uint32. destruct d as [| |q]; try done.
  destruct (isIntegral q); [|done]. cbn.
  destruct (Z.leb_spec 0 (truncQ q)); [|done]. cbn.
  destruct (Z.ltb_spec (truncQ q) (2 ^ 32)); [|done].
  intros [= <-]. lia.
Qed.

(** ** Calls into script *)

(** A call with no argument: the frame is pushed, the function runs and
    the frame is popped. *)
Lemma executeCall0_spec rt g G body this :
  heap rt !! g = Some G ->
  bodyOf G = Some body ->
  executeCall0 g this rt =
    Some (callResult (body this [] HVUndefined),
          afterOutcome (body this [] HVUndefined) rt).
Proof.
  intros Hg Hbody. unfold executeCall0, ScopedNativeCallFrame.
  unfold bind at 1. unfold pushFrame.
  set (fr := mkFrame _ _ _ _ _).
  set (rt1 := setStackFrames (fr :: stackFrames rt) rt).
  unfold bind at 1. unfold Callable_call.
  unfold bind at 1. unfold getRuntime.
  unfold bind at 1. cbn [stackFrames rt1 setStackFrames head liftOpt ret].
  unfold bind at 1. rewrite (getCell_eq g rt1 G) by done.
  unfold bodyOf, bodyOfKind in Hbody.
  destruct (kind G) as [| |b|b d| | |]; try done;
    injection Hbody as ->; cbn [thisArg frameArgs newTarget fr];
    change (replicate (Z.to_nat 0) HVUndefined) with (@nil HermesValue);
    destruct (body this [] HVUndefined) as [v|e];
    cbn [callResult afterOutcome ret raise];
    unfold bind, popFrame, raise; cbn; by destruct rt.
Qed.

(** ** generatorSetDelegated *)

(** C8. With a caller frame on the stack, [generatorSetDelegated] raises a
    TypeError and leaves the heap, the stack and the modules as they were
    whenever the callee of the immediate caller frame is not a generator
    activation; when it is one, the operation sets the delegation flag of
    that generator to true, changes nothing else and returns
    [undefined]. *)
Theorem generatorSetDelegated_spec (args : NativeArgs) (rt : Runtime)
    (cur prev : StackFrame) (rest : list StackFrame) :
  stackFrames rt = cur :: prev :: rest ->
  calleeLive rt (calleeClosure prev) ->
  (isGeneratorActivation rt (calleeClosure prev) = false ->
   hermesBuiltinGeneratorSetDelegated args rt =
     Some (EXCEPTION,
           setThrownValue
             (Some (TypeError
                "generatorSetDelegated can only be called as part of yield*"))
             rt))
  /\ (forall r o body d,
        calleeClosure prev = Some r ->
        heap rt !! r = Some o ->
        kind o = GeneratorInnerFunctionKind body d ->
        hermesBuiltinGeneratorSetDelegated args rt =
          Some (Returned HVUndefined,
                setHeap (<[r := withKind o (GeneratorInnerFunctionKind body true)]>
                           (heap rt)) rt)).
Proof.
  intros Hfr Hlive. unfold hermesBuiltinGeneratorSetDelegated.
  unfold bind, getRuntime. rewrite Hfr. split.
  - intros Hno. unfold isGeneratorActivation in Hno.
    destruct (calleeClosure prev) as [r|] eqn:Hc; [|reflexivity].
    destruct (Hlive r eq_refl) as [o Ho]. rewrite Ho in Hno.
    unfold dyn_vmcast_or_null_GeneratorInnerFunction.
    unfold bind, getCell, ret. rewrite Ho, Hno. reflexivity.
  - intros r o body d Hc Ho Hk. rewrite Hc.
    unfold dyn_vmcast_or_null_GeneratorInnerFunction, setIsDelegated.
    unfold bind, getCell, ret. rewrite Ho, Hk. simpl. rewrite Ho, Hk.
    reflexivity.
Qed.

Lemma generatorSetDelegated_spec_witness :
  hermesBuiltinGeneratorSetDelegated [] (generatorRuntime 0%nat) =
    Some (EXCEPTION,
          setThrownValue
            (Some (TypeError
               "generatorSetDelegated can only be called as part of yield*"))
            (generatorRuntime 0%nat))
  /\ hermesBuiltinGeneratorSetDelegated [] (generatorRuntime 1%nat) =
       Some (Returned HVUndefined,
             setHeap [exampleFunction;
                      withKind exampleGenerator
                        (GeneratorInnerFunctionKind
                           (fun _ _ _ => Returns HVUndefined) true)]
                     (generatorRuntime 1%nat)).
Proof.
  split.
  - refine (proj1 (generatorSetDelegated_spec [] (generatorRuntime 0%nat)
                     _ _ _ eq_refl _) eq_refl).
    intros r [= <-]. by eexists.
  - refine (proj2 (generatorSetDelegated_spec [] (generatorRuntime 1%nat)
                     _ _ _ eq_refl _) 1%nat exampleGenerator _ false
                  eq_refl eq_refl eq_refl).
    intros r [= <-]. by eexists.
Defined.

(** ** copyRestArgs *)

(** The loop fills the holes that follow [pre] with the caller's
    arguments from [from] on. *)
Lemma copyRestArgs_loop_spec (it : StackFrame) (array : ObjRef) (n : nat) :
  forall (i from : Z) (rt : Runtime) (o : JSObject)
         (pre : list (option IndexedProp)),
    heap rt !! array = Some o ->
    indexed o = pre ++ replicate n None ->
    Z.of_nat (length pre) = i ->
    0 <= from ->
    ((0 < n)%nat -> from + Z.of_nat n <= Z.of_nat (length (frameArgs it))) ->
    Z.of_nat (length (frameArgs it)) < 2 ^ 32 ->
    copyRestArgs_loop n i from array it rt =
      Some (tt, setHeap
                  (<[array := withIndexed o
                       (pre ++ (restElement <$>
                                  take n (drop (Z.to_nat from) (frameArgs it))))]>
                     (heap rt)) rt).
Proof.
  induction n as [|n IH]; intros i from rt o pre Ho Hidx Hi Hfrom Hle Hlt.
  - simpl. unfold ret. simpl in Hidx.
    rewrite <- Hidx. f_equal. f_equal. destruct rt as [h fs ms t].
    unfold setHeap; simpl in *. f_equal.
    symmetry. apply list_insert_id. by destruct o.
  - specialize (Hle ltac:(lia)).
    assert (Hlook : is_Some (frameArgs it !! Z.to_nat from)).
    { apply lookup_lt_is_Some. lia. }
    destruct Hlook as [v Hv].
    cbn [copyRestArgs_loop]. unfold getArgRef.
    destruct (Z.ltb_spec from 0) as [?|_]; [lia|].
    unfold bind at 1. rewrite Hv. cbn [liftOpt ret].
    unfold bind at 1. unfold unsafeSetExistingElementAt.
    unfold bind at 1. rewrite (getCell_eq _ _ _ Ho).
    assert (Hin : (0 <=? i) && (i <? Z.of_nat (length (indexed o))) = true).
    { rewrite Hidx, length_app, length_replicate.
      apply andb_true_iff; split; [apply Z.leb_le|apply Z.ltb_lt]; lia. }
    rewrite Hin. unfold setCell.
    set (o' := withIndexed o (<[Z.to_nat i := restElement v]> (indexed o))).
    set (rt' := setHeap (<[array := o']> (heap rt)) rt).
    assert (Ho' : heap rt' !! array = Some o').
    { unfold rt'; simpl. apply list_lookup_insert_eq.
      by eapply lookup_lt_Some. }
    assert (Hidx' : indexed o' = (pre ++ [restElement v]) ++ replicate n None).
    { unfold o'; simpl. rewrite Hidx. replace (Z.to_nat i) with (length pre + 0)%nat by lia.
      rewrite insert_app_r. simpl. by rewrite <- app_assoc. }
    match goal with
    | |- _ = ?rhs =>
        change (copyRestArgs_loop n (i + 1) ((from + 1) mod 2 ^ 32) array it rt'
                = rhs)
    end.
    rewrite (IH (i + 1) ((from + 1) mod 2 ^ 32) rt' o' (pre ++ [restElement v])
               Ho' Hidx').
    + f_equal. f_equal. unfold rt'. rewrite setHeap_setHeap. simpl.
      rewrite list_insert_insert_eq. unfold o'.
      rewrite withIndexed_withIndexed. f_equal. f_equal. f_equal.
      rewrite <- app_assoc. f_equal.
      rewrite Z.mod_small by lia.
      rewrite (drop_S _ _ _ Hv). simpl.
      replace (Z.to_nat (from + 1)) with (S (Z.to_nat from)) by lia.
      reflexivity.
    + rewrite length_app. simpl. lia.
    + apply Z.mod_pos_bound. lia.
    + intros ?. rewrite Z.mod_small by lia. lia.
    + assumption.
Qed.

(** C7, as the code has it.  For every call to [copyRestArgs] with a
    numeric first argument and an existing caller frame, with
    [from' = truncateToUInt32 from], the result is a new array, of length
    [max (argCount - from', 0)], that contains the caller's arguments
    [from', argCount) in order; nothing else changes and no error is
    raised.  For an integer [from] between 0 and 2^32 - 1, [from'] is
    [from]. *)
Theorem copyRestArgs_spec (args : NativeArgs) (rt : Runtime)
    (cur caller : StackFrame) (rest : list StackFrame) (d : JSNumber) :
  stackFrames rt = cur :: caller :: rest ->
  getArg args 0 = HVNumber d ->
  Z.of_nat (length (frameArgs caller)) < 2 ^ 32 ->
  hermesBuiltinCopyRestArgs args rt =
    Some (Returned (HVObject (length (heap rt))),
          setHeap
            (heap rt ++
               [restArray
                  (Z.max (Z.of_nat (length (frameArgs caller))
                          - truncateToUInt32 d) 0)
                  (drop (Z.to_nat (truncateToUInt32 d)) (frameArgs caller))])
            rt).
Proof.
  intros Hfr Harg Hlt. unfold hermesBuiltinCopyRestArgs.
  unfold bind at 1. unfold getRuntime. rewrite Hfr, Harg.
  set (from := truncateToUInt32 d).
  set (argCount := getArgCount (frameArgs caller)).
  assert (Hfrom : 0 <= from < 2 ^ 32).
  { unfold from, truncateToUInt32. destruct d; try lia.
    apply Z.mod_pos_bound. lia. }
  set (len := if from <=? argCount then argCount - from else 0).
  assert (Hlen : len = Z.max (argCount - from) 0).
  { unfold len. destruct (Z.leb_spec from argCount); lia. }
  assert (Hlen0 : 0 <= len) by lia.
  unfold JSArray_create. unfold bind at 1. unfold bind at 1.
  unfold allocCell at 1. cbn [ret].
  set (o0 := mkObj ArrayKind false _ []).
  set (rt1 := setHeap (heap rt ++ [o0]) rt).
  unfold bind at 1. unfold JSArray_setStorageEndIndex.
  assert (Ho0 : heap rt1 !! length (heap rt) = Some o0).
  { unfold rt1; simpl. by rewrite lookup_app_r, Nat.sub_diag. }
  unfold bind at 1. rewrite (getCell_eq _ _ _ Ho0). unfold setCell.
  set (o1 := withIndexed o0 _).
  set (rt2 := setHeap (<[length (heap rt) := o1]> (heap rt1)) rt1).
  assert (Ho1 : heap rt2 !! length (heap rt) = Some o1).
  { unfold rt2; simpl. apply list_lookup_insert_eq.
    rewrite length_app. simpl. lia. }
  assert (Hidx1 : indexed o1 = [] ++ replicate (Z.to_nat len) None).
  { unfold o1, o0; simpl. by rewrite take_replicate, Nat.min_id. }
  unfold bind at 1.
  assert (Hargc : argCount = Z.of_nat (length (frameArgs caller))) by reflexivity.
  change (setHeap (<[length (heap rt) := o1]> (heap rt1)) rt1) with rt2.
  rewrite (copyRestArgs_loop_spec caller (length (heap rt)) (Z.to_nat len)
             0 from rt2 o1 [] Ho1 Hidx1); [|reflexivity|lia|lia|lia].
  unfold ret, encodeObjectValue. f_equal. f_equal.
  unfold rt2, rt1. rewrite !setHeap_setHeap. simpl.
  rewrite list_insert_insert_eq. f_equal.
  replace (length (heap rt)) with (length (heap rt) + 0)%nat at 1 by lia.
  rewrite insert_app_r. simpl. f_equal. f_equal.
  unfold restArray, o1, o0, withIndexed; simpl. f_equal.
  - rewrite <- Hargc, <- Hlen. reflexivity.
  - fold from. f_equal. apply take_ge.
    rewrite length_drop. lia.
Qed.

Lemma copyRestArgs_spec_witness :
  hermesBuiltinCopyRestArgs [encodeNumberValue 1]
      (restRuntime [HVString "a"; HVString "b"; HVString "c"]) =
    Some (Returned (HVObject 0%nat),
          setHeap [restArray 2 [HVString "b"; HVString "c"]]
            (restRuntime [HVString "a"; HVString "b"; HVString "c"])).
Proof.
  exact (copyRestArgs_spec [encodeNumberValue 1]
           (restRuntime [HVString "a"; HVString "b"; HVString "c"])
           _ _ _ (ofZ 1) eq_refl eq_refl eq_refl).
Defined.

(** C7, as stated, fails: with first argument -1 and a caller that
    received two arguments, the stated length is [max (2 - (-1), 0) = 3],
    and the array that [copyRestArgs] returns is empty. *)
Lemma copyRestArgs_negative_from :
  exists (r : ObjRef) (rt' : Runtime) (o : JSObject),
    hermesBuiltinCopyRestArgs [encodeNumberValue (-1)]
        (restRuntime [HVString "a"; HVString "b"]) =
      Some (Returned (HVObject r), rt')
    /\ heap rt' !! r = Some o
    /\ elementsOf o = []
    /\ lengthOf o = Some 0
    /\ lengthOf o <> Some (statedRestLength 2 (-1)).
Proof.
  eexists _, _, _. split; [vm_compute; reflexivity|].
  split; [reflexivity|]. split; [reflexivity|].
  split; [reflexivity|]. vm_compute. discriminate.
Qed.

(** C10. For every call to [copyRestArgs] whose first argument is not a
    number, the operation returns [undefined] and leaves the runtime as it
    was: no array is created and no error is raised, with or without a
    caller frame. *)
Theorem copyRestArgs_not_number (args : NativeArgs) (rt : Runtime) :
  stackFrames rt <> [] ->
  isNumber (getArg args 0) = false ->
  hermesBuiltinCopyRestArgs args rt = Some (Returned HVUndefined, rt).
Proof.
  intros Hfr Hnum. unfold hermesBuiltinCopyRestArgs, bind, getRuntime.
  destruct (stackFrames rt) as [|cur [|caller rest]]; [done|done|].
  by destruct (getArg args 0).
Qed.

Lemma copyRestArgs_not_number_witness :
  hermesBuiltinCopyRestArgs [HVString "1"]
      (restRuntime [HVString "a"; HVString "b"]) =
    Some (Returned HVUndefined, restRuntime [HVString "a"; HVString "b"]).
Proof.
  apply copyRestArgs_not_number; [discriminate|reflexivity].
Defined.

(** ** getTemplateObject *)

Lemma argsFrom_S args start n :
  argsFrom args start (S n) = getArg args (Z.of_nat start) :: argsFrom args (S start) n.
Proof.
  unfold argsFrom. simpl. rewrite Nat.add_0_r. f_equal.
  rewrite <- fmap_S_seq, <- list_fmap_compose. apply list_fmap_ext.
  intros _ k _. simpl. f_equal. lia.
Qed.

Lemma length_argsFrom args start n : length (argsFrom args start n) = n.
Proof. unfold argsFrom. by rewrite length_fmap, length_seq. Qed.

(** Inside the argument vector, [argsFrom] is a slice of it. *)
Lemma argsFrom_slice (args : NativeArgs) start n :
  (start + n <= length args)%nat ->
  argsFrom args start n = take n (drop start args).
Proof.
  revert start. induction n as [|n IH]; intros start H; [done|].
  rewrite argsFrom_S, IH by lia.
  destruct (lookup_lt_is_Some_2 args start ltac:(lia)) as [v Hv].
  rewrite (drop_S _ _ _ Hv), getArg_nat, Hv. reflexivity.
Qed.

(** Defining the next element of an array under construction. *)
Lemma define_template_element rt t vs v i :
  heap rt !! t = Some (templateCell vs) ->
  length vs = i ->
  Z.of_nat (length vs) < 2 ^ 32 - 1 ->
  defineOwnComputedPrimitive t (encodeNumberValue (Z.of_nat i))
      templateElementDPF v rt =
    Some (Returned true,
          setHeap (<[t := templateCell (vs ++ [v])]> (heap rt)) rt).
Proof.
  intros Ht <- Hlen. unfold defineOwnComputedPrimitive.
  rewrite toArrayIndex_encode by lia. rewrite Nat2Z.id.
  unfold bind at 1. rewrite (getCell_eq _ _ _ Ht).
  assert (Hnone : lookupIndexed (templateCell vs) (length vs) = None).
  { unfold lookupIndexed, templateCell; simpl.
    rewrite lookup_ge_None_2; [done|]. by rewrite length_fmap. }
  unfold defineIndexedIn.
  rewrite Hnone. unfold addIndexed. cbn [noExtend templateCell kind isJSArray].
  cbn [named lookup list_lookup lengthPropIndex].
  unfold lengthOf. cbn [named templateCell lookup list_lookup lengthPropIndex].
  unfold encodeNumberValue at 1. rewrite getNumberAs_uint32_ofZ by lia.
  rewrite Z.leb_refl. cbn [propFlags lengthFlags writable].
  unfold bind, setCell, ret. f_equal. f_equal. f_equal. f_equal.
  unfold templateCell, withIndexed, putLength, withNamed; simpl.
  f_equal.
  - rewrite length_app. simpl. do 3 f_equal. lia.
  - unfold storeIndexed. rewrite length_fmap.
    destruct (decide _) as [?|_]; [lia|].
    rewrite Nat.sub_diag, fmap_app. reflexivity.
Qed.

Lemma getTemplateObject_loop_spec (args : NativeArgs) (t r : ObjRef)
    (cookedBegin : nat) (n : nat) :
  forall (rt : Runtime) (cs rs : list HermesValue),
    t <> r ->
    heap rt !! t = Some (templateCell cs) ->
    heap rt !! r = Some (templateCell rs) ->
    length rs = length cs ->
    Z.of_nat (length cs + n) < 2 ^ 32 - 1 ->
    Z.of_nat (cookedBegin + length cs + n) <= 2 ^ 32 ->
    getTemplateObject_loop n (Z.of_nat (length cs)) (Z.of_nat cookedBegin)
        args t r rt =
      Some (tt,
            setHeap
              (<[r := templateCell (rs ++ argsFrom args (2 + length cs) n)]>
                 (<[t := templateCell
                           (cs ++ argsFrom args (cookedBegin + length cs) n)]>
                    (heap rt))) rt).
Proof.
  induction n as [|n IH]; intros rt cs rs Hne Ht Hr Hlen Hidx Hargs.
  - simpl. unfold ret, argsFrom. simpl. rewrite !app_nil_r.
    rewrite (list_insert_id (heap rt) t) by done.
    rewrite (list_insert_id (heap rt) r) by done. by destruct rt.
  - cbn [getTemplateObject_loop]. rewrite !u32_small by lia.
    unfold bind at 1.
    rewrite (define_template_element _ _ _ _ _ Ht eq_refl) by lia.
    set (rt1 := setHeap _ rt).
    unfold assertM at 1. cbn [isReturnedTrue]. unfold bind at 1. cbn [ret].
    unfold bind at 1.
    assert (Hr1 : heap rt1 !! r = Some (templateCell rs)).
    { unfold rt1; simpl. by rewrite list_lookup_insert_ne. }
    rewrite (define_template_element _ _ _ _ _ Hr1 Hlen) by lia.
    set (rt2 := setHeap _ rt1).
    unfold assertM at 1. cbn [isReturnedTrue]. unfold bind at 1. cbn [ret].
    set (cs' := cs ++ [getArg args (Z.of_nat cookedBegin + Z.of_nat (length cs))]).
    set (rs' := rs ++ [getArg args (2 + Z.of_nat (length cs))]).
    assert (Hcs' : length cs' = S (length cs)).
    { unfold cs'. rewrite length_app. simpl. lia. }
    assert (Hrs' : length rs' = S (length cs)).
    { unfold rs'. rewrite length_app. simpl. lia. }
    replace (Z.of_nat (length cs) + 1) with (Z.of_nat (length cs')) by lia.
    assert (Ht2 : heap rt2 !! t = Some (templateCell cs')).
    { unfold rt2, rt1; simpl. rewrite list_lookup_insert_ne by done.
      apply list_lookup_insert_eq. by eapply lookup_lt_Some. }
    assert (Hr2 : heap rt2 !! r = Some (templateCell rs')).
    { unfold rt2; simpl. apply list_lookup_insert_eq.
      unfold rt1; simpl. rewrite length_insert. by eapply lookup_lt_Some. }
    rewrite (IH rt2 cs' rs' Hne Ht2 Hr2) by lia.
    f_equal. f_equal. unfold rt2, rt1. rewrite !setHeap_setHeap. simpl.
    f_equal.
    rewrite (list_insert_insert_ne _ r t) by done.
    rewrite list_insert_insert_eq.
    rewrite (list_insert_insert_ne _ t r) by done.
    rewrite list_insert_insert_eq.
    rewrite !argsFrom_S, Hcs'. unfold cs', rs'. rewrite <- !app_assoc.
    replace (cookedBegin + S (length cs))%nat
      with (S (cookedBegin + length cs)) by lia.
    replace (Z.of_nat cookedBegin + Z.of_nat (length cs))
      with (Z.of_nat (cookedBegin + length cs)) by lia.
    replace (2 + Z.of_nat (length cs)) with (Z.of_nat (S (S (length cs)))) by lia.
    reflexivity.
Qed.

Lemma templateCount_Z (dup : bool) (args : NativeArgs) :
  (3 <= length args)%nat ->
  Z.of_nat (length args) < 2 ^ 32 ->
  u32 (if dup then getArgCount args - 2 else getArgCount args / 2 - 1)
  = Z.of_nat (templateCount dup args).
Proof.
  intros H3 Hlt. unfold getArgCount, templateCount.
  assert (H2 : (1 <= length args / 2)%nat).
  { apply (Nat.div_le_lower_bound _ 2 1); lia. }
  assert (Hd : Z.of_nat (length args) / 2 = Z.of_nat (length args / 2)).
  { by rewrite (Nat2Z.inj_div _ 2). }
  assert (Hd2 : Z.of_nat (length args / 2) <= Z.of_nat (length args)).
  { apply Nat2Z.inj_le. apply Nat.Div0.div_le_upper_bound. lia. }
  destruct dup; rewrite u32_small; lia.
Qed.

(** A call that misses the cache, described exactly: it allocates the raw
    array and then the template object, fills and freezes them, caches the
    template object under the call-site id and returns it. *)
Lemma getTemplateObject_fresh (args : NativeArgs) (rt : Runtime)
    (fr : StackFrame) (rest : list StackFrame) (d : JSNumber) (id : Z)
    (dup : bool) (cb : CodeBlock) (md : RuntimeModule) :
  (3 <= length args)%nat ->
  Z.of_nat (length args) < 2 ^ 32 ->
  getArg args 0 = HVNumber d ->
  getNumberAs_uint32 d = Some id ->
  getArg args 1 = HVBool dup ->
  stackFrames rt = fr :: rest ->
  savedCodeBlock fr = Some cb ->
  modules rt !! getRuntimeModule cb = Some md ->
  templateMap md !! id = None ->
  (dup = false -> Z.of_nat (length args) mod 2 = 0) ->
  hermesBuiltinGetTemplateObject args rt =
    Some (Returned (HVObject (S (length (heap rt)))),
          templateRuntimeAfter rt args dup (getRuntimeModule cb) md id).
Proof.
  intros H3 Hlt Ha0 Hid Ha1 Hfr Hcb Hmd Hmiss Heven.
  unfold templateRuntimeAfter. set (n := templateCount dup args).
  unfold hermesBuiltinGetTemplateObject.
  destruct (Z.ltb_spec (getArgCount args) 3) as [Hc|_];
    [unfold getArgCount in Hc; lia|].
  rewrite Ha0, Ha1. cbn [isNumber isBool negb getNumber getBool].
  unfold bind at 1. cbn [ret]. unfold bind at 1. rewrite Hid. cbn [liftOpt ret].
  unfold bind at 1. unfold getRuntime. rewrite Hfr. cbn [head liftOpt].
  unfold bind at 1. cbn [ret]. rewrite Hcb.
  unfold bind at 1. unfold findCachedTemplateObject. rewrite Hmd, Hmiss.
  unfold bind at 1. cbn [ret].
  assert (Hpar : negb dup && (getArgCount args mod 2 =? 1) = false).
  { destruct dup; [done|]. simpl. unfold getArgCount.
    rewrite (Heven eq_refl). reflexivity. }
  rewrite Hpar, (templateCount_Z dup args H3 Hlt). fold n.
  assert (Hn : (if dup then 2 + n <= length args
                else 2 + n + n <= length args)%nat).
  { unfold n, templateCount. destruct dup; [lia|].
    specialize (Heven eq_refl).
    assert (length args = 2 * (length args / 2))%nat.
    { pose proof (Nat.div_mod_eq (length args) 2) as Hdm.
      assert (length args mod 2 = 0)%nat.
      { apply Nat2Z.inj. rewrite (Nat2Z.inj_mod _ 2). exact Heven. }
      lia. }
    lia. }
  assert (Hcbeg : u32 (if dup then 2 else 2 + Z.of_nat n)
                  = Z.of_nat (if dup then 2 else 2 + n)%nat).
  { destruct dup; rewrite u32_small; lia. }
  rewrite Hcbeg.
  unfold JSArray_create. unfold bind at 1. unfold bind at 1.
  unfold allocCell at 1. cbn [ret].
  unfold bind at 1. unfold bind at 1. unfold allocCell at 1. cbn [ret].
  rewrite setHeap_setHeap, !heap_setHeap, Nat2Z.id, length_app. cbn [length].
  replace (length (heap rt) + 1)%nat with (S (length (heap rt))) by lia.
  rewrite <- app_assoc. cbn [app].
  change (encodeNumberValue 0)
    with (encodeNumberValue (Z.of_nat (@length HermesValue []))).
  change (mkObj ArrayKind false _ []) with (templateCell []).
  unfold bind at 1.
  assert (Hne : S (length (heap rt)) <> length (heap rt)) by lia.
  change 0 with (Z.of_nat (@length HermesValue [])) at 1.
  rewrite (getTemplateObject_loop_spec args (S (length (heap rt))) (length (heap rt)) _ n
             (setHeap (heap rt ++ [templateCell []; templateCell []]) rt)
             [] [] Hne
             (lookup_two_second (heap rt) _ _) (lookup_two_first (heap rt) _ _)
             eq_refl);
    [|simpl; destruct dup; lia|simpl; destruct dup; lia].
  cbn [length app Nat.add].
  rewrite setHeap_setHeap, !heap_setHeap.
  rewrite ?insert_two_second, ?insert_two_first.
  set (raw := argsFrom args 2 n).
  set (cooked := argsFrom args _ n).
  unfold bind at 1.
  erewrite (defineOwnProperty_length_readOnly _ (length (heap rt)) (templateCell raw));
    [|apply lookup_two_first|reflexivity|reflexivity].
  rewrite setHeap_setHeap, !heap_setHeap.
  rewrite ?insert_two_second, ?insert_two_first.
  unfold bind at 1.
  erewrite (preventExtensions_eq _ (length (heap rt))); [|apply lookup_two_first].
  rewrite setHeap_setHeap, !heap_setHeap.
  rewrite ?insert_two_second, ?insert_two_first.
  unfold bind at 1.
  erewrite (defineNewOwnProperty_fresh _ (S (length (heap rt))));
    [|apply lookup_two_second|reflexivity].
  rewrite setHeap_setHeap, !heap_setHeap.
  rewrite ?insert_two_second, ?insert_two_first.
  unfold bind at 1.
  erewrite (defineOwnProperty_length_readOnly _ (S (length (heap rt))));
    [|apply lookup_two_second|reflexivity|reflexivity].
  rewrite setHeap_setHeap, !heap_setHeap.
  rewrite ?insert_two_second, ?insert_two_first.
  unfold bind at 1.
  erewrite (preventExtensions_eq _ (S (length (heap rt)))); [|apply lookup_two_second].
  rewrite setHeap_setHeap, !heap_setHeap.
  rewrite ?insert_two_second, ?insert_two_first.
  unfold bind at 1. unfold cacheTemplateObject.
  change (modules (setHeap ?h rt)) with (modules rt).
  rewrite Hmd. cbn [ret].
  unfold setModules, setHeap, ret. cbn [heap stackFrames thrownValue modules].
  rewrite Hfr.
  unfold frozenArray, templateCell, withNoExtend, withNamed; cbn.
  unfold raw, cooked. rewrite Nat.add_0_r, !length_argsFrom. reflexivity.
Qed.

(** The three ways a call can end: an error raised before anything is
    built, a cache hit, or a cache miss that builds the template object. *)
Lemma getTemplateObject_cases (args : NativeArgs) (rt : Runtime)
    (res : CallResult HermesValue) (rt' : Runtime) :
  Z.of_nat (length args) < 2 ^ 32 ->
  hermesBuiltinGetTemplateObject args rt = Some (res, rt') ->
  (exists e, res = EXCEPTION /\ rt' = setThrownValue (Some e) rt)
  \/ (exists m id o,
        callSite rt args = Some (m, id)
        /\ cachedTemplate rt m id = Some o
        /\ res = Returned (HVObject o) /\ rt' = rt)
  \/ (exists m id md dup,
        callSite rt args = Some (m, id)
        /\ modules rt !! m = Some md
        /\ templateMap md !! id = None
        /\ getArg args 1 = HVBool dup
        /\ (3 <= length args)%nat
        /\ (dup = false -> Z.of_nat (length args) mod 2 = 0)
        /\ res = Returned (HVObject (S (length (heap rt))))
        /\ rt' = templateRuntimeAfter rt args dup m md id).
Proof.
  intros Hlt Hcall.
  pose proof Hcall as Hcall0.
  unfold hermesBuiltinGetTemplateObject in Hcall.
  destruct (Z.ltb_spec (getArgCount args) 3) as [|H3].
  { raised Hcall. }
  unfold getArgCount in H3.
  destruct (getArg args 0) as [| | | | d | | |] eqn:Ha0;
    try (raised Hcall).
  destruct (getArg args 1) as [| | | dup | | | |] eqn:Ha1;
    try (raised Hcall).
  cbn [isNumber isBool negb getNumber] in Hcall.
  unfold bind at 1 in Hcall. cbn [ret] in Hcall.
  unfold bind at 1 in Hcall.
  destruct (getNumberAs_uint32 d) as [id|] eqn:Hid; [|discriminate].
  cbn [liftOpt ret] in Hcall.
  unfold bind at 1 in Hcall. unfold getRuntime in Hcall.
  destruct (stackFrames rt) as [|fr rest] eqn:Hfr; [discriminate|].
  cbn [head liftOpt] in Hcall. unfold bind at 1 in Hcall. cbn [ret] in Hcall.
  destruct (savedCodeBlock fr) as [cb|] eqn:Hcb;
    [|raised Hcall].
  unfold bind at 1 in Hcall. unfold findCachedTemplateObject in Hcall.
  destruct (modules rt !! getRuntimeModule cb) as [md|] eqn:Hmd; [|discriminate].
  assert (Hsite : callSite rt args = Some (getRuntimeModule cb, id)).
  { unfold callSite. by rewrite Hfr, Ha0; cbn; rewrite Hcb, Hid. }
  destruct (templateMap md !! id) as [o|] eqn:Hmiss.
  { right; left. exists (getRuntimeModule cb), id, o.
    unfold cachedTemplate. rewrite Hmd. cbn. rewrite Hmiss.
    unfold ret in Hcall. injection Hcall as <- <-. auto. }
  cbn [getBool] in Hcall. unfold bind at 1 in Hcall. cbn [ret] in Hcall.
  destruct (negb dup && (getArgCount args mod 2 =? 1)) eqn:Hpar.
  { raised Hcall. }
  right; right. exists (getRuntimeModule cb), id, md, dup.
  assert (Heven : dup = false -> Z.of_nat (length args) mod 2 = 0).
  { intros ->. cbn in Hpar. unfold getArgCount in Hpar.
    apply Z.eqb_neq in Hpar.
    pose proof (Z.mod_pos_bound (Z.of_nat (length args)) 2). lia. }
  rewrite (getTemplateObject_fresh args rt fr rest d id dup cb md) in Hcall0
    by (assumption || lia).
  inversion Hcall0. repeat split; auto. lia.
Qed.

(** *** The cache across the life of a runtime *)

Lemma cachedTemplate_other rt rt' m id :
  OtherStep rt rt' -> cachedTemplate rt' m id = cachedTemplate rt m id.
Proof.
  intros [[k Hk] _]. unfold cachedTemplate. rewrite Hk.
  destruct (decide (m < length (modules rt))%nat) as [Hlt|Hge].
  - by rewrite lookup_app_l.
  - rewrite lookup_app_r by lia.
    rewrite (lookup_ge_None_2 (modules rt)) by lia. cbn.
    destruct (replicate k (mkModule ∅) !! _) as [md|] eqn:Hmd; [|done].
    apply lookup_replicate in Hmd as [-> _]. cbn. apply lookup_empty.
Qed.

Lemma cachedTemplate_after rt args dup m md id m' id' :
  modules rt !! m = Some md ->
  cachedTemplate (templateRuntimeAfter rt args dup m md id) m' id'
  = if decide (m' = m /\ id' = id) then Some (S (length (heap rt)))
    else cachedTemplate rt m' id'.
Proof.
  intros Hmd. unfold cachedTemplate, templateRuntimeAfter. cbn [modules].
  destruct (decide (m' = m)) as [->|Hm].
  - rewrite list_lookup_insert_eq by (by eapply lookup_lt_Some).
    rewrite Hmd. cbn.
    destruct (decide (id' = id)) as [->|Hi].
    + rewrite lookup_insert_eq. by rewrite decide_True.
    + rewrite lookup_insert_ne by done. rewrite decide_False; [done|tauto].
  - rewrite list_lookup_insert_ne by done. rewrite decide_False; [done|tauto].
Qed.

Lemma CachesWellFormed_other rt rt' :
  OtherStep rt rt' -> CachesWellFormed rt -> CachesWellFormed rt'.
Proof.
  intros Hstep [Halloc Hinj]. split.
  - intros m id o. rewrite (cachedTemplate_other _ _ _ _ Hstep). intros H.
    apply Halloc in H. destruct Hstep as [_ Hle]. lia.
  - intros m id m' id' o. rewrite !(cachedTemplate_other _ _ _ _ Hstep).
    apply Hinj.
Qed.

Lemma CachesWellFormed_after rt args dup m md id :
  modules rt !! m = Some md ->
  CachesWellFormed rt ->
  CachesWellFormed (templateRuntimeAfter rt args dup m md id).
Proof.
  intros Hmd [Halloc Hinj]. split.
  - intros m' id' o. rewrite (cachedTemplate_after _ _ _ _ _ _ _ _ Hmd).
    unfold templateRuntimeAfter. cbn [heap]. rewrite length_app. cbn [length].
    case_decide.
    + intros [= <-]. lia.
    + intros H'. apply Halloc in H'. lia.
  - intros m1 id1 m2 id2 o.
    rewrite !(cachedTemplate_after _ _ _ _ _ _ _ _ Hmd).
    repeat case_decide.
    + intros _ _. intuition congruence.
    + intros [= <-] H'. apply Halloc in H'. lia.
    + intros H' [= <-]. apply Halloc in H'. lia.
    + apply Hinj.
Qed.

Lemma CachesWellFormed_empty rt :
  (forall m md, modules rt !! m = Some md -> templateMap md = ∅) ->
  CachesWellFormed rt.
Proof.
  intros Hempty.
  assert (Hnone : forall m id, cachedTemplate rt m id = None).
  { intros m id. unfold cachedTemplate.
    destruct (modules rt !! m) as [md|] eqn:Hmd; [|done]. cbn.
    rewrite (Hempty _ _ Hmd). apply lookup_empty. }
  split; intros *; by rewrite Hnone.
Qed.

(** Along the life of a runtime the caches stay well formed and every
    observation is in the cache. *)
Lemma Lifetime_invariant rt0 obs rt :
  CachesWellFormed rt0 ->
  Lifetime rt0 obs rt ->
  CachesWellFormed rt
  /\ forall m id o, (m, id, o) ∈ obs -> cachedTemplate rt m id = Some o.
Proof.
  intros Hwf0 Hlife.
  induction Hlife as [|obs rt args res rt' Hlife [Hwf Hobs] Hlen Hcall
                      |obs rt rt' Hlife [Hwf Hobs] Hstep].
  - split; [done|]. intros m id o Hin. by apply elem_of_nil in Hin.
  - destruct (getTemplateObject_cases _ _ _ _ Hlen Hcall)
      as [(e & -> & ->)
         |[(m & id & o & Hsite & Hc & -> & ->)
          |(m & id & md & dup & Hsite & Hmd & Hmiss & _ & _ & _ & -> & ->)]].
    + split; [exact Hwf|]. intros m id o Hin.
      unfold observation in Hin. rewrite app_nil_r in Hin. by apply Hobs.
    + split; [exact Hwf|]. intros m' id' o' Hin.
      unfold observation in Hin. rewrite Hsite in Hin.
      apply elem_of_app in Hin as [Hin|Hin]; [by apply Hobs|].
      apply list_elem_of_singleton in Hin. by injection Hin as -> -> ->.
    + split; [by apply CachesWellFormed_after|]. intros m' id' o' Hin.
      rewrite (cachedTemplate_after _ _ _ _ _ _ _ _ Hmd).
      unfold observation in Hin. rewrite Hsite in Hin.
      apply elem_of_app in Hin as [Hin|Hin].
      * apply Hobs in Hin. case_decide as Heq; [|done].
        destruct Heq as [-> ->]. unfold cachedTemplate in Hin.
        rewrite Hmd in Hin. cbn in Hin. congruence.
      * apply list_elem_of_singleton in Hin. injection Hin as -> -> ->.
        by rewrite decide_True.
  - split; [by eapply CachesWellFormed_other|]. intros m id o Hin.
    rewrite (cachedTemplate_other _ _ _ _ Hstep). by apply Hobs.
Qed.

(** C1. Along the whole life of a runtime whose caches start well formed
    (for instance empty), whatever the arguments of the calls and whatever
    happens between them, two calls to [getTemplateObject] that returned
    did so with the same object exactly when they were made from the same
    module with the same call-site id: the same pair gives the identical
    reference, even with different literal arguments, and a different
    call-site id, or another module, gives a distinct object. *)
Theorem template_identity (rt0 : Runtime) (obs : list (nat * Z * ObjRef))
    (rt : Runtime) :
  CachesWellFormed rt0 ->
  Lifetime rt0 obs rt ->
  forall m id o m' id' o',
    (m, id, o) ∈ obs -> (m', id', o') ∈ obs ->
    (m = m' /\ id = id') <-> o = o'.
Proof.
  intros Hwf0 Hlife m id o m' id' o' Hin Hin'.
  destruct (Lifetime_invariant _ _ _ Hwf0 Hlife) as [[_ Hinj] Hobs].
  apply Hobs in Hin, Hin'. split.
  - intros [-> ->]. congruence.
  - intros ->. by eapply Hinj.
Qed.

Lemma template_identity_witness :
  Lifetime templateRuntime
    [(0%nat, 7, 1%nat); (0%nat, 7, 1%nat); (0%nat, 8, 3%nat)]
    (stateAfter templateArgsC
       (stateAfter templateArgsB (stateAfter templateArgsA templateRuntime)))
  /\ ((0%nat = 0%nat /\ 7 = 7) <-> 1%nat = 1%nat)
  /\ ((0%nat = 0%nat /\ 7 = 8) <-> 1%nat = 3%nat).
Proof.
  assert (Hwf : CachesWellFormed templateRuntime).
  { apply CachesWellFormed_empty. intros [|m] md; [|done].
    by intros [= <-]. }
  assert (Hlife : Lifetime templateRuntime
                    [(0%nat, 7, 1%nat); (0%nat, 7, 1%nat); (0%nat, 8, 3%nat)]
                    (stateAfter templateArgsC
                       (stateAfter templateArgsB
                          (stateAfter templateArgsA templateRuntime)))).
  { pose proof (Lifetime_call _ _ _ templateArgsA (Returned (HVObject 1%nat))
                  (stateAfter templateArgsA templateRuntime)
                  (Lifetime_start templateRuntime)
                  ltac:(vm_compute; reflexivity)
                  ltac:(vm_compute; reflexivity)) as L1.
    pose proof (Lifetime_call _ _ _ templateArgsB (Returned (HVObject 1%nat))
                  (stateAfter templateArgsB
                     (stateAfter templateArgsA templateRuntime))
                  L1
                  ltac:(vm_compute; reflexivity)
                  ltac:(vm_compute; reflexivity)) as L2.
    pose proof (Lifetime_call _ _ _ templateArgsC (Returned (HVObject 3%nat))
                  (stateAfter templateArgsC
                     (stateAfter templateArgsB
                        (stateAfter templateArgsA templateRuntime)))
                  L2
                  ltac:(vm_compute; reflexivity)
                  ltac:(vm_compute; reflexivity)) as L3.
    exact L3. }
  split; [exact Hlife|]. split.
  - apply (template_identity _ _ _ Hwf Hlife); set_solver.
  - apply (template_identity _ _ _ Hwf Hlife); set_solver.
Defined.

(** *** The shape of a template object *)

Lemma lookupIndexed_frozen vs extra i p :
  lookupIndexed (frozenArray vs extra) i = Some p ->
  idxFlags p = frozenElementFlags.
Proof.
  unfold lookupIndexed, frozenArray, frozenElement; cbn.
  rewrite list_lookup_fmap. destruct (vs !! i); cbn; [|done].
  by intros [= <-].
Qed.

Lemma elementsOf_frozenArray vs extra : elementsOf (frozenArray vs extra) = vs.
Proof.
  unfold elementsOf, frozenArray; cbn.
  rewrite <- list_fmap_compose. by rewrite list_fmap_id.
Qed.

(** C2. After a call to [getTemplateObject] that returned and did not find
    its call site in the cache, the result is a template object [t] with a
    raw array [r] such that: every indexed element of [t] and of [r] is a
    data property with writable false, configurable false and enumerable
    true; the property [raw] of [t] holds [r] with writable, configurable
    and enumerable all false; the [length] of both is neither writable nor
    configurable; and both are not extensible. *)
Theorem getTemplateObject_frozen (args : NativeArgs) (rt : Runtime)
    (v : HermesValue) (rt' : Runtime) (m : nat) (id : Z) :
  Z.of_nat (length args) < 2 ^ 32 ->
  hermesBuiltinGetTemplateObject args rt = Some (Returned v, rt') ->
  callSite rt args = Some (m, id) ->
  cachedTemplate rt m id = None ->
  exists (t r : ObjRef) (tObj rObj : JSObject),
    v = HVObject t
    /\ heap rt' !! t = Some tObj
    /\ heap rt' !! r = Some rObj
    /\ rawProperty tObj r
    /\ elementsFrozen tObj /\ elementsFrozen rObj
    /\ lengthReadOnly tObj /\ lengthReadOnly rObj
    /\ noExtend tObj = true /\ noExtend rObj = true.
Proof.
  intros Hlen Hcall Hsite Hmiss.
  destruct (getTemplateObject_cases _ _ _ _ Hlen Hcall)
    as [(e & [=] & _)
       |[(m1 & id1 & o & Hsite1 & Hc & _ & _)
        |(m1 & id1 & md & dup & _ & _ & _ & _ & _ & _ & [= ->] & ->)]].
  { rewrite Hsite in Hsite1. injection Hsite1 as <- <-. congruence. }
  unfold templateRuntimeAfter. cbn [heap].
  eexists (S (length (heap rt))), (length (heap rt)), _, _.
  split; [reflexivity|].
  split; [apply lookup_two_second|]. split; [apply lookup_two_first|].
  split; [by exists 1%nat|].
  split; [intros i p; apply lookupIndexed_frozen|].
  split; [intros i p; apply lookupIndexed_frozen|].
  split; [by eexists 0%nat, _|]. split; [by eexists 0%nat, _|]. done.
Qed.

Lemma getTemplateObject_frozen_witness :
  exists (t r : ObjRef) (tObj rObj : JSObject),
    HVObject 1%nat = HVObject t
    /\ heap (stateAfter templateArgsA templateRuntime) !! t = Some tObj
    /\ heap (stateAfter templateArgsA templateRuntime) !! r = Some rObj
    /\ rawProperty tObj r
    /\ elementsFrozen tObj /\ elementsFrozen rObj
    /\ lengthReadOnly tObj /\ lengthReadOnly rObj
    /\ noExtend tObj = true /\ noExtend rObj = true.
Proof.
  apply (getTemplateObject_frozen templateArgsA templateRuntime
           (HVObject 1%nat) (stateAfter templateArgsA templateRuntime)
           0%nat 7);
    vm_compute; reflexivity.
Defined.

(** *** The arguments of a template object *)

(** C6, as the code has it.  In a call that does not find its call site in
    the cache, the arguments after the call-site id and the [dup] flag are
    read as [n] raw strings when [dup] is true, and as [n] raw strings
    followed by [n] cooked strings when [dup] is false, [n] being the
    number of elements of the template object: the raw array holds the raw
    strings, the template object the cooked ones, which are the raw ones
    when [dup].  When [dup] is false and the number of those arguments is
    odd, the call raises a type error and builds nothing. *)
Theorem getTemplateObject_arguments (args : NativeArgs) (rt : Runtime)
    (fr : StackFrame) (rest : list StackFrame) (d : JSNumber) (id : Z)
    (dup : bool) (cb : CodeBlock) (md : RuntimeModule) :
  (3 <= length args)%nat ->
  Z.of_nat (length args) < 2 ^ 32 ->
  getArg args 0 = HVNumber d ->
  getNumberAs_uint32 d = Some id ->
  getArg args 1 = HVBool dup ->
  stackFrames rt = fr :: rest ->
  savedCodeBlock fr = Some cb ->
  modules rt !! getRuntimeModule cb = Some md ->
  templateMap md !! id = None ->
  if negb dup && Nat.odd (length (trailingArgs args)) then
    hermesBuiltinGetTemplateObject args rt =
      Some (EXCEPTION,
            setThrownValue
              (Some (TypeError
                 "There must be the same number of raw and cooked strings."))
              rt)
  else
    exists (rt' : Runtime) (tObj rObj : JSObject)
           (raw cooked : list HermesValue),
      hermesBuiltinGetTemplateObject args rt =
        Some (Returned (HVObject (S (length (heap rt)))), rt')
      /\ heap rt' !! S (length (heap rt)) = Some tObj
      /\ heap rt' !! length (heap rt) = Some rObj
      /\ rawProperty tObj (length (heap rt))
      /\ elementsOf rObj = raw
      /\ elementsOf tObj = cooked
      /\ length raw = length cooked
      /\ trailingArgs args = (if dup then raw else raw ++ cooked)
      /\ (dup = true -> cooked = raw).
Proof.
  intros H3 Hlt Ha0 Hid Ha1 Hfr Hcb Hmd Hmiss.
  assert (Htrail : length (trailingArgs args) = (length args - 2)%nat).
  { unfold trailingArgs. by rewrite length_drop. }
  assert (Hodd : Nat.odd (length (trailingArgs args))
                 = (Z.of_nat (length args) mod 2 =? 1)).
  { rewrite Htrail.
    replace (length args) with (2 + (length args - 2))%nat at 2 by lia.
    rewrite <- Nat.negb_even.
    rewrite Nat2Z.inj_add, <- Zplus_mod_idemp_l. cbn [Z.of_nat Z.modulo].
    change (Z.pos 2 mod 2) with 0. rewrite Z.add_0_l.
    rewrite <- (Nat2Z.inj_mod _ 2).
    destruct (Nat.even _) eqn:He.
    - apply Nat.even_spec in He as [k ->].
      rewrite Nat.mul_comm, Nat.Div0.mod_mul. reflexivity.
    - apply (f_equal negb) in He. rewrite Nat.negb_even in He. cbn in He.
      apply Nat.odd_spec in He as [k ->].
      replace (2 * k + 1)%nat with (1 + k * 2)%nat by lia.
      rewrite Nat.Div0.mod_add. reflexivity. }
  destruct (negb dup && Nat.odd (length (trailingArgs args))) eqn:Hpar.
  - (* the type error *)
    rewrite Hodd in Hpar.
    unfold hermesBuiltinGetTemplateObject.
    destruct (Z.ltb_spec (getArgCount args) 3) as [Hc|_];
      [unfold getArgCount in Hc; lia|].
    rewrite Ha0, Ha1. cbn [isNumber isBool negb getNumber getBool].
    unfold bind at 1. cbn [ret]. unfold bind at 1. rewrite Hid.
    cbn [liftOpt ret].
    unfold bind at 1. unfold getRuntime. rewrite Hfr. cbn [head liftOpt].
    unfold bind at 1. cbn [ret]. rewrite Hcb.
    unfold bind at 1. unfold findCachedTemplateObject. rewrite Hmd, Hmiss.
    unfold bind at 1. cbn [ret]. unfold getArgCount. rewrite Hpar.
    reflexivity.
  - assert (Heven : dup = false -> Z.of_nat (length args) mod 2 = 0).
    { intros ->. cbn in Hpar. rewrite Hodd in Hpar. apply Z.eqb_neq in Hpar.
      pose proof (Z.mod_pos_bound (Z.of_nat (length args)) 2). lia. }
    rewrite (getTemplateObject_fresh args rt fr rest d id dup cb md)
      by assumption.
    unfold templateRuntimeAfter. cbn [heap].
    set (n := templateCount dup args).
    eexists _, _, _, (argsFrom args 2 n),
      (argsFrom args (if dup then 2 else 2 + n) n).
    split; [reflexivity|].
    split; [apply lookup_two_second|]. split; [apply lookup_two_first|].
    split; [by exists 1%nat|].
    split; [apply elementsOf_frozenArray|].
    split; [apply elementsOf_frozenArray|].
    split; [by rewrite !length_argsFrom|].
    assert (Hn : (if dup then 2 + n = length args
                  else 2 + n + n = length args)%nat).
    { unfold n, templateCount. destruct dup; [lia|].
      specialize (Heven eq_refl).
      assert (length args mod 2 = 0)%nat.
      { apply Nat2Z.inj. rewrite (Nat2Z.inj_mod _ 2). exact Heven. }
      pose proof (Nat.div_mod_eq (length args) 2).
      assert (1 <= length args / 2)%nat
        by (apply (Nat.div_le_lower_bound _ 2 1); lia).
      lia. }
    split; [|by intros ->].
    unfold trailingArgs. destruct dup.
    + rewrite argsFrom_slice by lia. rewrite take_ge; [done|].
      rewrite length_drop. lia.
    + rewrite !argsFrom_slice by lia.
      rewrite <- (take_drop n (drop 2 args)) at 1. f_equal.
      rewrite drop_drop. rewrite take_ge; [by rewrite (Nat.add_comm 2 n)|].
      rewrite length_drop. lia.
Qed.

Lemma getTemplateObject_arguments_witness :
  exists (rt' : Runtime) (tObj rObj : JSObject) (raw cooked : list HermesValue),
    hermesBuiltinGetTemplateObject templateArgsA templateRuntime =
      Some (Returned (HVObject 1%nat), rt')
    /\ heap rt' !! 1%nat = Some tObj
    /\ heap rt' !! 0%nat = Some rObj
    /\ rawProperty tObj 0%nat
    /\ elementsOf rObj = raw
    /\ elementsOf tObj = cooked
    /\ length raw = length cooked
    /\ trailingArgs templateArgsA = raw ++ cooked
    /\ (false = true -> cooked = raw).
Proof.
  apply (getTemplateObject_arguments templateArgsA templateRuntime
           templateFrame [] (ofZ 7) 7 false (mkCodeBlock 0%nat) (mkModule ∅));
    reflexivity || (simpl; lia).
Defined.

(** C6, as stated, fails.  With [dup] true and one string after the two
    fixed arguments, the template object has one element, and the stated
    count of such arguments is two; with [dup] false and two strings, the
    template object has one element, and the stated count is three.  And
    once call site 7 is in the cache, a call for it with [dup] false and
    an odd number of strings returns the cached object: no type error is
    raised and the runtime is left as it was. *)
Lemma getTemplateObject_raw_count :
  (exists (rt' : Runtime) (tObj : JSObject),
      hermesBuiltinGetTemplateObject templateArgsC templateRuntime =
        Some (Returned (HVObject 1%nat), rt')
      /\ heap rt' !! 1%nat = Some tObj
      /\ length (elementsOf tObj) = 1%nat
      /\ length (trailingArgs templateArgsC)
         <> statedTrailingCount true (length (elementsOf tObj)))
  /\ (exists (rt' : Runtime) (tObj : JSObject),
        hermesBuiltinGetTemplateObject templateArgsA templateRuntime =
          Some (Returned (HVObject 1%nat), rt')
        /\ heap rt' !! 1%nat = Some tObj
        /\ length (elementsOf tObj) = 1%nat
        /\ length (trailingArgs templateArgsA)
           <> statedTrailingCount false (length (elementsOf tObj)))
  /\ (Nat.odd (length (trailingArgs templateArgsD)) = true
      /\ hermesBuiltinGetTemplateObject templateArgsD
           (stateAfter templateArgsA templateRuntime) =
         Some (Returned (HVObject 1%nat),
               stateAfter templateArgsA templateRuntime)).
Proof.
  split; [|split].
  1,2: eexists _, _;
    (split; [vm_compute; reflexivity|]);
    (split; [reflexivity|]); (split; [reflexivity|]);
    vm_compute; discriminate.
  split; vm_compute; reflexivity.
Qed.

(** ** exportAll *)

Lemma kind_defineExport E p : kind (defineExport E p) = kind E.
Proof.
  unfold defineExport.
  destruct (defineNamedIn _ _ _ _) eqn:H; [|done].
  by apply kind_defineNamedIn in H.
Qed.

Lemma exportAll_loop (s e : ObjRef) (S : JSObject) (suffix : list NamedProp) :
  forall (k : nat) (rt : Runtime) (E : JSObject),
    heap rt !! s = Some S ->
    heap rt !! e = Some E ->
    e <> s ->
    isJSArray (kind E) = false ->
    drop k (named S) = suffix ->
    forEachEntryWhile (fun id => negb (isJSSymbol id)) k suffix
        (exportAll_CB s e) rt =
      Some (true,
            setHeap
              (<[e := foldl defineExport E (List.filter exportable suffix)]>
                 (heap rt)) rt).
Proof.
  induction suffix as [|p rest IH]; intros k rt E Hs He Hne Harr Hdrop.
  - cbn. unfold ret. by rewrite setHeap_insert_id.
  - assert (Hk : named S !! k = Some p).
    { rewrite <- (Nat.add_0_r k), <- lookup_drop, Hdrop. done. }
    assert (Hrest : drop (Datatypes.S k) (named S) = rest).
    { by rewrite (drop_S _ _ _ Hk) in Hdrop; injection Hdrop. }
    cbn [forEachEntryWhile List.filter]. unfold exportable at 1.
    destruct (isJSSymbol (propId p)) eqn:Hsym; cbn [negb andb].
    { unfold bind at 1. cbn [ret]. by apply IH. }
    unfold exportAll_CB at 1. cbn [npdFlags npdSlot].
    destruct (enumerable (propFlags p)) eqn:Hen; cbn [negb andb].
    2:{ unfold bind at 1. cbn [ret]. by apply IH. }
    destruct (bool_decide _) eqn:Hdef; cbn [negb].
    { unfold bind at 1. cbn [ret]. by apply IH. }
    unfold bind at 1. unfold bind at 1.
    unfold getNamedSlotValue. unfold bind at 1.
    rewrite (getCell_eq _ _ _ Hs). cbn [npdSlot]. rewrite Hk.
    cbn [fmap option_fmap option_map liftOpt ret].
    unfold bind at 1.
    rewrite (defineOwnProperty_quiet _ _ _ _ _ _ He Harr).
    cbn [ret foldl]. fold (defineExport E p).
    set (rt' := setHeap (<[e := defineExport E p]> (heap rt)) rt).
    rewrite (IH (Datatypes.S k) rt' (defineExport E p)).
    + unfold rt'. rewrite setHeap_setHeap, heap_setHeap.
      by rewrite list_insert_insert_eq.
    + unfold rt'. rewrite heap_setHeap. by rewrite list_lookup_insert_ne.
    + unfold rt'. rewrite heap_setHeap. apply list_lookup_insert_eq.
      by eapply lookup_lt_Some.
    + done.
    + by rewrite kind_defineExport.
    + done.
Qed.





(** ** copyDataProperties *)

Lemma kind_defineCopiedIndex T jv : kind (defineCopiedIndex T jv) = kind T.
Proof.
  unfold defineCopiedIndex.
  destruct (defineIndexedIn _ _ _ _) eqn:H; [|done].
  by apply kind_defineIndexedIn in H.
Qed.

Lemma kind_defineCopiedName T p : kind (defineCopiedName T p) = kind T.
Proof.
  unfold defineCopiedName.
  destruct (defineNamedIn _ _ _ _) eqn:H; [|done].
  by apply kind_defineNamedIn in H.
Qed.

Lemma kind_foldl_defineCopiedIndex l T :
  kind (foldl defineCopiedIndex T l) = kind T.
Proof.
  revert T. induction l as [|jv l IH]; intros T; [done|].
  cbn. by rewrite IH, kind_defineCopiedIndex.
Qed.

Lemma excluded_index_check rt xo X t i :
  excludedApart rt xo t ->
  excludedCell rt xo = X ->
  Z.of_nat i < 2 ^ 32 - 1 ->
  match xo with
  | Some x => getOwnComputedPrimitiveDescriptor x
                (encodeNumberValue (Z.of_nat i))
  | None => ret (Returned false)
  end rt = Some (Returned (hasOwnIndex X i), rt).
Proof.
  intros Hap HX Hi. destruct xo as [x|]; cbn in HX; subst X; [|done].
  destruct (Hap x eq_refl) as [_ [Xv HXv]].
  unfold getOwnComputedPrimitiveDescriptor.
  rewrite toArrayIndex_encode, Nat2Z.id by lia.
  unfold bind. rewrite (getCell_eq _ _ _ HXv). by rewrite HXv.
Qed.

Lemma excluded_after_step rt xo t o :
  excludedApart rt xo t ->
  excludedApart (setHeap (<[t := o]> (heap rt)) rt) xo t
  /\ excludedCell (setHeap (<[t := o]> (heap rt)) rt) xo = excludedCell rt xo.
Proof.
  intros Hap. split.
  - intros x Hx. destruct (Hap x Hx) as [Hne Hlive]. split; [done|].
    rewrite heap_setHeap. by rewrite list_lookup_insert_ne.
  - destruct xo as [x|]; [|done]. cbn. destruct (Hap x eq_refl) as [Hne _].
    by rewrite list_lookup_insert_ne.
Qed.

Lemma copyData_indexed_loop (s t : ObjRef) (xo : option ObjRef)
    (S : JSObject) (X : option JSObject) (n : nat) :
  forall (i : nat) (rt : Runtime) (T : JSObject),
    heap rt !! s = Some S ->
    heap rt !! t = Some T ->
    t <> s ->
    excludedApart rt xo t ->
    excludedCell rt xo = X ->
    Z.of_nat (i + n) <= 2 ^ 32 - 1 ->
    forEachIndexedWhile n i s (copyDataProperties_indexedCB s t xo) rt =
      Some (true,
            setHeap
              (<[t := foldl defineCopiedIndex T
                        (omap (copiedIndex S X) (seq i n))]> (heap rt)) rt).
Proof.
  induction n as [|n IH]; intros i rt T Hs Ht Hne Hap HX Hi.
  - cbn. unfold ret. by rewrite setHeap_insert_id.
  - cbn [forEachIndexedWhile seq omap list_omap].
    unfold bind at 1. rewrite (getCell_eq _ _ _ Hs).
    unfold copiedIndex at 1.
    destruct (lookupIndexed S i) as [p|] eqn:Hp.
    2:{ unfold bind at 1. cbn [ret]. apply IH; auto; lia. }
    unfold copyDataProperties_indexedCB at 1. cbn [cpdFlags].
    destruct (enumerable (idxFlags p)) eqn:Hen; cbn [negb andb].
    2:{ unfold bind at 1. cbn [ret]. apply IH; auto; lia. }
    unfold bind at 1. unfold bind at 1.
    rewrite (excluded_index_check rt xo X t i Hap HX) by lia.
    destruct (hasOwnIndex X i) eqn:Hex; cbn [negb].
    { cbn [ret]. apply IH; auto; lia. }
    unfold bind at 1. unfold getOwnIndexed. unfold bind at 1.
    rewrite (getCell_eq _ _ _ Hs), Hp. cbn [ret].
    unfold bind at 1.
    rewrite (defineOwnComputedPrimitive_quiet _ _ _ _ _ _ Ht) by lia.
    cbn [ret foldl]. fold (defineCopiedIndex T (i, idxValue p)).
    set (T' := defineCopiedIndex T (i, idxValue p)).
    destruct (excluded_after_step rt xo t T' Hap) as [Hap' HX'].
    rewrite (IH (Datatypes.S i) (setHeap (<[t := T']> (heap rt)) rt) T').
    + rewrite setHeap_setHeap, heap_setHeap.
      by rewrite list_insert_insert_eq.
    + rewrite heap_setHeap. by rewrite list_lookup_insert_ne.
    + rewrite heap_setHeap. apply list_lookup_insert_eq.
      by eapply lookup_lt_Some.
    + done.
    + done.
    + by rewrite HX'.
    + lia.
Qed.

Lemma excluded_name_check rt xo X t id :
  excludedApart rt xo t ->
  excludedCell rt xo = X ->
  match xo with
  | Some x =>
      let* cr := hasNamedOrIndexed x id in
      match cr with
      | EXCEPTION => stuck
      | Returned b => ret b
      end
  | None => ret false
  end rt = Some (hasOwnName X id, rt).
Proof.
  intros Hap HX. destruct xo as [x|]; cbn in HX; subst X; [|done].
  destruct (Hap x eq_refl) as [_ [Xv HXv]].
  unfold hasNamedOrIndexed, bind. rewrite (getCell_eq _ _ _ HXv).
  cbn. by rewrite HXv.
Qed.

Lemma kindAt_insert rt t T T' r :
  heap rt !! t = Some T ->
  kind T' = kind T ->
  kindAt (setHeap (<[t := T']> (heap rt)) rt) r = kindAt rt r.
Proof.
  intros Ht Hk. unfold kindAt. rewrite heap_setHeap.
  destruct (decide (r = t)) as [->|Hne].
  - rewrite list_lookup_insert_eq by (by eapply lookup_lt_Some).
    rewrite Ht. cbn. by rewrite Hk.
  - by rewrite list_lookup_insert_ne.
Qed.

(** Reading a property depends on the kinds of the cells only. *)
Lemma readOutcome_insert rt t T T' s p :
  heap rt !! t = Some T ->
  kind T' = kind T ->
  readOutcome (setHeap (<[t := T']> (heap rt)) rt) s p = readOutcome rt s p.
Proof.
  intros Ht Hk. unfold readOutcome.
  destruct (accessor (propFlags p)); [|done].
  destruct (propValue p) as [| | | | | | |a]; try done.
  rewrite (kindAt_insert _ _ _ _ a Ht Hk).
  destruct (kindAt rt a) as [[| | | |[g|]| |]|]; try done.
  by rewrite (kindAt_insert _ _ _ _ g Ht Hk).
Qed.

Lemma getNamedPropertyValue_reads rt s S k p v :
  heap rt !! s = Some S ->
  named S !! k = Some p ->
  readOutcome rt s p = Some (Returns v) ->
  getNamedPropertyValue_RJS s (HVObject s) (mkNPD (propFlags p) k) rt =
    Some (Returned v, rt).
Proof.
  intros Hs Hk Hread. unfold getNamedPropertyValue_RJS.
  unfold bind at 1. unfold getNamedSlotValue. unfold bind at 1.
  rewrite (getCell_eq _ _ _ Hs). cbn [npdSlot npdFlags]. rewrite Hk.
  cbn [fmap option_fmap option_map liftOpt ret].
  unfold readOutcome in Hread.
  destruct (accessor (propFlags p)); [|by injection Hread as ->].
  destruct (propValue p) as [| | | | | | |a]; try done.
  unfold kindAt in Hread.
  destruct (heap rt !! a) as [acc|] eqn:Hacc; [|done]. cbn in Hread.
  unfold bind at 1. rewrite (getCell_eq _ _ _ Hacc).
  destruct (kind acc) as [| | | |[g|]| |]; try done.
  - destruct (heap rt !! g) as [G|] eqn:HG; [|done]. cbn in Hread.
    destruct (bodyOfKind (kind G)) as [body|] eqn:Hbody; [|done].
    cbn in Hread. injection Hread as Hout.
    rewrite (executeCall0_spec rt g G body (HVObject s) HG Hbody).
    by rewrite Hout.
  - by injection Hread as <-.
Qed.

Lemma copyData_named_loop (s t : ObjRef) (xo : option ObjRef)
    (S : JSObject) (X : option JSObject) (val : NamedProp -> HermesValue)
    (suffix : list NamedProp) :
  forall (k : nat) (rt : Runtime) (T : JSObject),
    heap rt !! s = Some S ->
    heap rt !! t = Some T ->
    t <> s ->
    isJSArray (kind T) = false ->
    excludedApart rt xo t ->
    excludedCell rt xo = X ->
    drop k (named S) = suffix ->
    (forall p, p ∈ suffix -> copiedName X p = true ->
               readOutcome rt s p = Some (Returns (val p))) ->
    forEachEntryWhile (fun _ => true) k suffix
        (copyDataProperties_namedCB s t xo) rt =
      Some (true,
            setHeap
              (<[t := foldl defineCopiedName T
                        ((fun p => mkNamed (propId p) defaultPropertyFlags (val p))
                           <$> List.filter (copiedName X) suffix)]>
                 (heap rt)) rt).
Proof.
  induction suffix as [|p rest IH];
    intros k rt T Hs Ht Hne Harr Hap HX Hdrop Hread.
  - cbn. unfold ret. by rewrite setHeap_insert_id.
  - assert (Hk : named S !! k = Some p).
    { rewrite <- (Nat.add_0_r k), <- lookup_drop, Hdrop. done. }
    assert (Hrest : drop (Datatypes.S k) (named S) = rest).
    { by rewrite (drop_S _ _ _ Hk) in Hdrop; injection Hdrop. }
    assert (Hread' : forall q, q ∈ rest -> copiedName X q = true ->
                               readOutcome rt s q = Some (Returns (val q))).
    { intros q Hq. apply Hread. by apply list_elem_of_further. }
    cbn [forEachEntryWhile List.filter].
    pose proof (Hread p (list_elem_of_here _ _)) as Hp.
    unfold copiedName at 1. unfold copiedName in Hp.
    unfold copyDataProperties_namedCB at 1. cbn [npdFlags npdSlot].
    destruct (enumerable (propFlags p)) eqn:Hen; cbn [negb andb] in *.
    2:{ unfold bind at 1. cbn [ret]. by apply IH. }
    destruct (isInternal (propId p)) eqn:Hint; cbn [negb andb] in *.
    { unfold bind at 1. cbn [ret]. by apply IH. }
    unfold bind at 1. unfold bind at 1.
    rewrite (excluded_name_check rt xo X t (propId p) Hap HX).
    destruct (hasOwnName X (propId p)) eqn:Hex; cbn [negb] in *.
    { cbn [ret]. by apply IH. }
    unfold bind at 1.
    rewrite (getNamedPropertyValue_reads rt s S k p (val p) Hs Hk (Hp eq_refl)).
    unfold bind at 1.
    rewrite (defineOwnProperty_quiet _ _ _ _ _ _ Ht Harr).
    cbn [ret foldl fmap list_fmap].
    set (T' := defineCopiedName T (mkNamed (propId p) defaultPropertyFlags (val p))).
    change (default T (defineNamedIn T (propId p) getDefaultNewPropertyFlags (val p)))
      with T'.
    assert (HkT' : kind T' = kind T) by apply kind_defineCopiedName.
    destruct (excluded_after_step rt xo t T' Hap) as [Hap' HX'].
    rewrite (IH (Datatypes.S k) (setHeap (<[t := T']> (heap rt)) rt) T').
    + rewrite setHeap_setHeap, heap_setHeap.
      by rewrite list_insert_insert_eq.
    + rewrite heap_setHeap. by rewrite list_lookup_insert_ne.
    + rewrite heap_setHeap. apply list_lookup_insert_eq.
      by eapply lookup_lt_Some.
    + done.
    + by rewrite HkT'.
    + done.
    + by rewrite HX'.
    + done.
    + intros q Hq Hc. rewrite (readOutcome_insert _ _ _ _ _ _ Ht HkT').
      by apply Hread'.
Qed.

Lemma defineCopiedIndex_fresh T j v :
  noExtend T = false ->
  isJSArray (kind T) = false ->
  lookupIndexed T j = None ->
  defineCopiedIndex T (j, v)
  = withIndexed T (storeIndexed (indexed T) j (copiedElement (j, v))).
Proof.
  intros Hext Harr Hnone. unfold defineCopiedIndex, defineIndexedIn, addIndexed.
  cbn [fst snd]. by rewrite Hnone, Hext, Harr.
Qed.

(** On an extensible object that is no array and has none of the indices,
    defining indexed properties changes exactly those indices. *)
Lemma foldl_defineCopiedIndex_fresh (l : list (nat * HermesValue)) :
  forall T : JSObject,
    noExtend T = false ->
    isJSArray (kind T) = false ->
    NoDup (l.*1) ->
    (forall jv, jv ∈ l -> lookupIndexed T jv.1 = None) ->
    named (foldl defineCopiedIndex T l) = named T
    /\ noExtend (foldl defineCopiedIndex T l) = false
    /\ (forall jv, jv ∈ l ->
          lookupIndexed (foldl defineCopiedIndex T l) jv.1
          = Some (copiedElement jv))
    /\ (forall j, j ∉ l.*1 ->
          lookupIndexed (foldl defineCopiedIndex T l) j = lookupIndexed T j).
Proof.
  induction l as [|[j v] l IH]; intros T Hext Harr Hnd Hfresh.
  - cbn. repeat split; try done. intros jv Hin. by apply elem_of_nil in Hin.
  - cbn [foldl]. rewrite fmap_cons in Hnd. cbn in Hnd.
    apply NoDup_cons in Hnd as [Hj Hnd].
    rewrite (defineCopiedIndex_fresh T j v Hext Harr
               (Hfresh (j, v) (list_elem_of_here _ _))).
    set (T' := withIndexed T _).
    assert (Hlook : forall i, lookupIndexed T' i
                      = if decide (i = j) then Some (copiedElement (j, v))
                        else lookupIndexed T i).
    { intros i. unfold T', lookupIndexed; cbn. apply lookup_storeIndexed. }
    destruct (IH T') as (Hn & He & Hin & Hout); try done.
    { intros jv Hjv. rewrite Hlook. rewrite decide_False.
      - apply Hfresh. by apply list_elem_of_further.
      - intros Heq. apply Hj. rewrite <- Heq. apply list_elem_of_fmap.
        by exists jv. }
    split; [by rewrite Hn|]. split; [done|]. split.
    + intros jv Hjv. apply elem_of_cons in Hjv as [->|Hjv].
      * rewrite Hout by done. rewrite Hlook. by rewrite decide_True.
      * by apply Hin.
    + intros i Hi. rewrite fmap_cons in Hi. cbn in Hi.
      apply not_elem_of_cons in Hi as [Hne Hi].
      rewrite Hout by done. rewrite Hlook. by rewrite decide_False.
Qed.

Lemma copiedIndex_fst S X j jv : copiedIndex S X j = Some jv -> jv.1 = j.
Proof.
  unfold copiedIndex. destruct (lookupIndexed S j); [|done].
  destruct (_ && _); [|done]. by intros [= <-].
Qed.

Lemma copiedIndices_range S X (n : nat) :
  forall i, NoDup ((omap (copiedIndex S X) (seq i n)).*1)
            /\ forall j, j ∈ (omap (copiedIndex S X) (seq i n)).*1 ->
                         (i <= j)%nat.
Proof.
  induction n as [|n IH]; intros i.
  - cbn. split; [constructor|]. intros j Hj. by apply elem_of_nil in Hj.
  - cbn [seq omap list_omap]. destruct (IH (Datatypes.S i)) as [Hnd Hge].
    destruct (copiedIndex S X i) as [jv|] eqn:Hjv.
    + apply copiedIndex_fst in Hjv. rewrite fmap_cons, Hjv. split.
      * apply NoDup_cons. split; [|done]. intros Hin. apply Hge in Hin. lia.
      * intros j Hj. apply elem_of_cons in Hj as [->|Hj]; [lia|].
        apply Hge in Hj. lia.
    + split; [done|]. intros j Hj. apply Hge in Hj. lia.
Qed.

Lemma elem_of_copiedIndices S X jv :
  jv ∈ copiedIndices S X <-> copiedIndex S X jv.1 = Some jv.
Proof.
  unfold copiedIndices. rewrite list_elem_of_omap. split.
  - intros (j & _ & Hj). by rewrite (copiedIndex_fst _ _ _ _ Hj).
  - intros Hj. exists jv.1. split; [|done].
    apply elem_of_seq. split; [lia|]. cbn.
    unfold copiedIndex, lookupIndexed in Hj.
    destruct (indexed S !! jv.1) eqn:Hl; [|done].
    by eapply lookup_lt_Some.
Qed.






(** ** arraySpread *)

(** A step that yields: the iterator moves on and a new result object is
    allocated. *)
Lemma iteratorStep_value rt it o v steps :
  heap rt !! it = Some o ->
  kind o = IteratorKind (StepValue v :: steps) ->
  iteratorStep (mkIteratorRecord it) rt =
    Some (Returned (Some (length (heap rt))),
          setHeap (<[it := withKind o (IteratorKind steps)]> (heap rt)
                     ++ [stepResult v]) rt).
Proof.
  intros Ho Hk. unfold iteratorStep. cbn [iterator].
  unfold bind at 1. rewrite (getCell_eq _ _ _ Ho), Hk.
  unfold bind, setCell, allocCell, ret. cbn.
  by rewrite length_insert.
Qed.


(** Reading [value] from a step result. *)
Lemma getNamed_value rt r v :
  heap rt !! r = Some (stepResult v) ->
  getNamed_RJS r (getSymbolID Predefined.value) rt = Some (Returned v, rt).
Proof.
  intros Hr. unfold getNamed_RJS. unfold bind at 1.
  rewrite (getCell_eq _ _ _ Hr).
  change (findNamed (getSymbolID Predefined.value) (stepResult v))
    with (Some (0%nat, mkNamed (getSymbolID Predefined.value)
                         defaultPropertyFlags v)).
  unfold getNamedPropertyValue_RJS, getNamedSlotValue, bind.
  rewrite (getCell_eq _ _ _ Hr). reflexivity.
Qed.


Lemma placed_cons l idx v vs :
  (length l <= idx)%nat ->
  placed (l ++ replicate (idx - length l) None ++ [restElement v])
    (Datatypes.S idx) vs
  = placed l idx (v :: vs).
Proof.
  intros Hle. unfold placed. destruct vs as [|w vs].
  - done.
  - rewrite !length_app, length_replicate. cbn [length].
    replace (Datatypes.S idx - (length l + (idx - length l + 1)))%nat
      with 0%nat by lia.
    cbn. by rewrite <- !app_assoc.
Qed.





(** ** apply *)

Lemma arrayArgsFrom_S A i n :
  arrayArgsFrom A i (Datatypes.S n) = elementAt A i :: arrayArgsFrom A (Datatypes.S i) n.
Proof. reflexivity. Qed.

(** The loop copies the elements of the array into the argument slots of
    the frame on top of the stack. *)
Lemma apply_loop_spec (a : ObjRef) (A : JSObject) (n : nat) :
  forall (i : nat) (rt : Runtime) (fr : StackFrame) (rest : list StackFrame)
         (filled : list HermesValue),
    heap rt !! a = Some A ->
    stackFrames rt = fr :: rest ->
    frameArgs fr = filled ++ replicate n HVUndefined ->
    length filled = i ->
    Z.of_nat (i + n) < 2 ^ 32 ->
    apply_loop n (Z.of_nat i) a rt =
      Some (tt,
            setStackFrames
              (withFrameArgs fr (filled ++ arrayArgsFrom A i n) :: rest) rt).
Proof.
  induction n as [|n IH]; intros i rt fr rest filled Ha Hfr Hargs Hi Hlt.
  - cbn. unfold ret, arrayArgsFrom. cbn. rewrite app_nil_r in *.
    f_equal. f_equal. destruct rt as [h fs ms th]. cbn in *. subst fs.
    unfold setStackFrames, withFrameArgs; cbn. rewrite <- Hargs.
    by destruct fr.
  - cbn [apply_loop]. unfold bind at 1. unfold JSArray_at. unfold bind at 1.
    rewrite (getCell_eq _ _ _ Ha). cbn [ret]. rewrite Nat2Z.id.
    fold (elementAt A i).
    unfold bind at 1. unfold setArgRef. rewrite Hfr.
    assert (Hin : (0 <=? Z.of_nat i)
                  && (Z.of_nat i <? Z.of_nat (length (frameArgs fr))) = true).
    { rewrite Hargs, length_app, length_replicate.
      apply andb_true_iff; split; [apply Z.leb_le|apply Z.ltb_lt]; lia. }
    rewrite Hin. rewrite Nat2Z.id, u32_small by lia.
    replace (Z.of_nat i + 1) with (Z.of_nat (Datatypes.S i)) by lia.
    set (fr' := mkFrame _ _ _ _ _).
    rewrite (IH (Datatypes.S i) (setStackFrames (fr' :: rest) rt) fr' rest
               (filled ++ [elementAt A i])).
    + rewrite (arrayArgsFrom_S A i n), <- app_assoc. reflexivity.
    + done.
    + done.
    + unfold fr'; cbn. rewrite Hargs.
      replace i with (length filled + 0)%nat by lia.
      rewrite insert_app_r. cbn. by rewrite <- app_assoc.
    + rewrite length_app. cbn. lia.
    + lia.
Qed.

(** What [apply] does once the function and the array are at hand: it
    runs [body] in a new frame that holds the elements of the array, and
    pops the frame. *)
Lemma apply_frame (rt : Runtime) (f a : ObjRef) (F A : JSObject)
    (body : Behaviour) (len : Z) (construct : bool) (thisVal : HermesValue) :
  heap rt !! f = Some F ->
  bodyOf F = Some body ->
  heap rt !! a = Some A ->
  0 <= len < 2 ^ 32 ->
  let out := body thisVal (arrayArgsFrom A 0 (Z.to_nat len))
               (if construct then HVObject f else HVUndefined) in
  ScopedNativeCallFrame len f construct thisVal
      (apply_loop (Z.to_nat len) 0 a;;
       if construct then Callable_construct f thisVal else Callable_call f) rt
  = Some (if construct then constructResult thisVal out else callResult out,
          afterOutcome out rt).
Proof.
  intros Hf Hbody Ha Hlen out. unfold ScopedNativeCallFrame.
  unfold bind at 1. unfold pushFrame.
  set (fr := mkFrame _ _ _ _ _).
  set (rt1 := setStackFrames (fr :: stackFrames rt) rt).
  unfold bind at 1. unfold bind at 1.
  change 0 with (Z.of_nat 0).
  rewrite (apply_loop_spec a A (Z.to_nat len) 0 rt1 fr (stackFrames rt) []);
    [|done|done|done|done|lia].
  cbn [app].
  set (fr' := withFrameArgs fr _).
  set (rt2 := setStackFrames (fr' :: stackFrames rt) rt1).
  assert (Hcall : Callable_call f rt2 = Some (callResult out, afterOutcome out rt2)).
  { unfold Callable_call. unfold bind at 1. unfold getRuntime.
    unfold bind at 1. cbn [stackFrames rt2 setStackFrames head liftOpt ret].
    unfold bind at 1. rewrite (getCell_eq f rt2 F) by done.
    unfold bodyOf, bodyOfKind in Hbody.
    destruct (kind F) as [| |b|b d| | |]; try done;
      injection Hbody as ->; cbn [thisArg frameArgs newTarget fr' withFrameArgs fr];
      fold out; by destruct out. }
  assert (Hpop : forall rtx,
             stackFrames rtx = fr' :: stackFrames rt ->
             heap rtx = heap rt -> modules rtx = modules rt ->
             popFrame rtx = Some (tt, setThrownValue (thrownValue rtx) rt)).
  { intros rtx Hs Hh Hm. unfold popFrame. rewrite Hs.
    destruct rtx, rt; cbn in *. by subst. }
  destruct construct.
  - unfold Callable_construct. unfold bind at 1. rewrite Hcall.
    destruct out as [v|e] eqn:Hout; cbn [callResult afterOutcome ret].
    + unfold bind at 1. rewrite (Hpop rt2) by done. cbn [ret].
      by destruct rt.
    + unfold bind at 1. rewrite (Hpop _) by done. cbn [ret]. done.
  - rewrite Hcall.
    destruct out as [v|e] eqn:Hout; cbn [callResult afterOutcome ret].
    + unfold bind at 1. rewrite (Hpop rt2) by done. cbn [ret].
      by destruct rt.
    + unfold bind at 1. rewrite (Hpop _) by done. cbn [ret]. done.
Qed.

(** C5. [apply] raises a TypeError, without calling anything, when its
    first argument is not callable and when its second is not an array.
    Called with exactly two arguments it performs a construct call: it
    obtains a fresh [this], runs the function with the elements of the
    array as its arguments, in order, and [new.target] the function, and
    returns the object the function returned, or [this] when it returned
    none.  Called with a third argument it performs a plain call with
    [this] the third argument and the same arguments, and returns what
    the function returned.  An exception of the function propagates. *)
Theorem apply_spec (args : NativeArgs) (rt : Runtime) :
  valueLive rt (getArg args 0) ->
  valueLive rt (getArg args 1) ->
  (isCallableArg rt (getArg args 0) = false ->
   hermesBuiltinApply args rt =
     Some (EXCEPTION,
           setThrownValue
             (Some (TypeErrorForValue (getArg args 0) " is not a function")) rt))
  /\ (isCallableArg rt (getArg args 0) = true ->
      isArrayArg rt (getArg args 1) = false ->
      hermesBuiltinApply args rt =
        Some (EXCEPTION,
              setThrownValue (Some (TypeError "args must be an array")) rt))
  /\ (forall (f a : ObjRef) (F A : JSObject) (body : Behaviour) (len : Z),
        getArg args 0 = HVObject f -> heap rt !! f = Some F ->
        bodyOf F = Some body ->
        getArg args 1 = HVObject a -> heap rt !! a = Some A ->
        kind A = ArrayKind -> lengthOf A = Some len ->
        (length args = 2%nat ->
         let this := HVObject (length (heap rt)) in
         let out := body this (arrayArgsFrom A 0 (Z.to_nat len)) (HVObject f) in
         hermesBuiltinApply args rt =
           Some (constructResult this out,
                 afterOutcome out
                   (setHeap (heap rt ++ [mkObj ObjectKind false [] []]) rt)))
        /\ ((3 <= length args)%nat ->
            let out := body (getArg args 2) (arrayArgsFrom A 0 (Z.to_nat len))
                         HVUndefined in
            hermesBuiltinApply args rt =
              Some (callResult out, afterOutcome out rt))).
Proof.
  intros Hl0 Hl1. split; [|split].
  - intros Hno. unfold hermesBuiltinApply, bind.
    by rewrite (dyncastArg_none _ _ _ _ Hl0 Hno).
  - intros Hyes Hno. unfold hermesBuiltinApply.
    unfold isCallableArg, cellKindOf in Hyes.
    destruct (getArg args 0) as [| | | | | | |f] eqn:Ha0; try done.
    destruct (heap rt !! f) as [F|] eqn:HF; [|done]. cbn in Hyes.
    unfold bind at 1. rewrite (dyncastArg_object _ _ _ _ _ _ Ha0 HF), Hyes.
    unfold bind. by rewrite (dyncastArg_none _ _ _ _ Hl1 Hno).
  - intros f a F A body len Ha0 HF Hbody Ha1 HA HkA Hlen.
    pose proof (lengthOf_bound _ _ Hlen) as Hbound.
    assert (Hcallable : isCallable (kind F) = true).
    { unfold bodyOf, bodyOfKind in Hbody. by destruct (kind F). }
    assert (Hstart :
      hermesBuiltinApply args rt =
        (let isConstructor := getArgCount args =? 2 in
         let* thisValRes :=
           (if isConstructor then createThisForConstruct f
            else ret (Returned (getArg args 2))) in
         match thisValRes with
         | EXCEPTION => ret EXCEPTION
         | Returned thisVal =>
             ScopedNativeCallFrame len f isConstructor thisVal
               (apply_loop (Z.to_nat len) 0 a;;
                if isConstructor then Callable_construct f thisVal
                else Callable_call f)
         end) rt).
    { unfold hermesBuiltinApply.
      unfold bind at 1. rewrite (dyncastArg_object _ _ _ _ _ _ Ha0 HF), Hcallable.
      unfold bind at 1. rewrite (dyncastArg_object _ _ _ _ _ _ Ha1 HA), HkA.
      cbn [isJSArray].
      unfold bind at 1. unfold JSArray_getLength. unfold bind at 1.
      rewrite (getCell_eq _ _ _ HA), Hlen. reflexivity. }
    split.
    + intros H2 this out. rewrite Hstart. unfold getArgCount.
      rewrite H2. cbn [Z.of_nat Z.eqb Pos.of_succ_nat Pos.succ Pos.eqb].
      cbv zeta. unfold bind at 1. unfold createThisForConstruct.
      unfold bind at 1. unfold allocCell. cbn [ret].
      set (rt1 := setHeap (heap rt ++ [mkObj ObjectKind false [] []]) rt).
      assert (Hlt : (f < length (heap rt))%nat) by (by eapply lookup_lt_Some).
      assert (Hlta : (a < length (heap rt))%nat) by (by eapply lookup_lt_Some).
      apply (apply_frame rt1 f a F A body len true this); try done.
      * unfold rt1. rewrite heap_setHeap. by rewrite lookup_app_l.
      * unfold rt1. rewrite heap_setHeap. by rewrite lookup_app_l.
    + intros H3 out. rewrite Hstart. unfold getArgCount.
      destruct (Z.eqb_spec (Z.of_nat (length args)) 2) as [Heq|_]; [lia|].
      cbv zeta. unfold bind at 1. cbn [ret].
      by apply (apply_frame rt f a F A body len false (getArg args 2)).
Qed.

Lemma apply_spec_witness :
  hermesBuiltinApply [HVObject 0%nat; HVObject 1%nat] applyExample =
    Some (Returned (HVObject 2%nat),
          setHeap (heap applyExample ++ [mkObj ObjectKind false [] []])
            applyExample)
  /\ hermesBuiltinApply [HVObject 0%nat; HVObject 1%nat; HVString "receiver"]
       applyExample =
       Some (Returned (HVString "receiver"), applyExample).
Proof.
  assert (Hl0 : valueLive applyExample (HVObject 0%nat)).
  { intros r [= <-]. by eexists. }
  assert (Hl1 : valueLive applyExample (HVObject 1%nat)).
  { intros r [= <-]. by eexists. }
  split.
  - destruct (apply_spec [HVObject 0%nat; HVObject 1%nat] applyExample
                Hl0 Hl1) as (_ & _ & H).
    exact (proj1 (H 0%nat 1%nat _ _ probe 3 eq_refl eq_refl eq_refl eq_refl
                    eq_refl eq_refl eq_refl) eq_refl).
  - destruct (apply_spec
                [HVObject 0%nat; HVObject 1%nat; HVString "receiver"]
                applyExample Hl0 Hl1) as (_ & _ & H).
    exact (proj2 (H 0%nat 1%nat _ _ probe 3 eq_refl eq_refl eq_refl eq_refl
                    eq_refl eq_refl eq_refl) ltac:(cbn; lia)).
Defined.

(** * Further properties *)

(** ** ensureObject and throwTypeError *)

Lemma getArg_drop (args : NativeArgs) (k i : nat) :
  getArg (drop k args) (Z.of_nat i) = getArg args (Z.of_nat (k + i)).
Proof. by rewrite !getArg_nat, lookup_drop. Qed.

(** X1. [ensureObject] looks at the tag of its first argument only.  Any
    reference to a cell passes, whatever the cell is, and the runtime is
    left as it was.  Any other value, [null] included, raises a type error
    that carries the message, exactly as [throwTypeError] does for that
    message, and nothing but the pending exception changes; [throwTypeError]
    itself never returns a value. *)
Theorem ensureObject_spec (args : NativeArgs) (rt : Runtime) (msg : string) :
  getArg args 1 = HVString msg ->
  hermesBuiltinEnsureObject args rt =
    (if isObject (getArg args 0) then Some (Returned HVUndefined, rt)
     else Some (EXCEPTION, setThrownValue (Some (TypeError msg)) rt))
  /\ (isObject (getArg args 0) = false ->
      hermesBuiltinEnsureObject args rt
      = hermesBuiltinThrowTypeError (drop 1 args) rt)
  /\ (forall (args' : NativeArgs) (res : CallResult HermesValue)
             (rt' : Runtime),
        hermesBuiltinThrowTypeError args' rt = Some (res, rt') ->
        res = EXCEPTION
        /\ exists m, getArg args' 0 = HVString m
                     /\ rt' = setThrownValue (Some (TypeError m)) rt).
Proof.
  intros Hmsg. unfold hermesBuiltinEnsureObject, hermesBuiltinThrowTypeError.
  split; [|split].
  - destruct (isObject (getArg args 0)); [done|]. by rewrite Hmsg.
  - intros ->.
    change (getArg (drop 1 args) 0) with (getArg (drop 1 args) (Z.of_nat 0)).
    by rewrite (getArg_drop args 1 0).
  - intros args' res rt' H. unfold raiseTypeError_Handle in H.
    destruct (getArg args' 0) as [| | | | |m| |]; try done.
    injection H as <- <-. split; [done|]. by exists m.
Qed.

Lemma ensureObject_spec_witness :
  hermesBuiltinEnsureObject [HVNull; HVString "not an object"]
      prototypeExample =
    Some (EXCEPTION,
          setThrownValue (Some (TypeError "not an object")) prototypeExample)
  /\ hermesBuiltinEnsureObject [HVObject 5%nat; HVString "not an object"]
       prototypeExample =
       Some (Returned HVUndefined, prototypeExample).
Proof.
  split.
  - exact (proj1 (ensureObject_spec [HVNull; HVString "not an object"]
                    prototypeExample "not an object" eq_refl)).
  - exact (proj1 (ensureObject_spec
                    [HVObject 5%nat; HVString "not an object"]
                    prototypeExample "not an object" eq_refl)).
Defined.

(** ** silentSetPrototypeOf *)

(** X2. Whatever [JSObject::setParent] does, [silentSetPrototypeOf] returns
    [undefined] and never raises.  When the first argument is no object, or
    the second is neither [null] nor an object, it returns at once and the
    runtime, a pending exception included, is left as it was.  Otherwise it
    runs [setParent] on the object and the requested parent, ignores its
    answer, and clears the pending exception: the runtime is the one
    [setParent] left, without any exception. *)
Theorem silentSetPrototypeOf_never_raises
    (setParent : ObjRef -> option ObjRef -> M (CallResult bool))
    (args : NativeArgs) (rt : Runtime) :
  valueLive rt (getArg args 0) ->
  (forall (res : CallResult HermesValue) (rt' : Runtime),
     silentObjectSetPrototypeOf setParent args rt = Some (res, rt') ->
     res = Returned HVUndefined /\ (rt' = rt \/ thrownValue rt' = None))
  /\ (isObjectArg rt (getArg args 0) = false
      \/ requestedParent (getArg args 1) = None ->
      silentObjectSetPrototypeOf setParent args rt
      = Some (Returned HVUndefined, rt))
  /\ (forall (o : ObjRef) (parent : option ObjRef)
             (answer : CallResult bool) (rt1 : Runtime),
        objectArg rt (getArg args 0) = Some o ->
        requestedParent (getArg args 1) = Some parent ->
        (forall p, parent = Some p -> isObjectArg rt (HVObject p) = true) ->
        setParent o parent rt = Some (answer, rt1) ->
        silentObjectSetPrototypeOf setParent args rt
        = Some (Returned HVUndefined, setThrownValue None rt1)).
Proof.
  intros Hlive.
  assert (Hcast := dyncastArg_objectArg rt args 0 Hlive).
  split; [|split].
  - intros res rt' H. unfold silentObjectSetPrototypeOf in H.
    unfold bind at 1 in H. rewrite Hcast in H.
    destruct (objectArg rt (getArg args 0)) as [o|].
    2:{ injection H as <- <-. auto. }
    unfold bind at 1 in H.
    destruct (getArg args 1) as [| | | | | | |p]; cbn in H;
      try (injection H as <- <-; by auto).
    + unfold bind at 1 in H.
      destruct (setParent o None rt) as [[answer rt1]|]; [|done].
      injection H as <- <-. auto.
    + unfold bind, getCell in H. cbv beta in H.
      destruct (heap rt !! p) as [P|]; [|done].
      destruct (isJSObject (kind P)); [|done]. cbn in H.
      destruct (setParent o (Some p) rt) as [[answer rt1]|]; [|done].
      injection H as <- <-. auto.
  - intros Hno. unfold silentObjectSetPrototypeOf.
    unfold bind at 1. rewrite Hcast.
    destruct Hno as [Hno|Hno].
    + unfold objectArg. rewrite Hno. by destruct (getArg args 0).
    + destruct (objectArg rt (getArg args 0)); [|done].
      by destruct (getArg args 1).
  - intros o parent answer rt1 Ho Hreq Hp Hset.
    unfold silentObjectSetPrototypeOf.
    unfold bind at 1. rewrite Hcast, Ho.
    destruct (getArg args 1) as [| | | | | | |p]; try done;
      injection Hreq as <-.
    + cbn. unfold bind. by rewrite Hset.
    + specialize (Hp p eq_refl). unfold isObjectArg in Hp.
      destruct (heap rt !! p) as [P|] eqn:HP; [|done].
      cbn [isNull isObject]. unfold vmcast_JSObject, bind. cbv beta.
      rewrite (getCell_eq _ _ _ HP), Hp. cbn [ret]. by rewrite Hset.
Qed.

Lemma silentSetPrototypeOf_never_raises_witness :
  silentObjectSetPrototypeOf refusingSetParent
      [HVObject 0%nat; HVObject 1%nat] prototypeExample
  = Some (Returned HVUndefined, setThrownValue None prototypeExample).
Proof.
  assert (Hlive : valueLive prototypeExample (HVObject 0%nat)).
  { intros r [= <-]. by eexists. }
  destruct (silentSetPrototypeOf_never_raises refusingSetParent
              [HVObject 0%nat; HVObject 1%nat] prototypeExample Hlive)
    as (_ & _ & H).
  refine (H 0%nat (Some 1%nat) EXCEPTION _ eq_refl eq_refl _ eq_refl).
  by intros p [= <-].
Defined.

(** ** generatorSetDelegated: the flag is set once and for all *)

(** X3. Once [generatorSetDelegated] has returned, calling it again from the
    same generator, with any arguments, returns [undefined] again and
    changes nothing: the delegation flag stays set, and nothing in this file
    clears it. *)
Theorem generatorSetDelegated_idempotent (args args' : NativeArgs)
    (rt rt1 : Runtime) (v : HermesValue) :
  hermesBuiltinGeneratorSetDelegated args rt = Some (Returned v, rt1) ->
  v = HVUndefined
  /\ hermesBuiltinGeneratorSetDelegated args' rt1
     = Some (Returned HVUndefined, rt1).
Proof.
  intros H. unfold hermesBuiltinGeneratorSetDelegated in H.
  unfold bind at 1 in H. unfold getRuntime in H.
  destruct (stackFrames rt) as [|cur [|prev rest]] eqn:Hfr; try done.
  unfold dyn_vmcast_or_null_GeneratorInnerFunction in H.
  destruct (calleeClosure prev) as [r|] eqn:Hc; [|done].
  unfold bind at 1 in H. unfold bind at 1 in H. unfold getCell in H.
  destruct (heap rt !! r) as [o|] eqn:Ho; [|done]. cbn [ret] in H.
  destruct (kind o) as [| | |body d| | |] eqn:Hk; try done.
  cbn [isGeneratorInnerFunction] in H. unfold setIsDelegated in H.
  unfold bind, getCell, setCell, ret in H. rewrite Ho, Hk in H.
  injection H as <- <-. split; [done|].
  set (o1 := withKind o (GeneratorInnerFunctionKind body true)).
  set (rt1 := setHeap (<[r := o1]> (heap rt)) rt).
  assert (Hfr1 : stackFrames rt1 = cur :: prev :: rest) by exact Hfr.
  assert (Ho1 : heap rt1 !! r = Some o1).
  { unfold rt1. rewrite heap_setHeap. apply list_lookup_insert_eq.
    by eapply lookup_lt_Some. }
  assert (Hk1 : kind o1 = GeneratorInnerFunctionKind body true) by reflexivity.
  assert (Hfix : withKind o1 (GeneratorInnerFunctionKind body true) = o1)
    by reflexivity.
  clearbody rt1 o1.
  unfold hermesBuiltinGeneratorSetDelegated.
  unfold bind at 1. unfold getRuntime. rewrite Hfr1, Hc.
  unfold dyn_vmcast_or_null_GeneratorInnerFunction, setIsDelegated.
  unfold bind, getCell, setCell, ret. rewrite Ho1, Hk1. cbn.
  rewrite Ho1, Hk1, Hfix. by rewrite setHeap_insert_id.
Qed.

Lemma generatorSetDelegated_idempotent_witness :
  HVUndefined = HVUndefined
  /\ hermesBuiltinGeneratorSetDelegated [HVNull]
       (setHeap [exampleFunction;
                 withKind exampleGenerator
                   (GeneratorInnerFunctionKind
                      (fun _ _ _ => Returns HVUndefined) true)]
          (generatorRuntime 1%nat))
     = Some (Returned HVUndefined,
             setHeap [exampleFunction;
                      withKind exampleGenerator
                        (GeneratorInnerFunctionKind
                           (fun _ _ _ => Returns HVUndefined) true)]
               (generatorRuntime 1%nat)).
Proof.
  exact (generatorSetDelegated_idempotent [] [HVNull] (generatorRuntime 1%nat)
           _ HVUndefined eq_refl).
Defined.

(** ** getTemplateObject: errors, repeated calls and what is left alone *)

(** X4. The checks of the arguments come first and in this order: the number
    of arguments, the call-site id, the [dup] flag, and then the caller,
    which must be code of a module.  Each raises its own type error and
    changes nothing else; the cache is not looked at, so a call site that is
    in the cache does not make up for a malformed call. *)
Theorem getTemplateObject_validation (args : NativeArgs) (rt : Runtime) :
  ((length args < 3)%nat ->
   hermesBuiltinGetTemplateObject args rt =
     Some (EXCEPTION,
           setThrownValue
             (Some (TypeError "At least three arguments expected")) rt))
  /\ ((3 <= length args)%nat ->
      isNumber (getArg args 0) = false ->
      hermesBuiltinGetTemplateObject args rt =
        Some (EXCEPTION,
              setThrownValue
                (Some (TypeError "First argument should be a number")) rt))
  /\ ((3 <= length args)%nat ->
      isNumber (getArg args 0) = true ->
      isBool (getArg args 1) = false ->
      hermesBuiltinGetTemplateObject args rt =
        Some (EXCEPTION,
              setThrownValue
                (Some (TypeError "Second argument should be a bool")) rt))
  /\ (forall (d : JSNumber) (id : Z) (fr : StackFrame)
             (rest : list StackFrame),
        (3 <= length args)%nat ->
        getArg args 0 = HVNumber d ->
        getNumberAs_uint32 d = Some id ->
        isBool (getArg args 1) = true ->
        stackFrames rt = fr :: rest ->
        savedCodeBlock fr = None ->
        hermesBuiltinGetTemplateObject args rt =
          Some (EXCEPTION,
                setThrownValue
                  (Some (TypeError "Cannot be called from native code")) rt)).
Proof.
  unfold hermesBuiltinGetTemplateObject, getArgCount.
  split; [|split; [|split]].
  - intros H. destruct (Z.ltb_spec (Z.of_nat (length args)) 3); [done|lia].
  - intros H Hn. destruct (Z.ltb_spec (Z.of_nat (length args)) 3); [lia|].
    by rewrite Hn.
  - intros H Hn Hb. destruct (Z.ltb_spec (Z.of_nat (length args)) 3); [lia|].
    by rewrite Hn, Hb.
  - intros d id fr rest H Ha0 Hid Hb Hfr Hcb.
    destruct (Z.ltb_spec (Z.of_nat (length args)) 3); [lia|].
    rewrite Ha0, Hb. cbn [isNumber negb getNumber].
    unfold bind, getRuntime. cbn [ret]. rewrite Hid. cbn [liftOpt ret].
    rewrite Hfr. cbn [head liftOpt ret]. by rewrite Hcb.
Qed.

Lemma getTemplateObject_validation_witness :
  hermesBuiltinGetTemplateObject
      [encodeNumberValue 7; HVString "a"; HVString "a"]
      (stateAfter templateArgsA templateRuntime) =
    Some (EXCEPTION,
          setThrownValue
            (Some (TypeError "Second argument should be a bool"))
            (stateAfter templateArgsA templateRuntime)).
Proof.
  destruct (getTemplateObject_validation
              [encodeNumberValue 7; HVString "a"; HVString "a"]
              (stateAfter templateArgsA templateRuntime)) as (_ & _ & H & _).
  apply H; [cbn; lia|reflexivity|reflexivity].
Defined.

(** A call that raises raised a type error. *)
Lemma getTemplateObject_raises (args : NativeArgs) (rt rt' : Runtime) :
  Z.of_nat (length args) < 2 ^ 32 ->
  hermesBuiltinGetTemplateObject args rt = Some (EXCEPTION, rt') ->
  exists msg, rt' = setThrownValue (Some (TypeError msg)) rt.
Proof.
  intros Hlt Hcall.
  pose proof Hcall as Hcall0.
  unfold hermesBuiltinGetTemplateObject in Hcall.
  assert (Hraise : forall msg,
            @raiseTypeError HermesValue msg rt = Some (EXCEPTION, rt') ->
            exists msg, rt' = setThrownValue (Some (TypeError msg)) rt).
  { intros msg H. injection H as <-. by exists msg. }
  destruct (Z.ltb_spec (getArgCount args) 3) as [|H3]; [by eapply Hraise|].
  unfold getArgCount in H3.
  destruct (getArg args 0) as [| | | | d | | |] eqn:Ha0;
    cbn [isNumber negb] in Hcall; try (by eapply Hraise).
  destruct (getArg args 1) as [| | | dup | | | |] eqn:Ha1;
    cbn [isBool negb] in Hcall; try (by eapply Hraise).
  cbn [getNumber] in Hcall.
  unfold bind at 1 in Hcall. cbn [ret] in Hcall.
  unfold bind at 1 in Hcall.
  destruct (getNumberAs_uint32 d) as [id|] eqn:Hid; [|discriminate].
  cbn [liftOpt ret] in Hcall.
  unfold bind at 1 in Hcall. unfold getRuntime in Hcall.
  destruct (stackFrames rt) as [|fr rest] eqn:Hfr; [discriminate|].
  cbn [head liftOpt] in Hcall. unfold bind at 1 in Hcall. cbn [ret] in Hcall.
  destruct (savedCodeBlock fr) as [cb|] eqn:Hcb; [|by eapply Hraise].
  unfold bind at 1 in Hcall. unfold findCachedTemplateObject in Hcall.
  destruct (modules rt !! getRuntimeModule cb) as [md|] eqn:Hmd;
    [|discriminate].
  destruct (templateMap md !! id) as [o|] eqn:Hmiss; [discriminate|].
  cbn [getBool] in Hcall. unfold bind at 1 in Hcall. cbn [ret] in Hcall.
  destruct (negb dup && (getArgCount args mod 2 =? 1)) eqn:Hpar;
    [by eapply Hraise|].
  assert (Heven : dup = false -> Z.of_nat (length args) mod 2 = 0).
  { intros ->. cbn in Hpar. unfold getArgCount in Hpar.
    apply Z.eqb_neq in Hpar.
    pose proof (Z.mod_pos_bound (Z.of_nat (length args)) 2). lia. }
  rewrite (getTemplateObject_fresh args rt fr rest d id dup cb md) in Hcall0
    by (assumption || lia).
  discriminate.
Qed.

(** X5. Whatever the arguments and however the call ends,
    [getTemplateObject] leaves the stack alone, changes no cell that exists,
    it only allocates, and keeps every entry of the template caches.  A call
    that raises raised a type error and did nothing else: no cell was
    allocated and no module changed.  A call that returns leaves the pending
    exception as it was. *)
Theorem getTemplateObject_frame (args : NativeArgs) (rt : Runtime)
    (res : CallResult HermesValue) (rt' : Runtime) :
  Z.of_nat (length args) < 2 ^ 32 ->
  hermesBuiltinGetTemplateObject args rt = Some (res, rt') ->
  stackFrames rt' = stackFrames rt
  /\ (exists new, heap rt' = heap rt ++ new /\ (res = EXCEPTION -> new = []))
  /\ (forall m id o,
        cachedTemplate rt m id = Some o -> cachedTemplate rt' m id = Some o)
  /\ (res = EXCEPTION ->
      modules rt' = modules rt
      /\ exists msg, thrownValue rt' = Some (TypeError msg))
  /\ (forall v, res = Returned v -> thrownValue rt' = thrownValue rt).
Proof.
  intros Hlt Hcall.
  destruct (getTemplateObject_cases args rt res rt' Hlt Hcall)
    as [(e & -> & Hrt)|[(m & id & o & Hsite & Hhit & -> & ->)
                       |(m & id & md & dup & Hsite & Hmd & Hmiss & _ & _ & _
                           & -> & ->)]].
  - destruct (getTemplateObject_raises args rt rt' Hlt Hcall) as [msg ->].
    split; [done|]. split; [exists []; by rewrite app_nil_r|].
    split; [done|]. split; [|done]. intros _. split; [done|]. by exists msg.
  - split; [done|]. split; [exists []; by rewrite app_nil_r|].
    split; [done|]. split; done.
  - split; [done|]. split; [by eexists|]. split; [|split; done].
    intros m' id' o Hc. rewrite (cachedTemplate_after _ _ _ _ _ _ _ _ Hmd).
    destruct (decide (m' = m /\ id' = id)) as [[-> ->]|_]; [|done].
    unfold cachedTemplate in Hc. rewrite Hmd in Hc. cbn in Hc. congruence.
Qed.

Lemma getTemplateObject_frame_witness :
  stackFrames (stateAfter templateArgsA templateRuntime)
  = stackFrames templateRuntime
  /\ (exists new,
        heap (stateAfter templateArgsA templateRuntime)
        = heap templateRuntime ++ new
        /\ (Returned (HVObject 1%nat) = @EXCEPTION HermesValue -> new = []))
  /\ (forall m id o,
        cachedTemplate templateRuntime m id = Some o ->
        cachedTemplate (stateAfter templateArgsA templateRuntime) m id = Some o)
  /\ (Returned (HVObject 1%nat) = @EXCEPTION HermesValue ->
      modules (stateAfter templateArgsA templateRuntime)
      = modules templateRuntime
      /\ exists msg,
           thrownValue (stateAfter templateArgsA templateRuntime)
           = Some (TypeError msg))
  /\ (forall v, Returned (HVObject 1%nat) = Returned v ->
                thrownValue (stateAfter templateArgsA templateRuntime)
                = thrownValue templateRuntime).
Proof.
  apply (getTemplateObject_frame templateArgsA templateRuntime
           (Returned (HVObject 1%nat))
           (stateAfter templateArgsA templateRuntime)).
  - cbn. lia.
  - vm_compute. reflexivity.
Defined.

(** A call whose site is in the cache returns the cached object and
    changes nothing, whatever follows the call-site id and the flag. *)
Lemma getTemplateObject_hit (args : NativeArgs) (rt : Runtime)
    (m : nat) (id : Z) (o : ObjRef) :
  (3 <= length args)%nat ->
  isBool (getArg args 1) = true ->
  callSite rt args = Some (m, id) ->
  cachedTemplate rt m id = Some o ->
  hermesBuiltinGetTemplateObject args rt = Some (Returned (HVObject o), rt).
Proof.
  intros H3 Hb Hsite Hc. unfold hermesBuiltinGetTemplateObject, getArgCount.
  destruct (Z.ltb_spec (Z.of_nat (length args)) 3); [lia|].
  unfold callSite in Hsite.
  destruct (stackFrames rt) as [|fr rest] eqn:Hfr; [done|]. cbn [head] in Hsite.
  destruct (getArg args 0) as [| | | | d | | |] eqn:Ha0; try done.
  destruct (savedCodeBlock fr) as [cb|] eqn:Hcb; [|done].
  destruct (getNumberAs_uint32 d) as [id'|] eqn:Hid; [|done].
  injection Hsite as <- <-.
  rewrite Hb. cbn [isNumber negb getNumber].
  unfold bind, getRuntime. cbn [ret]. rewrite Hid. cbn [liftOpt ret].
  rewrite Hfr. cbn [head liftOpt ret]. rewrite Hcb.
  unfold findCachedTemplateObject, cachedTemplate in *.
  destruct (modules rt !! getRuntimeModule cb) as [md|]; [|done].
  cbn in Hc. by rewrite Hc.
Qed.

(** X6. Once a call has returned, every later call from the same frame with
    the same call-site id returns the same object and leaves the runtime
    exactly as it is: nothing is allocated, the arguments that follow the
    flag are not read, and their number may even be odd. *)
Theorem getTemplateObject_repeat (args args' : NativeArgs) (rt : Runtime)
    (v : HermesValue) (rt' : Runtime) :
  Z.of_nat (length args) < 2 ^ 32 ->
  hermesBuiltinGetTemplateObject args rt = Some (Returned v, rt') ->
  (3 <= length args')%nat ->
  getArg args' 0 = getArg args 0 ->
  isBool (getArg args' 1) = true ->
  hermesBuiltinGetTemplateObject args' rt' = Some (Returned v, rt').
Proof.
  intros Hlt Hcall H3 Ha0 Hb.
  destruct (getTemplateObject_cases args rt _ rt' Hlt Hcall)
    as [(e & He & _)|[(m & id & o & Hsite & Hhit & Hv & ->)
                     |(m & id & md & dup & Hsite & Hmd & Hmiss & _ & _ & _
                         & Hv & ->)]]; [done| |];
    injection Hv as ->.
  - apply (getTemplateObject_hit args' rt m id o); try done.
    unfold callSite in *. by rewrite Ha0.
  - apply (getTemplateObject_hit args' _ m id); try done.
    + unfold callSite in *. by rewrite Ha0.
    + rewrite (cachedTemplate_after _ _ _ _ _ _ _ _ Hmd).
      by rewrite decide_True.
Qed.

Lemma getTemplateObject_repeat_witness :
  hermesBuiltinGetTemplateObject templateArgsD
      (stateAfter templateArgsA templateRuntime) =
    Some (Returned (HVObject 1%nat), stateAfter templateArgsA templateRuntime).
Proof.
  apply (getTemplateObject_repeat templateArgsA templateArgsD templateRuntime).
  - cbn. lia.
  - vm_compute. reflexivity.
  - cbn. lia.
  - reflexivity.
  - reflexivity.
Defined.

Lemma lengthOf_frozenArray vs extra :
  Z.of_nat (length vs) < 2 ^ 32 ->
  lengthOf (frozenArray vs extra) = Some (Z.of_nat (length vs)).
Proof.
  intros H. unfold lengthOf, frozenArray; cbn.
  apply getNumberAs_uint32_ofZ. lia.
Qed.

Lemma templateCount_bounds (dup : bool) (args : NativeArgs) :
  (3 <= length args)%nat ->
  (dup = false -> Z.of_nat (length args) mod 2 = 0) ->
  (1 <= templateCount dup args <= length args)%nat.
Proof.
  intros H3 Heven. unfold templateCount. destruct dup; [lia|].
  specialize (Heven eq_refl).
  assert (length args mod 2 = 0)%nat.
  { apply Nat2Z.inj. rewrite (Nat2Z.inj_mod _ 2). exact Heven. }
  pose proof (Nat.div_mod_eq (length args) 2). lia.
Qed.

(** X7. A template object is never empty, and the arrays agree with their
    [length].  After a call to [getTemplateObject] that returned and did not
    find its call site in the cache, the template object and its raw array
    have the same number of elements, at least one, and the [length] of
    each, which started at zero when the array was created, is that number. *)
Theorem getTemplateObject_nonempty (args : NativeArgs) (rt : Runtime)
    (v : HermesValue) (rt' : Runtime) (m : nat) (id : Z) :
  Z.of_nat (length args) < 2 ^ 32 ->
  hermesBuiltinGetTemplateObject args rt = Some (Returned v, rt') ->
  callSite rt args = Some (m, id) ->
  cachedTemplate rt m id = None ->
  exists (t r : ObjRef) (tObj rObj : JSObject) (n : nat),
    v = HVObject t
    /\ heap rt' !! t = Some tObj
    /\ heap rt' !! r = Some rObj
    /\ rawProperty tObj r
    /\ (1 <= n)%nat
    /\ length (elementsOf tObj) = n
    /\ length (elementsOf rObj) = n
    /\ lengthOf tObj = Some (Z.of_nat n)
    /\ lengthOf rObj = Some (Z.of_nat n).
Proof.
  intros Hlt Hcall Hsite Hmiss.
  destruct (getTemplateObject_cases args rt _ rt' Hlt Hcall)
    as [(e & He & _)|[(m' & id' & o & Hsite' & Hhit & _)
                     |(m' & id' & md & dup & Hsite' & Hmd & _ & _ & H3 & Heven
                         & Hv & ->)]]; [done|congruence|].
  injection Hv as ->.
  destruct (templateCount_bounds dup args H3 Heven) as [Hn1 Hn2].
  set (n := templateCount dup args) in *.
  unfold templateRuntimeAfter. cbn [heap]. fold n.
  eexists (S (length (heap rt))), (length (heap rt)), _, _, n.
  split; [reflexivity|].
  split; [apply lookup_two_second|]. split; [apply lookup_two_first|].
  split; [by exists 1%nat|]. split; [done|].
  split; [by rewrite elementsOf_frozenArray, length_argsFrom|].
  split; [by rewrite elementsOf_frozenArray, length_argsFrom|].
  split; (rewrite lengthOf_frozenArray; rewrite length_argsFrom; (done || lia)).
Qed.

Lemma getTemplateObject_nonempty_witness :
  exists (t r : ObjRef) (tObj rObj : JSObject) (n : nat),
    HVObject 1%nat = HVObject t
    /\ heap (stateAfter templateArgsA templateRuntime) !! t = Some tObj
    /\ heap (stateAfter templateArgsA templateRuntime) !! r = Some rObj
    /\ rawProperty tObj r
    /\ (1 <= n)%nat
    /\ length (elementsOf tObj) = n
    /\ length (elementsOf rObj) = n
    /\ lengthOf tObj = Some (Z.of_nat n)
    /\ lengthOf rObj = Some (Z.of_nat n).
Proof.
  apply (getTemplateObject_nonempty templateArgsA templateRuntime
           (HVObject 1%nat) (stateAfter templateArgsA templateRuntime)
           0%nat 7).
  - cbn. lia.
  - vm_compute. reflexivity.
  - reflexivity.
  - reflexivity.
Defined.

(** ** copyRestArgs: totality, and rest arguments handed on to apply *)

Lemma restArray_lookup len vs j :
  lookupIndexed (restArray len vs) j
  = mkIndexed defaultPropertyFlags <$> vs !! j.
Proof.
  unfold lookupIndexed, restArray, restElement; cbn.
  rewrite list_lookup_fmap. by destruct (vs !! j).
Qed.

Lemma arrayArgsFrom_restArray len vs :
  arrayArgsFrom (restArray len vs) 0 (length vs) = vs.
Proof.
  unfold arrayArgsFrom. apply list_eq. intros j.
  rewrite list_lookup_fmap.
  destruct (decide (j < length vs)%nat) as [Hlt|Hge].
  - rewrite lookup_seq_lt by done. cbn.
    unfold elementAt. rewrite restArray_lookup.
    destruct (lookup_lt_is_Some_2 vs j Hlt) as [v Hv]. by rewrite Hv.
  - rewrite lookup_seq_ge by lia. cbn. symmetry. apply lookup_ge_None_2. lia.
Qed.

(** The array [copyRestArgs] returns, in terms of the arguments it
    holds. *)
Lemma copyRestArgs_returns (args : NativeArgs) (rt : Runtime)
    (cur caller : StackFrame) (rest : list StackFrame) (d : JSNumber) :
  stackFrames rt = cur :: caller :: rest ->
  getArg args 0 = HVNumber d ->
  Z.of_nat (length (frameArgs caller)) < 2 ^ 32 ->
  let vs := drop (Z.to_nat (truncateToUInt32 d)) (frameArgs caller) in
  hermesBuiltinCopyRestArgs args rt =
    Some (Returned (HVObject (length (heap rt))),
          setHeap (heap rt ++ [restArray (Z.of_nat (length vs)) vs]) rt).
Proof.
  intros Hfr Harg Hlt vs. unfold hermesBuiltinCopyRestArgs.
  unfold bind at 1. unfold getRuntime. rewrite Hfr, Harg.
  set (from := truncateToUInt32 d).
  set (argCount := getArgCount (frameArgs caller)).
  assert (Hfrom : 0 <= from < 2 ^ 32).
  { unfold from, truncateToUInt32. destruct d; try lia.
    apply Z.mod_pos_bound. lia. }
  set (len := if from <=? argCount then argCount - from else 0).
  assert (Hargc : argCount = Z.of_nat (length (frameArgs caller)))
    by reflexivity.
  assert (Hlen : len = Z.of_nat (length vs)).
  { unfold len, vs. rewrite length_drop. fold from.
    destruct (Z.leb_spec from argCount); lia. }
  unfold JSArray_create. unfold bind at 1. unfold bind at 1.
  unfold allocCell at 1. cbn [ret].
  set (o0 := mkObj ArrayKind false _ []).
  set (rt1 := setHeap (heap rt ++ [o0]) rt).
  unfold bind at 1. unfold JSArray_setStorageEndIndex.
  assert (Ho0 : heap rt1 !! length (heap rt) = Some o0).
  { unfold rt1; simpl. by rewrite lookup_app_r, Nat.sub_diag. }
  unfold bind at 1. rewrite (getCell_eq _ _ _ Ho0). unfold setCell.
  set (o1 := withIndexed o0 _).
  set (rt2 := setHeap (<[length (heap rt) := o1]> (heap rt1)) rt1).
  assert (Ho1 : heap rt2 !! length (heap rt) = Some o1).
  { unfold rt2; simpl. apply list_lookup_insert_eq.
    rewrite length_app. simpl. lia. }
  assert (Hidx1 : indexed o1 = [] ++ replicate (Z.to_nat len) None).
  { unfold o1, o0; simpl. by rewrite take_replicate, Nat.min_id. }
  unfold bind at 1.
  change (setHeap (<[length (heap rt) := o1]> (heap rt1)) rt1) with rt2.
  rewrite (copyRestArgs_loop_spec caller (length (heap rt)) (Z.to_nat len)
             0 from rt2 o1 [] Ho1 Hidx1);
    [|reflexivity|lia| |lia].
  2:{ intros Hpos. unfold len in *.
      destruct (Z.leb_spec from argCount); lia. }
  unfold ret, encodeObjectValue. f_equal. f_equal.
  unfold rt2, rt1. rewrite !setHeap_setHeap. simpl.
  rewrite list_insert_insert_eq. f_equal.
  replace (length (heap rt)) with (length (heap rt) + 0)%nat at 1 by lia.
  rewrite insert_app_r. simpl. f_equal. f_equal.
  unfold restArray, o1, o0, withIndexed; simpl. f_equal.
  - by rewrite Hlen.
  - fold from. fold vs. f_equal. apply take_ge. lia.
Qed.

(** X8. [copyRestArgs] never raises and never touches what exists.  Called on
    a stack with a frame of its own, it returns [undefined] and leaves the
    runtime as it was when there is no caller frame, whatever its argument,
    and when its argument is no number; otherwise it returns a new array,
    the one cell it allocates.  The stack, the modules and the pending
    exception are left alone in every case. *)
Theorem copyRestArgs_never_raises (args : NativeArgs) (rt : Runtime) :
  stackFrames rt <> [] ->
  (forall caller, stackFrames rt !! 1%nat = Some caller ->
                  Z.of_nat (length (frameArgs caller)) < 2 ^ 32) ->
  exists (v : HermesValue) (rt' : Runtime),
    hermesBuiltinCopyRestArgs args rt = Some (Returned v, rt')
    /\ stackFrames rt' = stackFrames rt
    /\ modules rt' = modules rt
    /\ thrownValue rt' = thrownValue rt
    /\ ((v = HVUndefined /\ rt' = rt)
        \/ (exists o, v = HVObject (length (heap rt))
                      /\ heap rt' = heap rt ++ [o]
                      /\ kind o = ArrayKind))
    /\ (length (stackFrames rt) = 1%nat \/ isNumber (getArg args 0) = false ->
        v = HVUndefined /\ rt' = rt).
Proof.
  intros Hne Hbound.
  destruct (stackFrames rt) as [|cur [|caller rest]] eqn:Hfr; [done| |].
  - exists HVUndefined, rt.
    unfold hermesBuiltinCopyRestArgs, bind, getRuntime. rewrite Hfr.
    repeat split; auto.
  - destruct (getArg args 0) as [| | | | d | | |] eqn:Ha0;
      try (exists HVUndefined, rt;
           unfold hermesBuiltinCopyRestArgs, bind, getRuntime;
           rewrite Hfr, Ha0; repeat split; by auto).
    eexists _, _.
    split; [apply (copyRestArgs_returns args rt cur caller rest d Hfr Ha0);
            by apply Hbound|].
    split; [by rewrite <- Hfr|]. split; [done|]. split; [done|].
    split; [right; by eexists|].
    intros [H|H]; [cbn in H; lia|done].
Qed.

Lemma copyRestArgs_never_raises_witness :
  exists (v : HermesValue) (rt' : Runtime),
    hermesBuiltinCopyRestArgs [encodeNumberValue 0]
        (generatorRuntime 0%nat) = Some (Returned v, rt')
    /\ stackFrames rt' = stackFrames (generatorRuntime 0%nat)
    /\ modules rt' = modules (generatorRuntime 0%nat)
    /\ thrownValue rt' = thrownValue (generatorRuntime 0%nat)
    /\ ((v = HVUndefined /\ rt' = generatorRuntime 0%nat)
        \/ (exists o, v = HVObject (length (heap (generatorRuntime 0%nat)))
                      /\ heap rt' = heap (generatorRuntime 0%nat) ++ [o]
                      /\ kind o = ArrayKind))
    /\ (length (stackFrames (generatorRuntime 0%nat)) = 1%nat
        \/ isNumber (getArg [encodeNumberValue 0] 0) = false ->
        v = HVUndefined /\ rt' = generatorRuntime 0%nat).
Proof.
  apply copyRestArgs_never_raises; [discriminate|].
  intros caller [= <-]. cbn. lia.
Defined.

(** X9. Rest arguments handed on.  The array that [copyRestArgs] makes of the
    caller's arguments from [from] on, given to [apply] with a function and
    a [this], calls the function with exactly those arguments, in order, and
    with that [this]; what the function returns or throws is the outcome. *)
Theorem apply_copyRestArgs (rt : Runtime) (cur caller : StackFrame)
    (rest : list StackFrame) (d : JSNumber) (f : ObjRef) (F : JSObject)
    (body : Behaviour) (thisVal : HermesValue) :
  stackFrames rt = cur :: caller :: rest ->
  Z.of_nat (length (frameArgs caller)) < 2 ^ 32 ->
  heap rt !! f = Some F ->
  bodyOf F = Some body ->
  exists (a : ObjRef) (rt1 : Runtime),
    hermesBuiltinCopyRestArgs [HVNumber d] rt
    = Some (Returned (HVObject a), rt1)
    /\ let out := body thisVal
                    (drop (Z.to_nat (truncateToUInt32 d)) (frameArgs caller))
                    HVUndefined in
       hermesBuiltinApply [HVObject f; HVObject a; thisVal] rt1
       = Some (callResult out, afterOutcome out rt1).
Proof.
  intros Hfr Hlt HF Hbody.
  set (vs := drop (Z.to_nat (truncateToUInt32 d)) (frameArgs caller)).
  set (A := restArray (Z.of_nat (length vs)) vs).
  exists (length (heap rt)), (setHeap (heap rt ++ [A]) rt).
  split; [by apply (copyRestArgs_returns [HVNumber d] rt cur caller rest d)|].
  intros out.
  set (rt1 := setHeap (heap rt ++ [A]) rt).
  assert (Hf1 : heap rt1 !! f = Some F).
  { unfold rt1. rewrite heap_setHeap.
    rewrite lookup_app_l by (by eapply lookup_lt_Some). done. }
  assert (Ha1 : heap rt1 !! length (heap rt) = Some A).
  { unfold rt1. rewrite heap_setHeap. by rewrite lookup_app_r, Nat.sub_diag. }
  assert (Hvs : Z.of_nat (length vs) < 2 ^ 32).
  { unfold vs. rewrite length_drop. lia. }
  assert (Hcallable : isCallable (kind F) = true).
  { unfold bodyOf, bodyOfKind in Hbody. by destruct (kind F). }
  unfold hermesBuiltinApply.
  set (args := [HVObject f; HVObject (length (heap rt)); thisVal]).
  unfold bind at 1.
  rewrite (dyncastArg_object rt1 args 0 f F isCallable eq_refl Hf1), Hcallable.
  unfold bind at 1.
  rewrite (dyncastArg_object rt1 args 1 _ A isJSArray eq_refl Ha1).
  cbn [isJSArray kind A restArray].
  unfold bind at 1. unfold JSArray_getLength. unfold bind at 1.
  rewrite (getCell_eq _ _ _ Ha1).
  assert (HlenA : lengthOf A = Some (Z.of_nat (length vs))).
  { unfold lengthOf, A, restArray; cbn. apply getNumberAs_uint32_ofZ. lia. }
  rewrite HlenA. cbn [liftOpt ret].
  change (getArgCount args =? 2) with false.
  cbv zeta. unfold bind at 1. cbn [ret].
  change (getArg args 2) with thisVal.
  rewrite (apply_frame rt1 f (length (heap rt)) F A body
             (Z.of_nat (length vs)) false thisVal Hf1 Hbody Ha1 ltac:(lia)).
  rewrite Nat2Z.id. unfold A. rewrite arrayArgsFrom_restArray. reflexivity.
Qed.

Lemma apply_copyRestArgs_witness :
  exists (a : ObjRef) (rt1 : Runtime),
    hermesBuiltinCopyRestArgs [HVNumber (ofZ 1)] forwardExample
    = Some (Returned (HVObject a), rt1)
    /\ let out := Returns (HVString "c") in
       hermesBuiltinApply [HVObject 0%nat; HVObject a; HVString "this"] rt1
       = Some (callResult out, afterOutcome out rt1).
Proof.
  exact (apply_copyRestArgs forwardExample _ _ _ (ofZ 1) 0%nat _ _
           (HVString "this") eq_refl ltac:(cbn; lia) eq_refl eq_refl).
Defined.

(** ** arraySpread: an iterator that ends *)

Lemma putLength_withIndexed T l n :
  putLength (withIndexed T l) n = withIndexed (putLength T n) l.
Proof.
  unfold putLength; cbn. by destruct (named T !! lengthPropIndex).
Qed.

Lemma putLength_putLength T a b :
  putLength (putLength T a) b = putLength T b.
Proof.
  unfold putLength, lengthPropIndex.
  destruct T as [k e [|p ps] i]; reflexivity.
Qed.

Lemma lengthOf_putLength T p n :
  named T !! lengthPropIndex = Some p ->
  0 <= n < 2 ^ 32 ->
  lengthOf (putLength T n) = Some n.
Proof.
  intros Hp Hn. unfold lengthOf, putLength, lengthPropIndex in *.
  rewrite Hp. destruct (named T) as [|q qs]; [done|]. cbn.
  by apply getNumberAs_uint32_ofZ.
Qed.

Lemma lengthOf_withIndexed T l : lengthOf (withIndexed T l) = lengthOf T.
Proof. reflexivity. Qed.

(** One value put at the end of a spread target. *)
Lemma putComputed_append (numberToString : JSNumber -> string) rt t T idx v :
  heap rt !! t = Some T ->
  SpreadTarget T idx ->
  Z.of_nat idx < 2 ^ 32 - 1 ->
  putComputed_RJS numberToString t (encodeNumberValue (Z.of_nat idx)) v rt
  = Some (Returned true,
          setHeap (<[t := afterSpread T idx [v]]> (heap rt)) rt).
Proof.
  intros Ht (Hk & Hext & (lp & len & Hlp & Hw & Hlen) & Hidx) Hi.
  unfold putComputed_RJS.
  rewrite toArrayIndex_encode, Nat2Z.id by lia.
  unfold bind at 1. rewrite (getCell_eq _ _ _ Ht).
  assert (Hnone : lookupIndexed T idx = None).
  { unfold lookupIndexed. by rewrite lookup_ge_None_2. }
  rewrite Hnone. unfold addIndexed. rewrite Hext, Hk, Hlp, Hlen, Hw.
  cbn [isJSArray].
  assert (Hstore : storeIndexed (indexed T) idx
                     (mkIndexed defaultPropertyFlags v)
                   = placed (indexed T) idx [v]).
  { unfold storeIndexed, placed. rewrite decide_False by lia. done. }
  rewrite Hstore. unfold afterSpread. rewrite Hlen. cbn [length].
  replace (Z.of_nat (idx + 1)) with (Z.of_nat idx + 1) by lia.
  destruct (Z.leb_spec len (Z.of_nat idx)), (Z.ltb_spec len (Z.of_nat idx + 1));
    try lia; reflexivity.
Qed.

Lemma SpreadTarget_afterSpread T idx vs :
  SpreadTarget T idx ->
  Z.of_nat (idx + length vs) < 2 ^ 32 ->
  SpreadTarget (afterSpread T idx vs) (idx + length vs).
Proof.
  intros (Hk & Hext & (lp & len & Hlp & Hw & Hlen) & Hidx) Hlt.
  unfold afterSpread. rewrite Hlen.
  destruct vs as [|v vs].
  { rewrite Nat.add_0_r. split; [done|]. split; [done|].
    split; [by exists lp, len|done]. }
  set (next := Z.of_nat (idx + length (v :: vs))).
  assert (Hplaced : length (placed (indexed T) idx (v :: vs))
                    = (idx + length (v :: vs))%nat).
  { unfold placed. rewrite !length_app, length_replicate, length_fmap. lia. }
  destruct (len <? next).
  - split; [unfold putLength; by rewrite Hlp|].
    split; [unfold putLength; by rewrite Hlp|]. split.
    + unfold putLength. rewrite Hlp. eexists _, next.
      cbn [named withIndexed withNamed]. unfold lengthPropIndex in *.
      destruct (named T) as [|q qs]; [done|]. cbn.
      split; [reflexivity|]. cbn. split; [done|].
      unfold lengthOf; cbn. apply getNumberAs_uint32_ofZ. unfold next. lia.
    + cbn [indexed withIndexed]. by rewrite Hplaced.
  - split; [done|]. split; [done|]. split; [by exists lp, len|].
    cbn [indexed withIndexed]. by rewrite Hplaced.
Qed.

Lemma afterSpread_cons T idx v vs :
  SpreadTarget T idx ->
  Z.of_nat (idx + S (length vs)) < 2 ^ 32 ->
  afterSpread (afterSpread T idx [v]) (S idx) vs = afterSpread T idx (v :: vs).
Proof.
  intros (Hk & Hext & (lp & len & Hlp & Hw & Hlen) & Hidx) Hlt.
  destruct vs as [|w vs]; [done|].
  unfold afterSpread at 2. rewrite Hlen. cbn [length].
  replace (Z.of_nat (idx + 1)) with (Z.of_nat idx + 1) by lia.
  unfold afterSpread at 2. rewrite Hlen.
  set (N := Z.of_nat (idx + length (v :: w :: vs))).
  assert (HN : Z.of_nat (S idx + length (w :: vs)) = N).
  { unfold N. cbn [length]. lia. }
  assert (Hpl : forall X,
            placed (indexed (withIndexed X (placed (indexed T) idx [v])))
              (S idx) (w :: vs)
            = placed (indexed T) idx (v :: w :: vs)).
  { intros X. cbn [indexed withIndexed]. unfold placed at 2.
    by apply placed_cons. }
  destruct (Z.ltb_spec len (Z.of_nat idx + 1)) as [Hl|Hl].
  - unfold afterSpread.
    rewrite lengthOf_withIndexed, (lengthOf_putLength T lp) by (done || lia).
    rewrite HN, Hpl.
    destruct (Z.ltb_spec (Z.of_nat idx + 1) N) as [_|Hc];
      [|unfold N in Hc; cbn [length] in Hc; lia].
    destruct (Z.ltb_spec len N) as [_|Hc];
      [|unfold N in Hc; cbn [length] in Hc; lia].
    by rewrite putLength_withIndexed, putLength_putLength,
         withIndexed_withIndexed.
  - unfold afterSpread. rewrite lengthOf_withIndexed, Hlen, HN, Hpl.
    destruct (len <? N).
    + by rewrite putLength_withIndexed, withIndexed_withIndexed.
    + by rewrite withIndexed_withIndexed.
Qed.

Lemma afterSpread_app T idx vs ws :
  SpreadTarget T idx ->
  Z.of_nat (idx + length vs + length ws) < 2 ^ 32 ->
  afterSpread (afterSpread T idx vs) (idx + length vs) ws
  = afterSpread T idx (vs ++ ws).
Proof.
  revert T idx. induction vs as [|v vs IH]; intros T idx HT Hlt.
  - cbn [length app]. rewrite Nat.add_0_r.
    unfold afterSpread at 2. by destruct (lengthOf T).
  - cbn [length app] in *.
    rewrite <- (afterSpread_cons T idx v vs) by (done || lia).
    rewrite <- (afterSpread_cons T idx v (vs ++ ws))
      by (done || rewrite length_app; lia).
    replace (idx + S (length vs))%nat with (S idx + length vs)%nat by lia.
    apply IH.
    + replace (S idx) with (idx + length [v])%nat by (cbn; lia).
      apply SpreadTarget_afterSpread; [done|]. cbn. lia.
    + lia.
Qed.

Lemma indexed_afterSpread T idx vs :
  SpreadTarget T idx ->
  indexed (afterSpread T idx vs) = placed (indexed T) idx vs.
Proof.
  intros (_ & _ & (lp & len & _ & _ & Hlen) & _).
  unfold afterSpread. rewrite Hlen. by destruct vs.
Qed.

Lemma lengthOf_afterSpread T idx vs len :
  SpreadTarget T idx ->
  lengthOf T = Some len ->
  Z.of_nat (idx + length vs) < 2 ^ 32 ->
  lengthOf (afterSpread T idx vs)
  = Some (match vs with
          | [] => len
          | _ => Z.max len (Z.of_nat (idx + length vs))
          end).
Proof.
  intros (_ & _ & (lp & len' & Hlp & _ & Hlen') & _) Hlen Hlt.
  unfold afterSpread. rewrite Hlen. destruct vs as [|v vs]; [done|].
  rewrite lengthOf_withIndexed.
  destruct (Z.ltb_spec len (Z.of_nat (idx + length (v :: vs)))).
  - rewrite (lengthOf_putLength T lp) by (done || lia). f_equal. lia.
  - rewrite Hlen. f_equal. lia.
Qed.

(** The loop on an iterator that yields [vs] and is then done: the values
    are put on the target, the iterator is exhausted, and each step left
    its result object behind. *)
Lemma arraySpread_loop_done (numberToString : JSNumber -> string)
    (t it : ObjRef) (vs : list HermesValue) :
  forall (fuel idx : nat) (rt : Runtime) (T o : JSObject),
    (length vs < fuel)%nat ->
    t <> it ->
    heap rt !! it = Some o ->
    kind o = IteratorKind (StepValue <$> vs) ->
    heap rt !! t = Some T ->
    SpreadTarget T idx ->
    Z.of_nat (idx + length vs) <= 2 ^ 32 - 1 ->
    arraySpread_loop numberToString fuel t (mkIteratorRecord it)
        (encodeNumberValue (Z.of_nat idx)) rt =
      Some (Returned (encodeNumberValue (Z.of_nat (idx + length vs))),
            setHeap
              (<[t := afterSpread T idx vs]>
                 (<[it := withKind o (IteratorKind [])]> (heap rt))
                 ++ (stepResult <$> vs)) rt).
Proof.
  induction vs as [|v vs IH];
    intros fuel idx rt T o Hfuel Hne Hit Hk Ht Htarget Hidx.
  - destruct fuel as [|fuel]; [cbn in Hfuel; lia|].
    cbn [arraySpread_loop]. unfold bind at 1.
    unfold iteratorStep. cbn [iterator]. unfold bind at 1.
    rewrite (getCell_eq _ _ _ Hit), Hk. cbn [fmap list_fmap ret length].
    rewrite Nat.add_0_r, app_nil_r. f_equal. f_equal.
    assert (Ho : withKind o (IteratorKind []) = o).
    { destruct o; cbn in *. by subst. }
    rewrite Ho, (list_insert_id _ it o) by done.
    unfold afterSpread. destruct (lengthOf T); by rewrite setHeap_insert_id.
  - destruct fuel as [|fuel]; [cbn in Hfuel; lia|].
    cbn [length] in *.
    cbn [arraySpread_loop]. unfold bind at 1.
    rewrite (iteratorStep_value _ _ _ _ _ Hit Hk).
    set (o1 := withKind o (IteratorKind _)).
    set (rt1 := setHeap (<[it := o1]> (heap rt) ++ [stepResult v]) rt).
    assert (Hltt : (t < length (heap rt))%nat) by (by eapply lookup_lt_Some).
    assert (Hlti : (it < length (heap rt))%nat) by (by eapply lookup_lt_Some).
    assert (Hres : heap rt1 !! length (heap rt) = Some (stepResult v)).
    { unfold rt1. rewrite heap_setHeap.
      rewrite lookup_app_r by (by rewrite length_insert).
      by rewrite length_insert, Nat.sub_diag. }
    unfold bind at 1. rewrite (getNamed_value _ _ _ Hres).
    assert (Ht1 : heap rt1 !! t = Some T).
    { unfold rt1. rewrite heap_setHeap.
      rewrite lookup_app_l by (by rewrite length_insert).
      by rewrite list_lookup_insert_ne. }
    unfold bind at 1.
    rewrite (putComputed_append numberToString rt1 t T idx v Ht1 Htarget)
      by lia.
    unfold bind at 1. cbn [getNumber encodeNumberValue ret].
    rewrite addOne_ofZ by lia.
    replace (Z.of_nat idx + 1) with (Z.of_nat (Datatypes.S idx)) by lia.
    set (T1 := afterSpread T idx [v]).
    set (rt2 := setHeap (<[t := T1]> (heap rt1)) rt1).
    assert (Hit2 : heap rt2 !! it = Some o1).
    { unfold rt2, rt1. rewrite !heap_setHeap.
      rewrite list_lookup_insert_ne by done.
      rewrite lookup_app_l by (by rewrite length_insert).
      by apply list_lookup_insert_eq. }
    assert (Ht2 : heap rt2 !! t = Some T1).
    { unfold rt2. rewrite heap_setHeap. apply list_lookup_insert_eq.
      by eapply lookup_lt_Some. }
    assert (Htarget1 : SpreadTarget T1 (Datatypes.S idx)).
    { replace (Datatypes.S idx) with (idx + length [v])%nat by (cbn; lia).
      apply SpreadTarget_afterSpread; [done|]. cbn. lia. }
    change (HVNumber (ofZ (Z.of_nat (Datatypes.S idx))))
      with (encodeNumberValue (Z.of_nat (Datatypes.S idx))).
    rewrite (IH fuel (Datatypes.S idx) rt2 T1 o1); try done; try lia.
    replace (Datatypes.S idx + length vs)%nat
      with (idx + Datatypes.S (length vs))%nat by lia.
    f_equal. f_equal.
    unfold T1. rewrite (afterSpread_cons T idx v vs) by (done || lia).
    unfold rt2, rt1. rewrite !setHeap_setHeap, !heap_setHeap.
    f_equal. unfold o1, withKind; cbn [kind noExtend named indexed].
    cbn [fmap list_fmap].
    rewrite (insert_app_l _ _ t) by (by rewrite length_insert).
    rewrite (insert_app_l _ _ it)
      by (by rewrite !length_insert).
    rewrite (insert_app_l _ _ t) by (by rewrite !length_insert).
    rewrite <- app_assoc. cbn [app]. f_equal.
    rewrite (list_insert_insert_ne _ it t) by done.
    by rewrite !list_insert_insert_eq.
Qed.

(** The call as a whole, on a source whose iterator ends after [vs]. *)
Lemma arraySpread_returns (numberToString : JSNumber -> string)
    (fuel : nat) (args : NativeArgs) (rt : Runtime)
    (t src : ObjRef) (T Sobj : JSObject) (vs : list HermesValue) (idx : nat) :
  getArg args 0 = HVObject t -> heap rt !! t = Some T ->
  SpreadTarget T idx ->
  getArg args 1 = HVObject src -> heap rt !! src = Some Sobj ->
  kind Sobj = IterableKind (StepValue <$> vs) ->
  getArg args 2 = encodeNumberValue (Z.of_nat idx) ->
  Z.of_nat (idx + length vs) <= 2 ^ 32 - 1 ->
  (length vs < fuel)%nat ->
  hermesBuiltinArraySpread numberToString fuel args rt =
    Some (Returned (encodeNumberValue (Z.of_nat (idx + length vs))),
          setHeap
            (<[t := afterSpread T idx vs]> (heap rt)
               ++ exhaustedIterator :: (stepResult <$> vs)) rt).
Proof.
  intros Ha0 Ht Htarget Ha1 Hsrc Hk Ha2 Hidx Hfuel.
  unfold hermesBuiltinArraySpread.
  unfold bind at 1. rewrite (dyncastArg_object _ _ _ _ _ _ Ha0 Ht).
  pose proof Htarget as (HkT & _). rewrite HkT. cbn [isJSArray].
  rewrite Ha1. unfold getIterator. unfold bind at 1. unfold bind at 1.
  rewrite (getCell_eq _ _ _ Hsrc), Hk.
  unfold bind at 1. unfold allocCell. cbn [ret]. rewrite Ha2.
  set (it := length (heap rt)).
  set (o := mkObj (IteratorKind _) false [] []).
  set (rt1 := setHeap (heap rt ++ [o]) rt).
  assert (Hlt : (t < length (heap rt))%nat) by (by eapply lookup_lt_Some).
  assert (Hne : t <> it) by (unfold it; lia).
  assert (Hit : heap rt1 !! it = Some o).
  { unfold rt1. rewrite heap_setHeap. by rewrite lookup_app_r, Nat.sub_diag. }
  assert (Ht1 : heap rt1 !! t = Some T).
  { unfold rt1. rewrite heap_setHeap. by rewrite lookup_app_l. }
  rewrite (arraySpread_loop_done numberToString t it vs fuel idx rt1 T o
             Hfuel Hne Hit eq_refl Ht1 Htarget Hidx).
  f_equal. f_equal. unfold rt1. rewrite setHeap_setHeap, heap_setHeap.
  f_equal. unfold it.
  replace (length (heap rt)) with (length (heap rt) + 0)%nat at 1 by lia.
  rewrite insert_app_r. cbn [insert list_insert app].
  rewrite insert_app_l by done. by rewrite <- app_assoc.
Qed.

(** X10. [arraySpread] requires an array as its target: anything else raises
    a type error before the source is looked at, and nothing is allocated.
    On a spread target, which is an extensible array with a writable
    [length] whose storage ends at or before [idx], with [nextIndex] the
    number [idx] and a source whose iterator yields the values [vs] and is
    then done, [idx] and the number of values being together at most
    2^32 - 1, so that every index written is an array index, and with fuel
    for one iteration more than there are values, it returns the index
    after the last value, and the target holds what it held and then [vs]
    from [idx] on, its [length] moved up to the returned index when it was
    below it; what the iteration allocated, the iterator and one result
    object for each value, stays behind it, and nothing else changes. *)
Theorem arraySpread_spec (numberToString : JSNumber -> string)
    (fuel : nat) (args : NativeArgs) (rt : Runtime) :
  valueLive rt (getArg args 0) ->
  (isArrayArg rt (getArg args 0) = false ->
   hermesBuiltinArraySpread numberToString fuel args rt =
     Some (EXCEPTION,
           setThrownValue
             (Some (TypeError
                      "HermesBuiltin.arraySpread requires an array target"))
             rt))
  /\ (forall (t src : ObjRef) (T Sobj : JSObject) (vs : list HermesValue)
             (idx : nat) (len : Z),
        getArg args 0 = HVObject t -> heap rt !! t = Some T ->
        SpreadTarget T idx ->
        lengthOf T = Some len ->
        getArg args 1 = HVObject src -> heap rt !! src = Some Sobj ->
        kind Sobj = IterableKind (StepValue <$> vs) ->
        getArg args 2 = encodeNumberValue (Z.of_nat idx) ->
        Z.of_nat (idx + length vs) <= 2 ^ 32 - 1 ->
        (length vs < fuel)%nat ->
        hermesBuiltinArraySpread numberToString fuel args rt =
          Some (Returned (encodeNumberValue (Z.of_nat (idx + length vs))),
                setHeap
                  (<[t := afterSpread T idx vs]> (heap rt)
                     ++ exhaustedIterator :: (stepResult <$> vs)) rt)
        /\ indexed (afterSpread T idx vs) = placed (indexed T) idx vs
        /\ lengthOf (afterSpread T idx vs)
           = Some (match vs with
                   | [] => len
                   | _ => Z.max len (Z.of_nat (idx + length vs))
                   end)
        /\ SpreadTarget (afterSpread T idx vs) (idx + length vs)).
Proof.
  intros Hlive. split.
  - intros Hno. unfold hermesBuiltinArraySpread, bind.
    by rewrite (dyncastArg_none _ _ _ _ Hlive Hno).
  - intros t src T Sobj vs idx len Ha0 Ht Htarget Hlen Ha1 Hsrc Hk Ha2
      Hidx Hfuel.
    split; [by eapply arraySpread_returns|].
    split; [by apply indexed_afterSpread|].
    split; [apply lengthOf_afterSpread; (done || lia)|].
    apply SpreadTarget_afterSpread; (done || lia).
Qed.

Lemma arraySpread_spec_witness :
  hermesBuiltinArraySpread integerToString 3
      [HVObject 0%nat; HVObject 1%nat; encodeNumberValue 0] spreadTwice =
    Some (Returned (encodeNumberValue 2),
          setHeap
            (<[0%nat := restArray 2 [HVString "a"; HVString "b"]]>
               (heap spreadTwice)
               ++ [exhaustedIterator; stepResult (HVString "a");
                   stepResult (HVString "b")]) spreadTwice).
Proof.
  assert (Hlive : valueLive spreadTwice (HVObject 0%nat)).
  { intros r [= <-]. by eexists. }
  destruct (arraySpread_spec integerToString 3
              [HVObject 0%nat; HVObject 1%nat; encodeNumberValue 0]
              spreadTwice Hlive) as [_ H].
  refine (proj1 (H 0%nat 1%nat _ _ [HVString "a"; HVString "b"] 0%nat 0
                   eq_refl eq_refl _ eq_refl eq_refl eq_refl eq_refl eq_refl
                   _ _)).
  - split; [reflexivity|]. split; [reflexivity|].
    split; [|cbn; lia]. by eexists _, 0.
  - cbn. lia.
  - cbn. lia.
Defined.

(** X11. Two spreads into the same array, the second starting at the index
    the first returned, leave the array as one spread of the two sequences
    would: this is how [[...a, ...b]] is put together. *)
Theorem arraySpread_twice (numberToString : JSNumber -> string)
    (fuel1 fuel2 : nat) (rt : Runtime)
    (t src1 src2 : ObjRef) (T S1 S2 : JSObject) (vs1 vs2 : list HermesValue)
    (idx : nat) :
  heap rt !! t = Some T ->
  SpreadTarget T idx ->
  heap rt !! src1 = Some S1 -> kind S1 = IterableKind (StepValue <$> vs1) ->
  heap rt !! src2 = Some S2 -> kind S2 = IterableKind (StepValue <$> vs2) ->
  Z.of_nat (idx + length vs1 + length vs2) <= 2 ^ 32 - 1 ->
  (length vs1 < fuel1)%nat ->
  (length vs2 < fuel2)%nat ->
  exists (next : HermesValue) (rt1 rt2 : Runtime),
    hermesBuiltinArraySpread numberToString fuel1
        [HVObject t; HVObject src1; encodeNumberValue (Z.of_nat idx)] rt
    = Some (Returned next, rt1)
    /\ hermesBuiltinArraySpread numberToString fuel2
         [HVObject t; HVObject src2; next] rt1
       = Some (Returned
                 (encodeNumberValue
                    (Z.of_nat (idx + length (vs1 ++ vs2)))), rt2)
    /\ heap rt2 !! t = Some (afterSpread T idx (vs1 ++ vs2))
    /\ indexed (afterSpread T idx (vs1 ++ vs2))
       = placed (indexed T) idx (vs1 ++ vs2).
Proof.
  intros Ht Htarget Hs1 Hk1 Hs2 Hk2 Hidx Hf1 Hf2.
  assert (Hltt : (t < length (heap rt))%nat) by (by eapply lookup_lt_Some).
  assert (Hlt2 : (src2 < length (heap rt))%nat) by (by eapply lookup_lt_Some).
  assert (Hne2 : src2 <> t).
  { intros ->. destruct Htarget as (HkT & _). congruence. }
  set (T1 := afterSpread T idx vs1).
  set (h1 := <[t := T1]> (heap rt)
               ++ exhaustedIterator :: (stepResult <$> vs1)).
  assert (Ht1 : heap (setHeap h1 rt) !! t = Some T1).
  { unfold h1. rewrite heap_setHeap.
    rewrite lookup_app_l by (by rewrite length_insert).
    by apply list_lookup_insert_eq. }
  assert (Hs2' : heap (setHeap h1 rt) !! src2 = Some S2).
  { unfold h1. rewrite heap_setHeap.
    rewrite lookup_app_l by (by rewrite length_insert).
    by rewrite list_lookup_insert_ne. }
  assert (Htarget1 : SpreadTarget T1 (idx + length vs1)).
  { apply SpreadTarget_afterSpread; (done || lia). }
  eexists _, _, _.
  split.
  { apply (arraySpread_returns numberToString fuel1 _ rt t src1 T S1 vs1 idx);
      (done || lia). }
  split.
  { rewrite (arraySpread_returns numberToString fuel2 _ (setHeap h1 rt)
               t src2 T1 S2 vs2
               (idx + length vs1)); try done; try lia.
    rewrite length_app, Nat.add_assoc. reflexivity. }
  split.
  - rewrite heap_setHeap, heap_setHeap.
    rewrite lookup_app_l by (rewrite length_insert; unfold h1;
      rewrite length_app, length_insert; lia).
    unfold T1. rewrite <- (afterSpread_app T idx vs1 vs2) by (done || lia).
    apply list_lookup_insert_eq. unfold h1.
    rewrite length_app, length_insert. lia.
  - by apply indexed_afterSpread.
Qed.

Lemma arraySpread_twice_witness :
  exists (next : HermesValue) (rt1 rt2 : Runtime),
    hermesBuiltinArraySpread integerToString 3
        [HVObject 0%nat; HVObject 1%nat; encodeNumberValue 0] spreadTwice
    = Some (Returned next, rt1)
    /\ hermesBuiltinArraySpread integerToString 2
         [HVObject 0%nat; HVObject 2%nat; next] rt1
       = Some (Returned (encodeNumberValue 3), rt2)
    /\ heap rt2 !! 0%nat
       = Some (restArray 3 [HVString "a"; HVString "b"; HVString "c"])
    /\ indexed (restArray 3 [HVString "a"; HVString "b"; HVString "c"])
       = restElement <$> [HVString "a"; HVString "b"; HVString "c"].
Proof.
  refine (arraySpread_twice integerToString 3 2 spreadTwice
            0%nat 1%nat 2%nat _ _ _
            [HVString "a"; HVString "b"] [HVString "c"] 0%nat
            eq_refl _ eq_refl eq_refl eq_refl eq_refl _ _ _).
  - split; [reflexivity|]. split; [reflexivity|].
    split; [|cbn; lia]. by eexists _, 0.
  - cbn. lia.
  - cbn. lia.
  - cbn. lia.
Defined.

(** ** arraySpread: a target that takes no new element *)

(** The loop on a target that is not extensible: every put is refused,
    and the loop goes on. *)
Lemma arraySpread_loop_refused (numberToString : JSNumber -> string)
    (t it : ObjRef) (vs : list HermesValue) :
  forall (fuel idx : nat) (rt : Runtime) (T o : JSObject),
    (length vs < fuel)%nat ->
    t <> it ->
    heap rt !! it = Some o ->
    kind o = IteratorKind (StepValue <$> vs) ->
    heap rt !! t = Some T ->
    ClosedTarget T idx ->
    Z.of_nat (idx + length vs) <= 2 ^ 32 - 1 ->
    arraySpread_loop numberToString fuel t (mkIteratorRecord it)
        (encodeNumberValue (Z.of_nat idx)) rt =
      Some (Returned (encodeNumberValue (Z.of_nat (idx + length vs))),
            setHeap
              (<[it := withKind o (IteratorKind [])]> (heap rt)
                 ++ (stepResult <$> vs)) rt).
Proof.
  induction vs as [|v vs IH];
    intros fuel idx rt T o Hfuel Hne Hit Hk Ht Htarget Hidx.
  - destruct fuel as [|fuel]; [cbn in Hfuel; lia|].
    cbn [arraySpread_loop]. unfold bind at 1.
    unfold iteratorStep. cbn [iterator]. unfold bind at 1.
    rewrite (getCell_eq _ _ _ Hit), Hk. cbn [fmap list_fmap ret length].
    rewrite Nat.add_0_r, app_nil_r. f_equal. f_equal.
    assert (Ho : withKind o (IteratorKind []) = o).
    { destruct o; cbn in *. by subst. }
    by rewrite Ho, setHeap_insert_id.
  - destruct fuel as [|fuel]; [cbn in Hfuel; lia|].
    cbn [length] in *.
    cbn [arraySpread_loop]. unfold bind at 1.
    rewrite (iteratorStep_value _ _ _ _ _ Hit Hk).
    set (o1 := withKind o (IteratorKind _)).
    set (rt1 := setHeap (<[it := o1]> (heap rt) ++ [stepResult v]) rt).
    assert (Hltt : (t < length (heap rt))%nat) by (by eapply lookup_lt_Some).
    assert (Hlti : (it < length (heap rt))%nat) by (by eapply lookup_lt_Some).
    assert (Hres : heap rt1 !! length (heap rt) = Some (stepResult v)).
    { unfold rt1. rewrite heap_setHeap.
      rewrite lookup_app_r by (by rewrite length_insert).
      by rewrite length_insert, Nat.sub_diag. }
    unfold bind at 1. rewrite (getNamed_value _ _ _ Hres).
    assert (Ht1 : heap rt1 !! t = Some T).
    { unfold rt1. rewrite heap_setHeap.
      rewrite lookup_app_l by (by rewrite length_insert).
      by rewrite list_lookup_insert_ne. }
    assert (Hit1 : heap rt1 !! it = Some o1).
    { unfold rt1. rewrite heap_setHeap.
      rewrite lookup_app_l by (by rewrite length_insert).
      by apply list_lookup_insert_eq. }
    assert (Hput : putComputed_RJS numberToString t
                     (encodeNumberValue (Z.of_nat idx)) v rt1
                   = Some (Returned false, rt1)).
    { destruct Htarget as (HkT & Hext & Hlen).
      unfold putComputed_RJS.
      rewrite toArrayIndex_encode, Nat2Z.id by lia.
      unfold bind at 1. rewrite (getCell_eq _ _ _ Ht1).
      assert (Hnone : lookupIndexed T idx = None).
      { unfold lookupIndexed. by rewrite lookup_ge_None_2. }
      rewrite Hnone. unfold addIndexed. by rewrite Hext. }
    unfold bind at 1. rewrite Hput.
    unfold bind at 1. cbn [getNumber encodeNumberValue ret].
    rewrite addOne_ofZ by lia.
    replace (Z.of_nat idx + 1) with (Z.of_nat (Datatypes.S idx)) by lia.
    change (HVNumber (ofZ (Z.of_nat (Datatypes.S idx))))
      with (encodeNumberValue (Z.of_nat (Datatypes.S idx))).
    rewrite (IH fuel (Datatypes.S idx) rt1 T o1); try done; try lia.
    + replace (Datatypes.S idx + length vs)%nat
        with (idx + Datatypes.S (length vs))%nat by lia.
      f_equal. f_equal.
      unfold rt1. rewrite !setHeap_setHeap, !heap_setHeap.
      f_equal. unfold o1, withKind; cbn [kind noExtend named indexed].
      cbn [fmap list_fmap].
      rewrite (insert_app_l _ _ it) by (by rewrite !length_insert).
      rewrite <- app_assoc. cbn [app]. f_equal.
      by rewrite list_insert_insert_eq.
    + destruct Htarget as (? & ? & ?). repeat split; try done. lia.
Qed.

(** X12. The source does not look at the answer of the put, only at whether
    it raised.  On an array that is not extensible and whose storage ends
    at or before [idx], so that it has no element at [idx] or beyond, with
    [nextIndex] the number [idx] and [idx] and the number of values being
    together at most 2^32 - 1, every put is refused without an exception,
    so [arraySpread] goes through the whole iterator, returns the index
    advanced by the number of values, and the array holds none of them: it
    is exactly as it was. *)
Theorem arraySpread_closed_target (numberToString : JSNumber -> string)
    (fuel : nat) (args : NativeArgs)
    (rt : Runtime) (t src : ObjRef) (T Sobj : JSObject)
    (vs : list HermesValue) (idx : nat) :
  getArg args 0 = HVObject t -> heap rt !! t = Some T ->
  ClosedTarget T idx ->
  getArg args 1 = HVObject src -> heap rt !! src = Some Sobj ->
  kind Sobj = IterableKind (StepValue <$> vs) ->
  getArg args 2 = encodeNumberValue (Z.of_nat idx) ->
  Z.of_nat (idx + length vs) <= 2 ^ 32 - 1 ->
  (length vs < fuel)%nat ->
  hermesBuiltinArraySpread numberToString fuel args rt =
    Some (Returned (encodeNumberValue (Z.of_nat (idx + length vs))),
          setHeap (heap rt ++ exhaustedIterator :: (stepResult <$> vs)) rt).
Proof.
  intros Ha0 Ht Htarget Ha1 Hsrc Hk Ha2 Hidx Hfuel.
  unfold hermesBuiltinArraySpread.
  unfold bind at 1. rewrite (dyncastArg_object _ _ _ _ _ _ Ha0 Ht).
  pose proof Htarget as (HkT & _). rewrite HkT. cbn [isJSArray].
  rewrite Ha1. unfold getIterator. unfold bind at 1. unfold bind at 1.
  rewrite (getCell_eq _ _ _ Hsrc), Hk.
  unfold bind at 1. unfold allocCell. cbn [ret]. rewrite Ha2.
  set (it := length (heap rt)).
  set (o := mkObj (IteratorKind _) false [] []).
  set (rt1 := setHeap (heap rt ++ [o]) rt).
  assert (Hlt : (t < length (heap rt))%nat) by (by eapply lookup_lt_Some).
  assert (Hne : t <> it) by (unfold it; lia).
  assert (Hit : heap rt1 !! it = Some o).
  { unfold rt1. rewrite heap_setHeap. by rewrite lookup_app_r, Nat.sub_diag. }
  assert (Ht1 : heap rt1 !! t = Some T).
  { unfold rt1. rewrite heap_setHeap. by rewrite lookup_app_l. }
  rewrite (arraySpread_loop_refused numberToString t it vs fuel idx rt1 T o
             Hfuel Hne Hit eq_refl Ht1 Htarget Hidx).
  f_equal. f_equal. unfold rt1. rewrite setHeap_setHeap, heap_setHeap.
  f_equal. unfold it.
  replace (length (heap rt)) with (length (heap rt) + 0)%nat at 1 by lia.
  rewrite insert_app_r. cbn [insert list_insert app].
  by rewrite <- app_assoc.
Qed.

Lemma arraySpread_closed_target_witness :
  hermesBuiltinArraySpread integerToString 3
      [HVObject 0%nat; HVObject 1%nat; encodeNumberValue 1] closedExample =
    Some (Returned (encodeNumberValue 3),
          setHeap
            (heap closedExample
               ++ [exhaustedIterator; stepResult (HVString "a");
                   stepResult (HVString "b")]) closedExample).
Proof.
  refine (arraySpread_closed_target integerToString 3
            [HVObject 0%nat; HVObject 1%nat; encodeNumberValue 1] closedExample
            0%nat 1%nat _ _ [HVString "a"; HVString "b"] 1%nat
            eq_refl eq_refl _ eq_refl eq_refl eq_refl eq_refl _ _).
  - split; [reflexivity|]. split; [reflexivity|]. cbn. lia.
  - cbn. lia.
  - cbn. lia.
Defined.

(** ** arraySpread: past the last array index *)

(** One value put under a number that is no array index. *)
Lemma putComputed_named (numberToString : JSNumber -> string) rt t T d v :
  heap rt !! t = Some T ->
  noExtend T = false ->
  toArrayIndex (HVNumber d) = None ->
  findNamed (Ident (numberToString d)) T = None ->
  putComputed_RJS numberToString t (HVNumber d) v rt
  = Some (Returned true,
          setHeap
            (<[t := withNamed T
                      (named T ++ [mkNamed (Ident (numberToString d))
                                     defaultPropertyFlags v])]> (heap rt))
            rt).
Proof.
  intros Ht Hext Hni Hfresh. unfold putComputed_RJS. rewrite Hni.
  unfold bind at 1. rewrite (getCell_eq _ _ _ Ht), Hfresh, Hext.
  reflexivity.
Qed.

Lemma arraySpread_loop_named (numberToString : JSNumber -> string)
    (t it : ObjRef) (vs : list HermesValue) :
  forall (fuel : nat) (d : JSNumber) (rt : Runtime) (T o : JSObject),
    (length vs < fuel)%nat ->
    t <> it ->
    heap rt !! it = Some o ->
    kind o = IteratorKind (StepValue <$> vs) ->
    heap rt !! t = Some T ->
    noExtend T = false ->
    (forall k, k ∈ spreadKeys d (length vs) ->
               toArrayIndex (HVNumber k) = None
               /\ findNamed (Ident (numberToString k)) T = None) ->
    NoDup (numberToString <$> spreadKeys d (length vs)) ->
    arraySpread_loop numberToString fuel t (mkIteratorRecord it)
        (HVNumber d) rt =
      Some (Returned (HVNumber (keyAfter d (length vs))),
            setHeap
              (<[t := withNamed T (named T ++ namedPuts numberToString d vs)]>
                 (<[it := withKind o (IteratorKind [])]> (heap rt))
                 ++ (stepResult <$> vs)) rt).
Proof.
  induction vs as [|v vs IH];
    intros fuel d rt T o Hfuel Hne Hit Hk Ht Hext Hkeys Hnd.
  - destruct fuel as [|fuel]; [cbn in Hfuel; lia|].
    cbn [arraySpread_loop]. unfold bind at 1.
    unfold iteratorStep. cbn [iterator]. unfold bind at 1.
    rewrite (getCell_eq _ _ _ Hit), Hk. cbn [fmap list_fmap ret length].
    cbn [keyAfter]. rewrite app_nil_r. f_equal. f_equal.
    assert (Ho : withKind o (IteratorKind []) = o).
    { destruct o; cbn in *. by subst. }
    rewrite Ho, (list_insert_id _ it o) by done.
    unfold namedPuts; cbn. rewrite app_nil_r.
    assert (HT : withNamed T (named T) = T) by (by destruct T).
    by rewrite HT, setHeap_insert_id.
  - destruct fuel as [|fuel]; [cbn in Hfuel; lia|].
    cbn [length] in *. cbn [spreadKeys fmap list_fmap] in Hkeys, Hnd.
    cbn [arraySpread_loop]. unfold bind at 1.
    rewrite (iteratorStep_value _ _ _ _ _ Hit Hk).
    set (o1 := withKind o (IteratorKind _)).
    set (rt1 := setHeap (<[it := o1]> (heap rt) ++ [stepResult v]) rt).
    assert (Hltt : (t < length (heap rt))%nat) by (by eapply lookup_lt_Some).
    assert (Hlti : (it < length (heap rt))%nat) by (by eapply lookup_lt_Some).
    assert (Hres : heap rt1 !! length (heap rt) = Some (stepResult v)).
    { unfold rt1. rewrite heap_setHeap.
      rewrite lookup_app_r by (by rewrite length_insert).
      by rewrite length_insert, Nat.sub_diag. }
    unfold bind at 1. rewrite (getNamed_value _ _ _ Hres).
    assert (Ht1 : heap rt1 !! t = Some T).
    { unfold rt1. rewrite heap_setHeap.
      rewrite lookup_app_l by (by rewrite length_insert).
      by rewrite list_lookup_insert_ne. }
    destruct (Hkeys d (list_elem_of_here _ _)) as [Hni Hfresh].
    unfold bind at 1.
    rewrite (putComputed_named numberToString rt1 t T d v Ht1 Hext Hni Hfresh).
    unfold bind at 1. cbn [getNumber ret].
    set (p := mkNamed (Ident (numberToString d)) defaultPropertyFlags v).
    set (T1 := withNamed T (named T ++ [p])).
    set (rt2 := setHeap (<[t := T1]> (heap rt1)) rt1).
    assert (Hit2 : heap rt2 !! it = Some o1).
    { unfold rt2, rt1. rewrite !heap_setHeap.
      rewrite list_lookup_insert_ne by done.
      rewrite lookup_app_l by (by rewrite length_insert).
      by apply list_lookup_insert_eq. }
    assert (Ht2 : heap rt2 !! t = Some T1).
    { unfold rt2. rewrite heap_setHeap. apply list_lookup_insert_eq.
      by eapply lookup_lt_Some. }
    apply NoDup_cons in Hnd as [Hnotin Hnd].
    rewrite (IH fuel (addOne d) rt2 T1 o1); try done; try lia.
    + cbn [keyAfter]. f_equal. f_equal.
      unfold rt2, rt1. rewrite !setHeap_setHeap, !heap_setHeap.
      f_equal. unfold o1, withKind; cbn [kind noExtend named indexed].
      cbn [fmap list_fmap].
      rewrite (insert_app_l _ _ t) by (by rewrite length_insert).
      rewrite (insert_app_l _ _ it)
        by (by rewrite !length_insert).
      rewrite (insert_app_l _ _ t) by (by rewrite !length_insert).
      rewrite <- app_assoc. cbn [app]. f_equal.
      rewrite (list_insert_insert_ne _ it t) by done.
      rewrite !list_insert_insert_eq.
      unfold T1, withNamed, namedPuts; cbn [kind noExtend named indexed].
      cbn [length spreadKeys zip_with]. by rewrite <- app_assoc.
    + intros k Hk'. destruct (Hkeys k (list_elem_of_further _ _ _ Hk'))
        as [Hni' Hfresh']. split; [done|].
      apply findNamed_None_iff. unfold T1; cbn [named withNamed].
      rewrite fmap_app. cbn [fmap list_fmap propId p].
      intros Hin. apply elem_of_app in Hin as [Hin|Hin].
      * by apply findNamed_None_iff in Hfresh'.
      * apply list_elem_of_singleton in Hin. injection Hin as Heq.
        apply Hnotin. rewrite <- Heq.
        apply list_elem_of_fmap. by exists k.
Qed.

(** X22. Past the last array index.  When [nextIndex] and the numbers after
    it are no array indices, 2^32 - 1 and beyond for instance, or negative
    numbers, the values that the iterator yields are not elements of the
    array: each is put as the named property called by the string of its
    number.  On an extensible array that has none of these properties,
    the names being distinct, they are added after the named properties of
    the array in the order of the iteration, writable, enumerable and
    configurable; the elements of the array and its [length] are left as
    they were, and [arraySpread] returns the number after the last key. *)
Theorem arraySpread_past_last_index (numberToString : JSNumber -> string)
    (fuel : nat) (args : NativeArgs) (rt : Runtime) (t src : ObjRef)
    (T Sobj : JSObject) (vs : list HermesValue) (d : JSNumber) :
  getArg args 0 = HVObject t -> heap rt !! t = Some T ->
  kind T = ArrayKind -> noExtend T = false ->
  is_Some (lengthOf T) ->
  getArg args 1 = HVObject src -> heap rt !! src = Some Sobj ->
  kind Sobj = IterableKind (StepValue <$> vs) ->
  getArg args 2 = HVNumber d ->
  (forall k, k ∈ spreadKeys d (length vs) ->
             toArrayIndex (HVNumber k) = None
             /\ findNamed (Ident (numberToString k)) T = None) ->
  NoDup (numberToString <$> spreadKeys d (length vs)) ->
  (length vs < fuel)%nat ->
  let T' := withNamed T (named T ++ namedPuts numberToString d vs) in
  hermesBuiltinArraySpread numberToString fuel args rt =
    Some (Returned (HVNumber (keyAfter d (length vs))),
          setHeap
            (<[t := T']> (heap rt)
               ++ exhaustedIterator :: (stepResult <$> vs)) rt)
  /\ indexed T' = indexed T
  /\ lengthOf T' = lengthOf T.
Proof.
  intros Ha0 Ht HkT Hext Hlen Ha1 Hsrc Hk Ha2 Hkeys Hnd Hfuel T'.
  split; [|split].
  - unfold hermesBuiltinArraySpread.
    unfold bind at 1. rewrite (dyncastArg_object _ _ _ _ _ _ Ha0 Ht).
    rewrite HkT. cbn [isJSArray].
    rewrite Ha1. unfold getIterator. unfold bind at 1. unfold bind at 1.
    rewrite (getCell_eq _ _ _ Hsrc), Hk.
    unfold bind at 1. unfold allocCell. cbn [ret]. rewrite Ha2.
    set (it := length (heap rt)).
    set (o := mkObj (IteratorKind _) false [] []).
    set (rt1 := setHeap (heap rt ++ [o]) rt).
    assert (Hlt : (t < length (heap rt))%nat) by (by eapply lookup_lt_Some).
    assert (Hne : t <> it) by (unfold it; lia).
    assert (Hit : heap rt1 !! it = Some o).
    { unfold rt1. rewrite heap_setHeap.
      by rewrite lookup_app_r, Nat.sub_diag. }
    assert (Ht1 : heap rt1 !! t = Some T).
    { unfold rt1. rewrite heap_setHeap. by rewrite lookup_app_l. }
    rewrite (arraySpread_loop_named numberToString t it vs fuel d rt1 T o
               Hfuel Hne Hit eq_refl Ht1 Hext Hkeys Hnd).
    f_equal. f_equal. unfold rt1. rewrite setHeap_setHeap, heap_setHeap.
    f_equal. unfold it.
    replace (length (heap rt)) with (length (heap rt) + 0)%nat at 1 by lia.
    rewrite insert_app_r. cbn [insert list_insert app].
    rewrite insert_app_l by done. by rewrite <- app_assoc.
  - reflexivity.
  - unfold T', lengthOf, lengthPropIndex in *; cbn [named withNamed].
    destruct (named T) as [|p ps]; [by destruct Hlen|reflexivity].
Qed.

Lemma arraySpread_past_last_index_witness :
  hermesBuiltinArraySpread integerToString 3
      [HVObject 0%nat; HVObject 1%nat; encodeNumberValue (2 ^ 32 - 1)]
      spreadTwice
  = Some (Returned (encodeNumberValue (2 ^ 32 + 1)),
          setHeap
            (<[0%nat := withNamed (restArray 0 [])
                          (named (restArray 0 [])
                             ++ [mkNamed (Ident "4294967295")
                                   defaultPropertyFlags (HVString "a");
                                 mkNamed (Ident "4294967296")
                                   defaultPropertyFlags (HVString "b")])]>
               (heap spreadTwice)
               ++ [exhaustedIterator; stepResult (HVString "a");
                   stepResult (HVString "b")]) spreadTwice).
Proof.
  assert (Hkeys : spreadKeys (ofZ (2 ^ 32 - 1)) 2
                  = [ofZ (2 ^ 32 - 1); ofZ (2 ^ 32)])
    by (vm_compute; reflexivity).
  refine (proj1 (arraySpread_past_last_index integerToString 3
                   [HVObject 0%nat; HVObject 1%nat;
                    encodeNumberValue (2 ^ 32 - 1)] spreadTwice
                   0%nat 1%nat _ _ [HVString "a"; HVString "b"]
                   (ofZ (2 ^ 32 - 1))
                   eq_refl eq_refl eq_refl eq_refl _ eq_refl eq_refl eq_refl
                   eq_refl _ _ _)).
  - by eexists.
  - cbn [length]. rewrite Hkeys. intros k Hk.
    apply elem_of_cons in Hk as [->|Hk];
      [split; vm_compute; reflexivity|].
    apply list_elem_of_singleton in Hk as ->.
    split; vm_compute; reflexivity.
  - cbn [length]. rewrite Hkeys.
    apply (bool_decide_unpack _). vm_compute. exact I.
  - cbn. lia.
Defined.

(** ** copyDataProperties: edge cases, excluded keys and getters that throw *)

(** The two passes over the source, when every property that is copied
    can be read. *)
Lemma copyData_forEach (s t : ObjRef) (xo : option ObjRef) (S T : JSObject)
    (X : option JSObject) (val : NamedProp -> HermesValue) (rt : Runtime) :
  heap rt !! s = Some S ->
  heap rt !! t = Some T ->
  t <> s ->
  isJSArray (kind T) = false ->
  excludedApart rt xo t ->
  excludedCell rt xo = X ->
  Z.of_nat (length (indexed S)) <= 2 ^ 32 - 1 ->
  (forall p, p ∈ named S -> copiedName X p = true ->
             readOutcome rt s p = Some (Returns (val p))) ->
  JSObject_forEachOwnPropertyWhile s
      (copyDataProperties_indexedCB s t xo)
      (copyDataProperties_namedCB s t xo) rt =
    Some (true,
          setHeap
            (<[t := foldl defineCopiedName
                      (foldl defineCopiedIndex T (copiedIndices S X))
                      ((fun p => mkNamed (propId p) defaultPropertyFlags
                                   (val p))
                         <$> copiedNames S X)]> (heap rt)) rt).
Proof.
  intros HS HT Hne Harr Hap HX Hlen Hread.
  unfold JSObject_forEachOwnPropertyWhile.
  unfold bind at 1. rewrite (getCell_eq _ _ _ HS).
  unfold bind at 1.
  rewrite (copyData_indexed_loop s t xo S X (length (indexed S)) 0 rt T)
    by (done || (cbn; lia)).
  fold (copiedIndices S X).
  set (T1 := foldl defineCopiedIndex T (copiedIndices S X)).
  assert (HkT1 : kind T1 = kind T) by apply kind_foldl_defineCopiedIndex.
  destruct (excluded_after_step rt xo t T1 Hap) as [Hap' HX'].
  unfold bind at 1. unfold getClass. unfold bind at 1.
  rewrite (getCell_eq s (setHeap (<[t := T1]> (heap rt)) rt) S)
    by (rewrite heap_setHeap; by rewrite list_lookup_insert_ne).
  cbn [ret].
  rewrite (copyData_named_loop s t xo S X val (named S) 0 _ T1).
  - rewrite setHeap_setHeap, heap_setHeap.
    by rewrite list_insert_insert_eq.
  - rewrite heap_setHeap. by rewrite list_lookup_insert_ne.
  - rewrite heap_setHeap. apply list_lookup_insert_eq.
    by eapply lookup_lt_Some.
  - done.
  - by rewrite HkT1.
  - done.
  - by rewrite HX'.
  - done.
  - intros p Hp Hc. rewrite (readOutcome_insert _ _ _ _ _ _ HT HkT1).
    by apply Hread.
Qed.

(** The excluded object as the call sees it. *)
Lemma excludedApart_objectArg rt v t :
  valueLive rt v ->
  objectArg rt v <> Some t ->
  excludedApart rt (objectArg rt v) t.
Proof.
  intros Hlive Hxt x Hx. split; [congruence|].
  unfold objectArg in Hx.
  destruct v as [| | | | | | |r]; try done.
  destruct (isObjectArg rt (HVObject r)); [|done].
  injection Hx as <-. by apply Hlive.
Qed.

(** X13. When the target is no object, [copyDataProperties] returns
    [undefined]; when the source is [null] or [undefined] it returns the
    target; in both cases nothing is read and nothing changes.  A source that
    is a boolean, a number or a symbol is wrapped in a new object without
    own enumerable properties: the target is returned as it was, and the
    wrapper is the one cell allocated. *)
Theorem copyDataProperties_nothing_to_copy (args : NativeArgs) (rt : Runtime) :
  valueLive rt (getArg args 0) ->
  valueLive rt (getArg args 2) ->
  (isObjectArg rt (getArg args 0) = false ->
   hermesBuiltinCopyDataProperties args rt = Some (Returned HVUndefined, rt))
  /\ (forall t,
        objectArg rt (getArg args 0) = Some t ->
        isNull (getArg args 1) || isUndefined (getArg args 1) = true ->
        hermesBuiltinCopyDataProperties args rt
        = Some (Returned (HVObject t), rt))
  /\ (forall t T,
        objectArg rt (getArg args 0) = Some t ->
        heap rt !! t = Some T ->
        isJSArray (kind T) = false ->
        isPlainPrimitive (getArg args 1) = true ->
        objectArg rt (getArg args 2) <> Some t ->
        hermesBuiltinCopyDataProperties args rt
        = Some (Returned (HVObject t),
                setHeap (heap rt ++ [mkObj ObjectKind false [] []]) rt)).
Proof.
  intros Hl0 Hl2.
  assert (Hcast := dyncastArg_objectArg rt args 0 Hl0).
  split; [|split].
  - intros Hno. unfold hermesBuiltinCopyDataProperties, bind.
    by rewrite (dyncastArg_not_object _ _ _ Hl0 Hno).
  - intros t Ht Hnull. unfold hermesBuiltinCopyDataProperties.
    unfold bind at 1. by rewrite Hcast, Ht, Hnull.
  - intros t T Ht HT Harr Hprim Hxt.
    unfold hermesBuiltinCopyDataProperties.
    unfold bind at 1. rewrite Hcast, Ht.
    set (W := mkObj ObjectKind false [] []).
    set (rt1 := setHeap (heap rt ++ [W]) rt).
    assert (Hltt : (t < length (heap rt))%nat) by (by eapply lookup_lt_Some).
    assert (Hstart :
      (let* source :=
         (let* o := toObject (getArg args 1) in
          match o with
          | Returned r => ret r
          | EXCEPTION => stuck
          end) in
       let* excludedItems := dyncastArg isJSObject args 2 in
       let* success :=
         JSObject_forEachOwnPropertyWhile source
           (copyDataProperties_indexedCB source t excludedItems)
           (copyDataProperties_namedCB source t excludedItems) in
       if negb success then ret EXCEPTION
       else ret (Returned (HVObject t))) rt
      = Some (Returned (HVObject t), rt1)).
    { assert (Hwrap : toObject (getArg args 1) rt
                      = Some (Returned (length (heap rt)), rt1)).
      { by destruct (getArg args 1). }
      unfold bind at 1. unfold bind at 1. rewrite Hwrap. cbn [ret].
      assert (Hl2' : valueLive rt1 (getArg args 2)).
      { intros r Hr. destruct (Hl2 r Hr) as [o Ho]. exists o.
        unfold rt1. rewrite heap_setHeap.
        rewrite lookup_app_l by (by eapply lookup_lt_Some). done. }
      unfold bind at 1. rewrite (dyncastArg_objectArg _ _ _ Hl2').
      assert (Hobj : objectArg rt1 (getArg args 2)
                     = objectArg rt (getArg args 2)).
      { unfold objectArg, isObjectArg.
        destruct (getArg args 2) as [| | | | | | |r]; try done.
        destruct (Hl2 r eq_refl) as [o Ho].
        unfold rt1. rewrite heap_setHeap.
        rewrite lookup_app_l by (by eapply lookup_lt_Some). done. }
      unfold bind at 1.
      rewrite (copyData_forEach (length (heap rt)) t _ W T
                 (excludedCell rt1 (objectArg rt1 (getArg args 2)))
                 (fun _ => HVUndefined) rt1).
      - cbn [negb]. unfold ret, copiedIndices, copiedNames.
        cbn [W named indexed length seq omap list_omap List.filter fmap
             list_fmap foldl].
        rewrite (setHeap_insert_id rt1 t T); [done|].
        unfold rt1. rewrite heap_setHeap. by rewrite lookup_app_l.
      - unfold rt1. rewrite heap_setHeap.
        by rewrite lookup_app_r, Nat.sub_diag.
      - unfold rt1. rewrite heap_setHeap. by rewrite lookup_app_l.
      - lia.
      - done.
      - apply excludedApart_objectArg; [done|]. by rewrite Hobj.
      - done.
      - cbn. lia.
      - intros p Hp. by apply elem_of_nil in Hp. }
    destruct (getArg args 1) as [| | |b|d| |sym|]; try done; exact Hstart.
Qed.

Lemma copyDataProperties_nothing_to_copy_witness :
  hermesBuiltinCopyDataProperties [HVObject 0%nat; HVNull; HVObject 2%nat]
      copyExample
  = Some (Returned (HVObject 0%nat), copyExample).
Proof.
  assert (Hl0 : valueLive copyExample (HVObject 0%nat)).
  { intros r [= <-]. by eexists. }
  assert (Hl2 : valueLive copyExample (HVObject 2%nat)).
  { intros r [= <-]. by eexists. }
  destruct (copyDataProperties_nothing_to_copy
              [HVObject 0%nat; HVNull; HVObject 2%nat] copyExample Hl0 Hl2)
    as (_ & H & _).
  exact (H 0%nat eq_refl eq_refl).
Defined.

(** With a target and a source that are objects, the call is the two
    passes over the source. *)
Lemma copyDataProperties_object_source (args : NativeArgs) (rt : Runtime)
    (t s : ObjRef) (T S : JSObject) :
  getArg args 0 = HVObject t -> heap rt !! t = Some T ->
  isJSObject (kind T) = true ->
  getArg args 1 = HVObject s -> heap rt !! s = Some S ->
  isJSObject (kind S) = true ->
  valueLive rt (getArg args 2) ->
  hermesBuiltinCopyDataProperties args rt
  = (let* success :=
       JSObject_forEachOwnPropertyWhile s
         (copyDataProperties_indexedCB s t (objectArg rt (getArg args 2)))
         (copyDataProperties_namedCB s t (objectArg rt (getArg args 2))) in
     if negb success then ret EXCEPTION
     else ret (Returned (HVObject t))) rt.
Proof.
  intros Ha0 HT HkT Ha1 HS HkS Hlive.
  unfold hermesBuiltinCopyDataProperties.
  unfold bind at 1. rewrite (dyncastArg_object _ _ _ _ _ _ Ha0 HT), HkT.
  rewrite Ha1. cbn [isNull isUndefined isObject orb].
  unfold bind at 1. unfold vmcast_JSObject. unfold bind at 1.
  rewrite (getCell_eq _ _ _ HS), HkS. cbn [ret].
  unfold bind at 1. by rewrite (dyncastArg_objectArg _ _ _ Hlive).
Qed.

Lemma omap_all_None {A B} (f : A -> option B) (l : list A) :
  (forall x, x ∈ l -> f x = None) -> omap f l = [].
Proof.
  induction l as [|x l IH]; intros H; [done|]. cbn.
  rewrite (H x (list_elem_of_here _ _)). apply IH.
  intros y Hy. apply H. by apply list_elem_of_further.
Qed.

Lemma filter_all_false {A} (f : A -> bool) (l : list A) :
  (forall x, x ∈ l -> f x = false) -> List.filter f l = [].
Proof.
  induction l as [|x l IH]; intros H; [done|]. cbn.
  rewrite (H x (list_elem_of_here _ _)). apply IH.
  intros y Hy. apply H. by apply list_elem_of_further.
Qed.

(** X14. When every enumerable own key of the source is an own key of the
    excluded object, as in a rest pattern that names every property, or when
    the source itself is passed as the excluded object, [copyDataProperties]
    returns the target and leaves the runtime as it was: nothing is defined
    and no getter of the source is run. *)
Theorem copyDataProperties_all_excluded (args : NativeArgs) (rt : Runtime)
    (t s x : ObjRef) (T S X : JSObject) :
  getArg args 0 = HVObject t -> heap rt !! t = Some T ->
  isJSObject (kind T) = true ->
  getArg args 1 = HVObject s -> heap rt !! s = Some S ->
  isJSObject (kind S) = true ->
  getArg args 2 = HVObject x -> heap rt !! x = Some X ->
  isJSObject (kind X) = true ->
  t <> s -> x <> t ->
  isJSArray (kind T) = false ->
  Z.of_nat (length (indexed S)) <= 2 ^ 32 - 1 ->
  (x = s
   \/ ((forall j p, lookupIndexed S j = Some p ->
                    enumerable (idxFlags p) = true ->
                    is_Some (lookupIndexed X j))
       /\ (forall p, p ∈ named S -> enumerable (propFlags p) = true ->
                     is_Some (findNamed (propId p) X)))) ->
  hermesBuiltinCopyDataProperties args rt = Some (Returned (HVObject t), rt).
Proof.
  intros Ha0 HT HkT Ha1 HS HkS Ha2 HX HkX Hne Hxt Harr Hlen Hall.
  assert (Hlive : valueLive rt (getArg args 2)).
  { rewrite Ha2. intros r [= <-]. by eexists. }
  assert (Hxo : objectArg rt (getArg args 2) = Some x).
  { rewrite Ha2. unfold objectArg, isObjectArg. by rewrite HX, HkX. }
  assert (Hall' :
    (forall j p, lookupIndexed S j = Some p ->
                 enumerable (idxFlags p) = true ->
                 is_Some (lookupIndexed X j))
    /\ (forall p, p ∈ named S -> enumerable (propFlags p) = true ->
                  is_Some (findNamed (propId p) X))).
  { destruct Hall as [->|H]; [|done].
    assert (X = S) as -> by congruence. split.
    - intros j p Hp _. by eexists.
    - intros p Hp _.
      destruct (findNamed (propId p) S) eqn:Hf; [by eexists|].
      apply findNamed_None_iff in Hf. destruct Hf.
      apply list_elem_of_fmap. by exists p. }
  destruct Hall' as [Hidx Hnames].
  assert (Hci : copiedIndices S (Some X) = []).
  { unfold copiedIndices. apply omap_all_None. intros j _.
    unfold copiedIndex. destruct (lookupIndexed S j) as [p|] eqn:Hp; [|done].
    destruct (enumerable (idxFlags p)) eqn:Hen; [|done].
    cbn. by rewrite (bool_decide_eq_true_2 _ (Hidx j p Hp Hen)). }
  assert (Hcn : forall p, p ∈ named S -> copiedName (Some X) p = false).
  { intros p Hp. unfold copiedName.
    destruct (enumerable (propFlags p)) eqn:Hen; [|done].
    cbn [hasOwnName].
    rewrite (bool_decide_eq_true_2 _ (Hnames p Hp Hen)).
    by rewrite andb_false_r. }
  rewrite (copyDataProperties_object_source args rt t s T S) by done.
  rewrite Hxo. unfold bind.
  assert (Hap : excludedApart rt (Some x) t).
  { intros y [= <-]. split; [done|by eexists]. }
  assert (HXc : excludedCell rt (Some x) = Some X) by exact HX.
  rewrite (copyData_forEach s t (Some x) S T (Some X) (fun _ => HVUndefined)
             rt HS HT Hne Harr Hap HXc Hlen).
  2:{ intros p Hp Hc. by rewrite (Hcn p Hp) in Hc. }
  unfold copiedNames. rewrite Hci, (filter_all_false _ _ Hcn).
  cbn [negb ret foldl fmap list_fmap]. by rewrite setHeap_insert_id.
Qed.

Lemma copyDataProperties_all_excluded_witness :
  hermesBuiltinCopyDataProperties
      [HVObject 0%nat; HVObject 1%nat; HVObject 1%nat] getterExample
  = Some (Returned (HVObject 0%nat), getterExample).
Proof.
  refine (copyDataProperties_all_excluded
            [HVObject 0%nat; HVObject 1%nat; HVObject 1%nat] getterExample
            0%nat 1%nat 1%nat _ _ _ eq_refl eq_refl eq_refl eq_refl eq_refl
            eq_refl eq_refl eq_refl eq_refl _ _ eq_refl _ _).
  - discriminate.
  - discriminate.
  - cbn. lia.
  - by left.
Defined.





Lemma lookupIndexed_stringWrapper (str : string) (j : nat) :
  lookupIndexed (stringWrapper str) j
  = mkIndexed (mkPF true false false false) <$> charAt str j.
Proof.
  unfold lookupIndexed, stringWrapper. cbn [indexed].
  revert j. induction str as [|c rest IH]; intros j; [done|].
  destruct j as [|j]; [done|]. cbn. apply IH.
Qed.

Lemma length_stringChars (str : string) :
  length (stringChars str) = String.length str.
Proof. induction str as [|c rest IH]; [done|]. cbn. by rewrite IH. Qed.

Lemma copiedIndex_stringWrapper (str : string) (j : nat) :
  copiedIndex (stringWrapper str) None j = (fun v => (j, v)) <$> charAt str j.
Proof.
  unfold copiedIndex. rewrite lookupIndexed_stringWrapper.
  by destruct (charAt str j).
Qed.

(** X16. A source that is a string is wrapped in an object whose indexed
    properties are its characters, and these are offered to the target.
    With a target object that is no array and without an excluded object,
    the target is asked to define one property for each character with the
    default flags, a definition that it refuses leaving it as it was;
    [length], which is not enumerable, is not copied, and the wrapper is
    the one cell allocated.  When the target is extensible and has no
    property at the indices of the characters, the property [j] of the
    target ends as a writable, enumerable and configurable copy of the
    character [j], although the characters of the wrapper are read-only,
    and the target's other properties are as they were. *)
Theorem copyDataProperties_string_source (args : NativeArgs) (rt : Runtime)
    (t : ObjRef) (T : JSObject) (str : string) :
  getArg args 0 = HVObject t -> heap rt !! t = Some T ->
  isJSObject (kind T) = true ->
  isJSArray (kind T) = false ->
  getArg args 1 = HVString str ->
  valueLive rt (getArg args 2) ->
  objectArg rt (getArg args 2) = None ->
  Z.of_nat (String.length str) <= 2 ^ 32 - 1 ->
  let T' :=
    foldl defineCopiedIndex T (copiedIndices (stringWrapper str) None) in
  hermesBuiltinCopyDataProperties args rt =
    Some (Returned (HVObject t),
          setHeap (<[t := T']> (heap rt) ++ [stringWrapper str]) rt)
  /\ (noExtend T = false ->
      (forall j, is_Some (charAt str j) -> lookupIndexed T j = None) ->
      named T' = named T
      /\ forall j,
           lookupIndexed T' j
           = match charAt str j with
             | Some c => Some (mkIndexed defaultPropertyFlags c)
             | None => lookupIndexed T j
             end).
Proof.
  intros Ha0 HT HkT Harr Ha1 Hl2 Hxo Hlen T'.
  set (W := stringWrapper str).
  set (rt1 := setHeap (heap rt ++ [W]) rt).
  assert (Hltt : (t < length (heap rt))%nat) by (by eapply lookup_lt_Some).
  split.
  - unfold hermesBuiltinCopyDataProperties.
    unfold bind at 1. rewrite (dyncastArg_object _ _ _ _ _ _ Ha0 HT), HkT.
    rewrite Ha1. cbn [isNull isUndefined isObject orb].
    unfold bind at 1. unfold bind at 1.
    change (toObject (HVString str) rt)
      with (Some (Returned (length (heap rt)), rt1)).
    cbn [ret].
    assert (Hl2' : valueLive rt1 (getArg args 2)).
    { intros r Hr. destruct (Hl2 r Hr) as [o Ho]. exists o.
      unfold rt1. rewrite heap_setHeap.
      rewrite lookup_app_l by (by eapply lookup_lt_Some). done. }
    assert (Hobj : objectArg rt1 (getArg args 2) = None).
    { rewrite <- Hxo. unfold objectArg, isObjectArg.
      destruct (getArg args 2) as [| | | | | | |r]; try done.
      destruct (Hl2 r eq_refl) as [o Ho].
      unfold rt1. rewrite heap_setHeap.
      rewrite lookup_app_l by (by eapply lookup_lt_Some). done. }
    unfold bind at 1. rewrite (dyncastArg_objectArg _ _ _ Hl2'), Hobj.
    unfold bind at 1.
    rewrite (copyData_forEach (length (heap rt)) t None W T None
               (fun _ => HVUndefined) rt1).
    + cbn [negb]. unfold ret. f_equal. f_equal.
      unfold rt1. rewrite setHeap_setHeap, heap_setHeap. f_equal.
      by rewrite insert_app_l.
    + unfold rt1. rewrite heap_setHeap.
      by rewrite lookup_app_r, Nat.sub_diag.
    + unfold rt1. rewrite heap_setHeap. by rewrite lookup_app_l.
    + lia.
    + done.
    + by intros x [=].
    + done.
    + unfold W, stringWrapper. cbn [indexed].
      rewrite length_stringChars. lia.
    + intros p Hp Hc. unfold W, stringWrapper in Hp. cbn [named] in Hp.
      apply list_elem_of_singleton in Hp as ->. done.
  - intros Hext Hfresh.
    destruct (copiedIndices_range W None (length (indexed W)) 0) as [Hnd _].
    destruct (foldl_defineCopiedIndex_fresh (copiedIndices W None) T
                Hext Harr Hnd) as (Hn & _ & Hin & Hout).
    { intros jv Hjv. apply Hfresh. apply elem_of_copiedIndices in Hjv.
      unfold W in Hjv. rewrite copiedIndex_stringWrapper in Hjv.
      destruct (charAt str jv.1); [by eexists|done]. }
    split; [exact Hn|]. intros j. unfold T'. fold W.
    destruct (charAt str j) as [c|] eqn:Hc.
    + assert (Hjv : (j, c) ∈ copiedIndices W None).
      { apply elem_of_copiedIndices. unfold W.
        rewrite copiedIndex_stringWrapper. cbn. by rewrite Hc. }
      exact (Hin (j, c) Hjv).
    + refine (Hout j _). intros Hj.
      apply list_elem_of_fmap in Hj as (jv & -> & Hjv).
      apply elem_of_copiedIndices in Hjv. unfold W in Hjv.
      rewrite copiedIndex_stringWrapper, Hc in Hjv. done.
Qed.

Lemma copyDataProperties_string_source_witness :
  hermesBuiltinCopyDataProperties [HVObject 0%nat; HVString "hi"]
      copyExample =
    Some (Returned (HVObject 0%nat),
          setHeap
            (<[0%nat := mkObj ObjectKind false []
                          [restElement (HVString "h");
                           restElement (HVString "i")]]>
               (heap copyExample) ++ [stringWrapper "hi"]) copyExample).
Proof.
  refine (proj1 (copyDataProperties_string_source
                   [HVObject 0%nat; HVString "hi"] copyExample 0%nat _ "hi"
                   eq_refl eq_refl eq_refl eq_refl eq_refl _ eq_refl _)).
  - by intros r [=].
  - cbn. lia.
Defined.

Lemma foldl_refused {A} (f : JSObject -> A -> JSObject) (T : JSObject)
    (l : list A) :
  (forall x, x ∈ l -> f T x = T) -> foldl f T l = T.
Proof.
  induction l as [|x l IH]; intros H; [done|]. cbn [foldl].
  rewrite (H x (list_elem_of_here _ _)). apply IH.
  intros y Hy. apply H. by apply list_elem_of_further.
Qed.

(** X17. [copyDataProperties] does not look at the answer of a definition,
    only at whether it raised.  On a target that is not extensible and has
    none of the keys that are copied, every definition is refused without an
    exception: the properties of the source are read, the target is
    returned, and the runtime is exactly as it was. *)
Theorem copyDataProperties_closed_target (args : NativeArgs) (rt : Runtime)
    (t s : ObjRef) (T S : JSObject) (X : option JSObject) :
  getArg args 0 = HVObject t -> heap rt !! t = Some T ->
  isJSObject (kind T) = true ->
  getArg args 1 = HVObject s -> heap rt !! s = Some S ->
  isJSObject (kind S) = true ->
  valueLive rt (getArg args 2) ->
  excludedCell rt (objectArg rt (getArg args 2)) = X ->
  t <> s ->
  objectArg rt (getArg args 2) <> Some t ->
  isJSArray (kind T) = false ->
  Z.of_nat (length (indexed S)) <= 2 ^ 32 - 1 ->
  (forall p, p ∈ named S -> copiedName X p = true -> readReturns rt s p) ->
  noExtend T = true ->
  (forall p, p ∈ named S -> copiedName X p = true ->
             findNamed (propId p) T = None) ->
  (forall j jv, copiedIndex S X j = Some jv -> lookupIndexed T j = None) ->
  hermesBuiltinCopyDataProperties args rt = Some (Returned (HVObject t), rt).
Proof.
  intros Ha0 HT HkT Ha1 HS HkS Hlive HX Hne Hxt Harr Hlen Hread Hclosed
    Hnames Hidx.
  assert (Hap : excludedApart rt (objectArg rt (getArg args 2)) t)
    by (by apply excludedApart_objectArg).
  rewrite (copyDataProperties_object_source args rt t s T S) by done.
  unfold bind.
  rewrite (copyData_forEach s t _ S T X (readValue rt s) rt HS HT Hne Harr
             Hap HX Hlen).
  2:{ intros p Hp Hc. destruct (Hread p Hp Hc) as [v Hv].
      unfold readValue. by rewrite Hv. }
  assert (H1 : foldl defineCopiedIndex T (copiedIndices S X) = T).
  { apply foldl_refused. intros jv Hjv.
    apply elem_of_copiedIndices in Hjv.
    unfold defineCopiedIndex, defineIndexedIn, addIndexed.
    by rewrite (Hidx _ _ Hjv), Hclosed. }
  rewrite H1.
  assert (H2 : foldl defineCopiedName T
                 ((fun p => mkNamed (propId p) defaultPropertyFlags
                              (readValue rt s p)) <$> copiedNames S X) = T).
  { apply foldl_refused. intros q Hq.
    apply list_elem_of_fmap in Hq as (p & -> & Hp).
    apply list_elem_of_In, filter_In in Hp as [Hp Hc].
    apply list_elem_of_In in Hp.
    unfold defineCopiedName, defineNamedIn. cbn [propId propValue].
    by rewrite (Hnames p Hp Hc), Hclosed. }
  rewrite H2. cbn [negb ret]. by rewrite setHeap_insert_id.
Qed.

Lemma copyDataProperties_closed_target_witness :
  hermesBuiltinCopyDataProperties [HVObject 0%nat; HVObject 1%nat]
      sealedExample
  = Some (Returned (HVObject 0%nat), sealedExample).
Proof.
  refine (copyDataProperties_closed_target
            [HVObject 0%nat; HVObject 1%nat] sealedExample 0%nat 1%nat _ _ None
            eq_refl eq_refl eq_refl eq_refl eq_refl eq_refl _ eq_refl _ _
            eq_refl _ _ eq_refl _ _).
  - by intros r [=].
  - discriminate.
  - discriminate.
  - cbn. lia.
  - intros p Hp _. apply list_elem_of_singleton in Hp as ->. by eexists.
  - reflexivity.
  - reflexivity.
Defined.

Lemma lookupIndexed_frozenArray vs extra j :
  lookupIndexed (frozenArray vs extra) j
  = mkIndexed frozenElementFlags <$> vs !! j.
Proof.
  unfold lookupIndexed, frozenArray, frozenElement; cbn.
  rewrite list_lookup_fmap. by destruct (vs !! j).
Qed.

Lemma copiedIndex_frozenArray vs extra j :
  copiedIndex (frozenArray vs extra) None j = (fun v => (j, v)) <$> vs !! j.
Proof.
  unfold copiedIndex. rewrite lookupIndexed_frozenArray.
  by destruct (vs !! j).
Qed.

(** X18. A template object spread into an object.  The template object that
    [getTemplateObject] has just built, given to [copyDataProperties] as the
    source with an extensible target that is no array and has no indexed
    property, gives the target one property for each cooked string,
    writable, enumerable and configurable although the elements of the
    template object are frozen; [raw] and [length], which are not
    enumerable, are not copied, and the template object is left as it is. *)
Theorem copyDataProperties_template_object (args : NativeArgs) (rt : Runtime)
    (fr : StackFrame) (rest : list StackFrame) (d : JSNumber) (id : Z)
    (dup : bool) (cb : CodeBlock) (md : RuntimeModule)
    (t : ObjRef) (T : JSObject) :
  (3 <= length args)%nat ->
  Z.of_nat (length args) < 2 ^ 32 ->
  getArg args 0 = HVNumber d ->
  getNumberAs_uint32 d = Some id ->
  getArg args 1 = HVBool dup ->
  stackFrames rt = fr :: rest ->
  savedCodeBlock fr = Some cb ->
  modules rt !! getRuntimeModule cb = Some md ->
  templateMap md !! id = None ->
  (dup = false -> Z.of_nat (length args) mod 2 = 0) ->
  heap rt !! t = Some T ->
  isJSObject (kind T) = true ->
  isJSArray (kind T) = false ->
  noExtend T = false ->
  (forall j, lookupIndexed T j = None) ->
  let n := templateCount dup args in
  let cooked := argsFrom args (if dup then 2 else 2 + n) n in
  exists (tmpl : ObjRef) (rt1 rt2 : Runtime) (T' : JSObject),
    hermesBuiltinGetTemplateObject args rt
    = Some (Returned (HVObject tmpl), rt1)
    /\ hermesBuiltinCopyDataProperties [HVObject t; HVObject tmpl] rt1
       = Some (Returned (HVObject t), rt2)
    /\ heap rt2 !! t = Some T'
    /\ named T' = named T
    /\ (forall j, lookupIndexed T' j
                  = mkIndexed defaultPropertyFlags <$> cooked !! j)
    /\ heap rt2 !! tmpl = heap rt1 !! tmpl.
Proof.
  intros H3 Hlt Ha0 Hid Ha1 Hfr Hcb Hmd Hmiss Heven HT HkT Harr Hext Hempty
    n cooked.
  destruct (templateCount_bounds dup args H3 Heven) as [Hn1 Hn2].
  fold n in Hn1, Hn2.
  set (r := length (heap rt)).
  set (S := frozenArray cooked
              [mkNamed (getSymbolID Predefined.raw) constantPF (HVObject r)]).
  set (rt1 := templateRuntimeAfter rt args dup (getRuntimeModule cb) md id).
  assert (Hltt : (t < length (heap rt))%nat) by (by eapply lookup_lt_Some).
  assert (HS1 : heap rt1 !! Datatypes.S r = Some S).
  { unfold rt1, templateRuntimeAfter. cbn [heap]. apply lookup_two_second. }
  assert (HT1 : heap rt1 !! t = Some T).
  { unfold rt1, templateRuntimeAfter. cbn [heap]. by rewrite lookup_app_l. }
  assert (Hne : t <> Datatypes.S r) by (unfold r; lia).
  set (T' := foldl defineCopiedIndex T (copiedIndices S None)).
  pose (args' := [HVObject t; HVObject (Datatypes.S r)]).
  exists (Datatypes.S r), rt1, (setHeap (<[t := T']> (heap rt1)) rt1), T'.
  split; [by apply (getTemplateObject_fresh args rt fr rest d id dup cb md)|].
  assert (Hlive : valueLive rt1 (getArg args' 2)) by (by intros x [=]).
  split.
  { change (hermesBuiltinCopyDataProperties args' rt1
            = Some (Returned (HVObject t),
                    setHeap (<[t := T']> (heap rt1)) rt1)).
    rewrite (copyDataProperties_object_source args' rt1 t (Datatypes.S r) T S)
      by done.
    change (objectArg rt1 (getArg args' 2)) with (@None ObjRef).
    unfold bind.
    rewrite (copyData_forEach (Datatypes.S r) t None S T None
               (fun _ => HVUndefined) rt1 HS1 HT1 Hne Harr).
    - reflexivity.
    - by intros x [=].
    - done.
    - unfold S, frozenArray; cbn [indexed].
      rewrite length_fmap. unfold cooked. rewrite length_argsFrom. lia.
    - intros p Hp Hc. unfold S, frozenArray in Hp. cbn [named] in Hp.
      repeat (apply elem_of_cons in Hp as [->|Hp]; [done|]).
      by apply elem_of_nil in Hp. }
  destruct (copiedIndices_range S None (length (indexed S)) 0) as [Hnd _].
  destruct (foldl_defineCopiedIndex_fresh (copiedIndices S None) T
              Hext Harr Hnd) as (Hn & _ & Hin & Hout).
  { intros jv _. apply Hempty. }
  split.
  { rewrite heap_setHeap. apply list_lookup_insert_eq.
    by eapply lookup_lt_Some. }
  split; [exact Hn|]. split.
  - intros j. destruct (cooked !! j) as [c|] eqn:Hc.
    + assert (Hjv : (j, c) ∈ copiedIndices S None).
      { apply elem_of_copiedIndices. unfold S.
        rewrite copiedIndex_frozenArray. cbn. by rewrite Hc. }
      exact (Hin (j, c) Hjv).
    + cbn. rewrite <- (Hempty j). refine (Hout j _). intros Hj.
      apply list_elem_of_fmap in Hj as (jv & -> & Hjv).
      apply elem_of_copiedIndices in Hjv. unfold S in Hjv.
      rewrite copiedIndex_frozenArray, Hc in Hjv. done.
  - rewrite heap_setHeap. by rewrite list_lookup_insert_ne.
Qed.

Lemma copyDataProperties_template_object_witness :
  exists (tmpl : ObjRef) (rt1 rt2 : Runtime) (T' : JSObject),
    hermesBuiltinGetTemplateObject templateArgsA templateWithTarget
    = Some (Returned (HVObject tmpl), rt1)
    /\ hermesBuiltinCopyDataProperties [HVObject 0%nat; HVObject tmpl] rt1
       = Some (Returned (HVObject 0%nat), rt2)
    /\ heap rt2 !! 0%nat = Some T'
    /\ named T' = []
    /\ (forall j, lookupIndexed T' j
                  = mkIndexed defaultPropertyFlags <$> [HVString "a"] !! j)
    /\ heap rt2 !! tmpl = heap rt1 !! tmpl.
Proof.
  refine (copyDataProperties_template_object templateArgsA templateWithTarget
            templateFrame [] (ofZ 7) 7 false (mkCodeBlock 0%nat) (mkModule ∅)
            0%nat _ _ _ eq_refl eq_refl eq_refl eq_refl eq_refl eq_refl
            eq_refl _ eq_refl eq_refl eq_refl eq_refl _).
  - cbn. lia.
  - cbn. lia.
  - reflexivity.
  - intros j. by destruct j.
Defined.

(** ** exportAll: a second run, and exports that take no new property *)

Lemma findNamed_Some id o slot p :
  findNamed id o = Some (slot, p) <->
  named o !! slot = Some p /\ propId p = id
  /\ forall j q, named o !! j = Some q -> (j < slot)%nat -> propId q <> id.
Proof.
  unfold findNamed. apply (list_find_Some (fun q => propId q = id)).
Qed.

Lemma withNamed_named o : withNamed o (named o) = o.
Proof. by destruct o. Qed.

(** Defining a property leaves the properties with other names, and
    whether the object is extensible, as they were. *)
Lemma defineNamedIn_other o q dpf v o' id :
  defineNamedIn o q dpf v = Some o' ->
  id <> q ->
  findNamed id o' = findNamed id o /\ noExtend o' = noExtend o.
Proof.
  unfold defineNamedIn. intros Hdef Hne.
  destruct (findNamed q o) as [[slot cur]|] eqn:Hq.
  - destruct (validateUpdate _ _ _ _); [|done]. injection Hdef as <-.
    split; [|done].
    apply findNamed_Some in Hq as (Hcur & Hidq & _).
    assert (Hslot : (slot < length (named o))%nat)
      by (by eapply lookup_lt_Some).
    destruct (findNamed id o) as [[i x]|] eqn:Hid.
    + apply findNamed_Some in Hid as (Hx & Hidx & Hfirst).
      assert (i <> slot) by (intros ->; congruence).
      apply findNamed_Some. cbn [named withNamed].
      split; [by rewrite list_lookup_insert_ne|]. split; [done|].
      intros j y Hy Hj. destruct (decide (j = slot)) as [->|Hjs].
      * rewrite list_lookup_insert_eq in Hy by done.
        injection Hy as <-. cbn. congruence.
      * rewrite list_lookup_insert_ne in Hy by done. by eapply Hfirst.
    + apply findNamed_None_iff in Hid. apply findNamed_None_iff.
      cbn [named withNamed]. intros Hin. apply Hid.
      apply list_elem_of_fmap in Hin as (y & -> & Hy).
      apply list_elem_of_lookup in Hy as [j Hy].
      destruct (decide (j = slot)) as [->|Hjs].
      * rewrite list_lookup_insert_eq in Hy by exact Hslot.
        injection Hy as <-. by cbn in Hne.
      * rewrite list_lookup_insert_ne in Hy by done.
        apply list_elem_of_fmap. exists y. split; [done|].
        by eapply list_elem_of_lookup_2.
  - destruct (noExtend o) eqn:Hext; [done|]. injection Hdef as <-.
    split; [|done].
    destruct (findNamed id o) as [[i x]|] eqn:Hid.
    + apply findNamed_Some in Hid as (Hx & Hidx & Hfirst).
      apply findNamed_Some. cbn [named withNamed].
      split; [by apply lookup_app_l_Some|]. split; [done|].
      intros j y Hy Hj.
      rewrite lookup_app_l in Hy
        by (apply lookup_lt_Some in Hx; lia).
      by eapply Hfirst.
    + apply findNamed_None_iff in Hid. apply findNamed_None_iff.
      cbn [named withNamed]. rewrite fmap_app. intros Hin.
      apply elem_of_app in Hin as [Hin|Hin]; [done|].
      cbn in Hin. apply list_elem_of_singleton in Hin. done.
Qed.

(** Exporting a property twice is exporting it once. *)
Lemma defineExport_idem E p :
  defineExport (defineExport E p) p = defineExport E p.
Proof.
  destruct (findNamed (propId p) E) as [[slot cur]|] eqn:Hf.
  - destruct (validateUpdate (propFlags cur) (propValue cur) exportAllDPF
                (propValue p)) eqn:Hval.
    2:{ assert (HE : defineExport E p = E).
        { unfold defineExport, defineNamedIn. by rewrite Hf, Hval. }
        by rewrite !HE. }
    set (e1 := mkNamed (propId p) exportedFlags (propValue p)).
    assert (HE : defineExport E p = withNamed E (<[slot := e1]> (named E))).
    { unfold defineExport, defineNamedIn. rewrite Hf, Hval. cbn [default].
      unfold e1, applyFlags, applyValue, exportedFlags; cbn.
      by destruct (accessor (propFlags cur)). }
    rewrite !HE.
    apply findNamed_Some in Hf as (Hcur & Hid & Hfirst).
    assert (Hslot : (slot < length (named E))%nat)
      by (by eapply lookup_lt_Some).
    assert (Hf1 : findNamed (propId p) (withNamed E (<[slot := e1]> (named E)))
                  = Some (slot, e1)).
    { apply findNamed_Some. cbn [named withNamed].
      split; [by apply list_lookup_insert_eq|]. split; [done|].
      intros j y Hy Hj. rewrite list_lookup_insert_ne in Hy by lia.
      by eapply Hfirst. }
    unfold defineExport, defineNamedIn. rewrite Hf1.
    cbn. by rewrite list_insert_insert_eq.
  - destruct (noExtend E) eqn:Hext.
    { assert (HE : defineExport E p = E).
      { unfold defineExport, defineNamedIn. by rewrite Hf, Hext. }
      by rewrite !HE. }
    set (e1 := mkNamed (propId p) exportedFlags (propValue p)).
    assert (HE : defineExport E p = withNamed E (named E ++ [e1])).
    { unfold defineExport, defineNamedIn. by rewrite Hf, Hext. }
    rewrite !HE.
    assert (Hf1 : findNamed (propId p) (withNamed E (named E ++ [e1]))
                  = Some (length (named E), e1)).
    { apply findNamed_Some. cbn [named withNamed].
      split; [by rewrite lookup_app_r, Nat.sub_diag|]. split; [done|].
      intros j y Hy Hj. rewrite lookup_app_l in Hy by done.
      apply findNamed_None_iff in Hf. intros Heq. apply Hf.
      apply list_elem_of_fmap. exists y. split; [done|].
      by eapply list_elem_of_lookup_2. }
    unfold defineExport, defineNamedIn. rewrite Hf1.
    cbn. unfold withNamed; cbn. f_equal.
    replace (length (named E)) with (length (named E) + 0)%nat at 1 by lia.
    by rewrite insert_app_r.
Qed.

(** A property that is exported stays exported when a property with
    another name is. *)
Lemma defineExport_other E p q :
  propId q <> propId p ->
  defineExport E p = E ->
  defineExport (defineExport E q) p = defineExport E q.
Proof.
  intros Hne Hsettled. unfold defineExport at 2 3.
  destruct (defineNamedIn E (propId q) exportAllDPF (propValue q))
    as [E'|] eqn:Hq; cbn [default from_option id]; [|done].
  destruct (defineNamedIn_other _ _ _ _ _ (propId p) Hq) as [Hfind Hext];
    [congruence|].
  unfold defineExport, defineNamedIn in *. rewrite Hfind, Hext.
  destruct (findNamed (propId p) E) as [[slot cur]|] eqn:Hf.
  - destruct (validateUpdate _ _ _ _); [|done].
    cbn [default from_option id] in *.
    pose proof (proj1 (findNamed_Some _ _ _ _) Hf) as (Hcur & _).
    assert (Hslot : (slot < length (named E))%nat)
      by (by eapply lookup_lt_Some).
    assert (Hnew : named E !! slot
                   = Some (mkNamed (propId p)
                             (applyFlags (propFlags cur) exportAllDPF)
                             (applyValue (propFlags cur) (propValue cur)
                                exportAllDPF (propValue p)))).
    { rewrite <- Hsettled at 1. cbn [named withNamed].
      by apply list_lookup_insert_eq. }
    rewrite Hcur in Hnew. injection Hnew as Hnew.
    rewrite <- Hnew.
    assert (Hcur' : named E' !! slot = Some cur).
    { assert (Hfq : findNamed (propId p) E' = Some (slot, cur))
        by (by rewrite Hfind).
      by apply findNamed_Some in Hfq as (? & _). }
    by rewrite list_insert_id, withNamed_named.
  - destruct (noExtend E); [done|]. cbn [default from_option id] in Hsettled.
    apply (f_equal (fun o => length (named o))) in Hsettled.
    cbn in Hsettled. rewrite length_app in Hsettled. cbn in Hsettled. lia.
Qed.

Lemma foldl_defineExport_settled (l : list NamedProp) :
  forall E p,
    (forall q, q ∈ l -> propId q <> propId p) ->
    defineExport E p = E ->
    defineExport (foldl defineExport E l) p = foldl defineExport E l.
Proof.
  induction l as [|q l IH]; intros E p Hids Hsettled; [done|].
  cbn [foldl]. apply IH.
  - intros r Hr. apply Hids. by apply list_elem_of_further.
  - apply defineExport_other; [|done]. apply Hids. apply list_elem_of_here.
Qed.

Lemma foldl_settled (l : list NamedProp) (E : JSObject) :
  (forall p, p ∈ l -> defineExport E p = E) ->
  foldl defineExport E l = E.
Proof.
  induction l as [|p l IH]; intros H; [done|]. cbn [foldl].
  rewrite (H p (list_elem_of_here _ _)). apply IH.
  intros q Hq. apply H. by apply list_elem_of_further.
Qed.

(** Exporting a list of properties with distinct names twice is exporting
    it once. *)
Lemma foldl_defineExport_idem (ps : list NamedProp) :
  NoDup (propId <$> ps) ->
  forall E, foldl defineExport (foldl defineExport E ps) ps
            = foldl defineExport E ps.
Proof.
  intros Hnd E. apply foldl_settled. revert E.
  induction ps as [|p ps IH]; intros E x Hx; [by apply elem_of_nil in Hx|].
  rewrite fmap_cons in Hnd. apply NoDup_cons in Hnd as [Hp Hnd].
  cbn [foldl]. apply elem_of_cons in Hx as [->|Hx].
  - apply foldl_defineExport_settled; [|apply defineExport_idem].
    intros q Hq Heq. apply Hp. rewrite <- Heq. apply list_elem_of_fmap.
    by exists q.
  - by apply IH.
Qed.

Lemma kind_foldl_defineExport (l : list NamedProp) (E : JSObject) :
  kind (foldl defineExport E l) = kind E.
Proof.
  revert E. induction l as [|p l IH]; intros E; [done|].
  cbn [foldl]. by rewrite IH, kind_defineExport.
Qed.

(** The call on two distinct objects. *)
Lemma exportAll_returns (args : NativeArgs) (rt : Runtime) (e s : ObjRef)
    (E S : JSObject) :
  getArg args 0 = HVObject e -> heap rt !! e = Some E ->
  getArg args 1 = HVObject s -> heap rt !! s = Some S ->
  isJSObject (kind E) = true -> isJSObject (kind S) = true ->
  e <> s -> isJSArray (kind E) = false ->
  hermesBuiltinExportAll args rt =
    Some (Returned HVUndefined,
          setHeap
            (<[e := foldl defineExport E (List.filter exportable (named S))]>
               (heap rt)) rt).
Proof.
  intros Ha0 HE Ha1 HS HkE HkS Hne Harr.
  unfold hermesBuiltinExportAll.
  unfold bind at 1. rewrite (dyncastArg_object _ _ _ _ _ _ Ha0 HE), HkE.
  unfold bind at 1. rewrite (dyncastArg_object _ _ _ _ _ _ Ha1 HS), HkS.
  unfold bind at 1. unfold getClass. unfold bind at 1.
  rewrite (getCell_eq _ _ _ HS). cbn [ret].
  unfold bind at 1. unfold HiddenClass_forEachPropertyWhile.
  rewrite (exportAll_loop s e S (named S) 0 rt E) by done.
  reflexivity.
Qed.

(** X19. [exportAll] is idempotent.  Run a second time with the same exports
    object and the same source, it returns [undefined] again and leaves the
    runtime exactly as the first run left it, whatever the exports object
    held before the first run: a property that was exported is redefined
    with the value and the flags it has, and a definition that was refused
    is refused again, silently. *)
Theorem exportAll_idempotent (args : NativeArgs) (rt : Runtime)
    (e s : ObjRef) (E S : JSObject) :
  getArg args 0 = HVObject e -> heap rt !! e = Some E ->
  getArg args 1 = HVObject s -> heap rt !! s = Some S ->
  isJSObject (kind E) = true -> isJSObject (kind S) = true ->
  e <> s -> isJSArray (kind E) = false ->
  NoDup (propId <$> named S) ->
  exists rt1 : Runtime,
    hermesBuiltinExportAll args rt = Some (Returned HVUndefined, rt1)
    /\ hermesBuiltinExportAll args rt1 = Some (Returned HVUndefined, rt1).
Proof.
  intros Ha0 HE Ha1 HS HkE HkS Hne Harr Hnd.
  set (ps := List.filter exportable (named S)).
  set (E1 := foldl defineExport E ps).
  set (rt1 := setHeap (<[e := E1]> (heap rt)) rt).
  exists rt1. split; [by apply (exportAll_returns args rt e s E S)|].
  assert (Hlt : (e < length (heap rt))%nat) by (by eapply lookup_lt_Some).
  assert (HE1 : heap rt1 !! e = Some E1).
  { unfold rt1. rewrite heap_setHeap. by apply list_lookup_insert_eq. }
  assert (HS1 : heap rt1 !! s = Some S).
  { unfold rt1. rewrite heap_setHeap. by rewrite list_lookup_insert_ne. }
  assert (HkE1 : kind E1 = kind E) by apply kind_foldl_defineExport.
  rewrite (exportAll_returns args rt1 e s E1 S Ha0 HE1 Ha1 HS1)
    by (done || by rewrite HkE1).
  f_equal. f_equal. fold ps. unfold E1.
  rewrite foldl_defineExport_idem by (by apply NoDup_fmap_filter).
  unfold rt1. rewrite setHeap_setHeap, heap_setHeap.
  by rewrite list_insert_insert_eq.
Qed.

Lemma exportAll_idempotent_witness :
  exists rt1 : Runtime,
    hermesBuiltinExportAll [HVObject 0%nat; HVObject 1%nat] exportsExample
    = Some (Returned HVUndefined, rt1)
    /\ hermesBuiltinExportAll [HVObject 0%nat; HVObject 1%nat] rt1
       = Some (Returned HVUndefined, rt1).
Proof.
  refine (exportAll_idempotent [HVObject 0%nat; HVObject 1%nat] exportsExample
            0%nat 1%nat _ _ eq_refl eq_refl eq_refl eq_refl eq_refl eq_refl
            _ eq_refl _).
  - discriminate.
  - apply (bool_decide_unpack _). vm_compute. exact I.
Defined.

(** X20. [exportAll] does not look at the answer of a definition either.  On
    an exports object that is not extensible and has none of the names that
    are exported, every definition is refused without an exception:
    [exportAll] returns [undefined] and the runtime is exactly as it was. *)
Theorem exportAll_closed_exports (args : NativeArgs) (rt : Runtime)
    (e s : ObjRef) (E S : JSObject) :
  getArg args 0 = HVObject e -> heap rt !! e = Some E ->
  getArg args 1 = HVObject s -> heap rt !! s = Some S ->
  isJSObject (kind E) = true -> isJSObject (kind S) = true ->
  e <> s -> isJSArray (kind E) = false ->
  noExtend E = true ->
  (forall p, p ∈ named S -> exportable p = true ->
             findNamed (propId p) E = None) ->
  hermesBuiltinExportAll args rt = Some (Returned HVUndefined, rt).
Proof.
  intros Ha0 HE Ha1 HS HkE HkS Hne Harr Hclosed Hnames.
  rewrite (exportAll_returns args rt e s E S) by done.
  assert (H : foldl defineExport E (List.filter exportable (named S)) = E).
  { apply foldl_refused. intros p Hp.
    apply list_elem_of_In, filter_In in Hp as [Hp Hx].
    apply list_elem_of_In in Hp.
    unfold defineExport, defineNamedIn.
    by rewrite (Hnames p Hp Hx), Hclosed. }
  by rewrite H, setHeap_insert_id.
Qed.

Lemma exportAll_closed_exports_witness :
  hermesBuiltinExportAll [HVObject 0%nat; HVObject 1%nat] sealedExample
  = Some (Returned HVUndefined, sealedExample).
Proof.
  refine (exportAll_closed_exports [HVObject 0%nat; HVObject 1%nat]
            sealedExample 0%nat 1%nat _ _ eq_refl eq_refl eq_refl eq_refl
            eq_refl eq_refl _ eq_refl eq_refl _).
  - discriminate.
  - reflexivity.
Defined.

(** ** The table of builtins *)

Section TableOfBuiltins.

Variable indexOf : BuiltinMethod.Enum -> nat.

Lemma createHermesBuiltins_defineAll (builtins : list (option NativeFunction)) :
  createHermesBuiltins indexOf builtins
  = defineAll indexOf allBuiltins builtins.
Proof.
  unfold createHermesBuiltins, defineInternMethod.
  cbn [defineAll allBuiltins registered].
  repeat (match goal with
          | |- context [?l !! ?i] =>
              destruct (l !! i) as [[?|]|];
              cbn [mbind option_bind]; try reflexivity
          end).
Qed.

Lemma elem_of_allBuiltins (b : BuiltinMethod.Enum) : b ∈ allBuiltins.
Proof. destruct b; unfold allBuiltins; set_solver. Qed.

Lemma NoDup_allBuiltins : NoDup allBuiltins.
Proof. apply (bool_decide_unpack _). vm_compute. exact I. Qed.

(** A run that succeeds found every entry null. *)
Lemma defineAll_inv (l : list BuiltinMethod.Enum) :
  forall builtins builtins',
    defineAll indexOf l builtins = Some builtins' ->
    forall b, b ∈ l -> builtins !! indexOf b = Some None.
Proof.
  induction l as [|a l IH]; intros bs bs' Hrun b Hb.
  { by apply elem_of_nil in Hb. }
  cbn [defineAll] in Hrun.
  destruct (bs !! indexOf a) as [[f|]|] eqn:Ha; try done.
  apply elem_of_cons in Hb as [->|Hb]; [done|].
  pose proof (IH _ _ Hrun b Hb) as Hb'.
  destruct (decide (indexOf b = indexOf a)) as [Heq|Hne].
  - rewrite Heq, list_lookup_insert_eq in Hb'; [done|].
    by eapply lookup_lt_Some.
  - by rewrite list_lookup_insert_ne in Hb'.
Qed.

Hypothesis indexOf_inj : Inj (=) (=) indexOf.

(** On a table whose entries for the builtins are null the run succeeds,
    binds each of them and touches nothing else. *)
Lemma defineAll_Some (l : list BuiltinMethod.Enum) :
  NoDup l ->
  forall builtins,
    (forall b, b ∈ l -> builtins !! indexOf b = Some None) ->
    exists builtins',
      defineAll indexOf l builtins = Some builtins'
      /\ length builtins' = length builtins
      /\ (forall b, b ∈ l ->
            builtins' !! indexOf b = Some (Some (registered b)))
      /\ (forall i, (forall b, b ∈ l -> indexOf b <> i) ->
            builtins' !! i = builtins !! i).
Proof.
  induction l as [|a l IH]; intros Hnd bs Hnull.
  { exists bs. repeat split; try done.
    intros b Hb. by apply elem_of_nil in Hb. }
  apply NoDup_cons in Hnd as [Ha Hnd].
  cbn [defineAll]. rewrite (Hnull a (list_elem_of_here _ _)).
  assert (Hlt : (indexOf a < length bs)%nat).
  { eapply lookup_lt_Some. apply (Hnull a), list_elem_of_here. }
  destruct (IH Hnd (<[indexOf a := Some (registered a)]> bs))
    as (bs' & Hrun & Hlen & Hin & Hout).
  { intros b Hb. rewrite list_lookup_insert_ne.
    - apply Hnull. by apply list_elem_of_further.
    - intros Heq. apply indexOf_inj in Heq. congruence. }
  exists bs'. split; [done|]. split; [by rewrite Hlen, length_insert|].
  split.
  - intros b Hb. apply elem_of_cons in Hb as [->|Hb]; [|by apply Hin].
    rewrite Hout.
    + by apply list_lookup_insert_eq.
    + intros b Hb Heq. apply indexOf_inj in Heq. congruence.
  - intros i Hi. rewrite Hout.
    + apply list_lookup_insert_ne. apply Hi, list_elem_of_here.
    + intros b Hb. apply Hi. by apply list_elem_of_further.
Qed.

End TableOfBuiltins.

(** X21. [createHermesBuiltins] completes exactly on a table in which the
    entries of its twelve builtins exist and are null: an entry that is
    already bound, or an index outside the table, trips the assertion.  When
    it completes, each of the twelve entries holds the function object of
    its builtin, with the native code, the name and the number of parameters
    declared for it, every other entry of the table is as it was, and the
    table has kept its size.  A second run on the table it produced trips the
    assertion: the builtins are bound once. *)
Theorem createHermesBuiltins_spec (indexOf : BuiltinMethod.Enum -> nat)
    (builtins : list (option NativeFunction)) :
  Inj (=) (=) indexOf ->
  (is_Some (createHermesBuiltins indexOf builtins)
   <-> forall b, builtins !! indexOf b = Some None)
  /\ (forall builtins',
        createHermesBuiltins indexOf builtins = Some builtins' ->
        length builtins' = length builtins
        /\ (forall b, builtins' !! indexOf b = Some (Some (registered b)))
        /\ (forall i, (forall b, indexOf b <> i) ->
              builtins' !! i = builtins !! i)
        /\ createHermesBuiltins indexOf builtins' = None).
Proof.
  intros Hinj. rewrite createHermesBuiltins_defineAll.
  assert (Hgood : (forall b, builtins !! indexOf b = Some None) ->
            exists builtins',
              defineAll indexOf allBuiltins builtins = Some builtins'
              /\ length builtins' = length builtins
              /\ (forall b, builtins' !! indexOf b = Some (Some (registered b)))
              /\ (forall i, (forall b, indexOf b <> i) ->
                    builtins' !! i = builtins !! i)).
  { intros Hnull.
    destruct (defineAll_Some indexOf Hinj allBuiltins NoDup_allBuiltins
                builtins)
      as (bs' & Hrun & Hlen & Hin & Hout); [by intros b _|].
    exists bs'. split; [done|]. split; [done|]. split.
    - intros b. apply Hin, elem_of_allBuiltins.
    - intros i Hi. apply Hout. intros b _. apply Hi. }
  split.
  - split.
    + intros [bs' Hrun] b.
      apply (defineAll_inv indexOf allBuiltins builtins bs' Hrun).
      apply elem_of_allBuiltins.
    + intros Hnull. destruct (Hgood Hnull) as (bs' & Hrun & _). by eexists.
  - intros bs' Hrun.
    assert (Hnull : forall b, builtins !! indexOf b = Some None).
    { intros b. apply (defineAll_inv indexOf allBuiltins builtins bs' Hrun).
      apply elem_of_allBuiltins. }
    destruct (Hgood Hnull) as (bs'' & Hrun' & Hlen & Hin & Hout).
    assert (bs'' = bs') as -> by congruence.
    split; [done|]. split; [done|]. split; [done|].
    rewrite createHermesBuiltins_defineAll. cbn [defineAll allBuiltins].
    by rewrite Hin.
Qed.

Lemma positionAfter_inj (base : nat) : Inj (=) (=) (positionAfter base).
Proof.
  intros a b H. unfold positionAfter in H.
  destruct a, b; (reflexivity || (exfalso; lia)).
Defined.

Lemma createHermesBuiltins_spec_witness :
  (is_Some (createHermesBuiltins (positionAfter 2) (replicate 15 None))
   <-> forall b, replicate 15 None !! positionAfter 2 b
                 = Some (@None NativeFunction))
  /\ (forall builtins',
        createHermesBuiltins (positionAfter 2) (replicate 15 None)
        = Some builtins' ->
        length builtins' = length (replicate 15 (@None NativeFunction))
        /\ (forall b, builtins' !! positionAfter 2 b
                      = Some (Some (registered b)))
        /\ (forall i, (forall b, positionAfter 2 b <> i) ->
              builtins' !! i = replicate 15 None !! i)
        /\ createHermesBuiltins (positionAfter 2) builtins' = None).
Proof.
  exact (createHermesBuiltins_spec (positionAfter 2) (replicate 15 None)
           (positionAfter_inj 2)).
Defined.
